(** * A shallow embedding of the chat-room server (server.py)

    The development follows server.py top to bottom: the Python values the
    handlers receive, the three dictionaries of in-memory state, the room
    logs, the utilities ([log_path_for], [append_room_log], [tail_room_log],
    [broadcast], [send], [broadcast_room_update]), the action handlers,
    [disconnect] and the per-connection [handler]; then the server as the
    interleaving of the handlers, and the properties.

    Conventions of the embedding.
    - A Python [str] is a [string]; each [ascii] is one code point in
      0..255, and [isspace], [isalnum] and [repr] are Python's on that range.
    - A decoded JSON value is a [json]; JSON numbers with a fraction or an
      exponent (Python floats) are not represented.
    - A handler is a computation over the shared state that records what it
      sends, in program order, as a list of [event]s; a send to a closed
      connection is recorded like any other, as the source ignores its
      failure.
    - One iteration of a handler's loop is run to completion before another
      connection's handler runs: the [await]s inside an iteration are not
      scheduling points of the model.
    - [ROOMS] keeps its keys in insertion order, as a Python [dict] does;
      the iteration order of a Python [set], which the language leaves
      open, is the enumeration order of the [gset] that stands for it.
    - What the file system and [json.loads] refuse is part of the model: a
      file name the file system does not take, a log that cannot be opened,
      and JSON text on which [json.loads] raises an exception other than
      [JSONDecodeError]. *)

From Stdlib Require Import Ascii String ZArith.
From stdpp Require Import gmap strings list fin_maps pretty sorting.

Set Warnings "-clear-no-such-hyp".

Local Open Scope string_scope.
Local Open Scope list_scope.

(** ** Python strings *)

Module Py.

Definition code (c : ascii) : N := N_of_ascii c.

Definition between (lo hi : N) (n : N) : bool := ((lo <=? n) && (n <=? hi))%N.

(** [str.isspace] on one character. *)
Definition isspace (c : ascii) : bool :=
  let n := code c in
  between 9 13 n || between 28 32 n || (n =? 133)%N || (n =? 160)%N.

(** [str.isalnum] on one character. *)
Definition isalnum (c : ascii) : bool :=
  let n := code c in
  between 48 57 n || between 65 90 n || between 97 122 n
  || (n =? 170)%N || between 178 179 n || (n =? 181)%N || between 185 186 n
  || between 188 190 n || between 192 214 n || between 216 246 n
  || between 248 255 n.

Fixpoint lstrip (s : string) : string :=
  match s with
  | EmptyString => EmptyString
  | String c s' => if isspace c then lstrip s' else s
  end.

Definition is_empty (s : string) : bool :=
  match s with EmptyString => true | String _ _ => false end.

Fixpoint rstrip (s : string) : string :=
  match s with
  | EmptyString => EmptyString
  | String c s' =>
      let r := rstrip s' in
      if isspace c && is_empty r then EmptyString else String c r
  end.

(** [s.strip()] *)
Definition strip (s : string) : string := rstrip (lstrip s).

(** ["".join(c for c in s if p c)] *)
Fixpoint filter_chars (p : ascii → bool) (s : string) : string :=
  match s with
  | EmptyString => EmptyString
  | String c s' => if p c then String c (filter_chars p s') else filter_chars p s'
  end.

Fixpoint contains (c : ascii) (s : string) : bool :=
  match s with
  | EmptyString => false
  | String d s' => if Ascii.eqb c d then true else contains c s'
  end.

(** The characters of a string, as [for c in s] yields them. *)
Fixpoint chars (s : string) : list string :=
  match s with
  | EmptyString => []
  | String c s' => String c EmptyString :: chars s'
  end.

(** [", ".join(l)] *)
Fixpoint join_comma (l : list string) : string :=
  match l with
  | [] => ""
  | [x] => x
  | x :: l' => x +:+ ", " +:+ join_comma l'
  end.

Definition hex_digit (n : N) : ascii :=
  if (n <? 10)%N then ascii_of_N (48 + n) else ascii_of_N (87 + n).

Definition apostrophe : ascii := ascii_of_N 39.
Definition dquote : ascii := ascii_of_N 34.

(** [repr] of a string: the quote is the apostrophe unless the string holds
    an apostrophe and no double quote; the quote and the backslash are
    escaped, tab, newline and carriage return have their letters, and every
    other unprintable character is written as x and two hex digits. *)
Definition printable (n : N) : bool :=
  between 32 126 n || (between 161 255 n && negb (n =? 173)%N).

Definition repr_char (quote : ascii) (c : ascii) : string :=
  let n := code c in
  if Ascii.eqb c quote || (n =? 92)%N then String "\" (String c "")
  else if (n =? 9)%N then "\t"
  else if (n =? 10)%N then "\n"
  else if (n =? 13)%N then "\r"
  else if printable n then String c ""
  else String "\" (String "x" (String (hex_digit (n / 16)) (String (hex_digit (n mod 16)) ""))).

Fixpoint repr_chars (quote : ascii) (s : string) : string :=
  match s with
  | EmptyString => EmptyString
  | String c s' => repr_char quote c +:+ repr_chars quote s'
  end.

Definition repr_str (s : string) : string :=
  let quote := if contains apostrophe s && negb (contains dquote s) then dquote else apostrophe in
  String quote (repr_chars quote s +:+ String quote "").

(** [l[start:]] for a Python list: a negative start counts from the end,
    and the result is clipped to the list. *)
Definition slice_from {A : Type} (start : Z) (l : list A) : list A :=
  let len := Z.of_nat (length l) in
  let lo := if (start <? 0)%Z then Z.max (start + len) 0 else Z.min start len in
  drop (Z.to_nat lo) l.

(** [sorted] on strings: code-point order. *)
Definition str_le (a b : string) : Prop := String.leb a b = true.

#[global] Instance str_le_dec : RelDecision str_le.
Proof. intros a b. unfold str_le. apply _. Defined.

Definition sorted (l : list string) : list string := merge_sort str_le l.

(** [str.lower] on one character, and on a string. *)
Definition lower_char (c : ascii) : ascii :=
  let n := code c in
  if between 65 90 n || between 192 214 n || between 216 222 n
  then ascii_of_N (n + 32) else c.

Fixpoint lower (s : string) : string :=
  match s with
  | EmptyString => EmptyString
  | String c s' => String (lower_char c) (lower s')
  end.

(** [s.startswith(c)] for a one-character prefix. *)
Definition startswith (c : ascii) (s : string) : bool :=
  match s with
  | EmptyString => false
  | String d _ => Ascii.eqb c d
  end.

(** [s.split(sep, maxsplit)] for a one-character separator: at most
    [maxsplit] cuts, empty pieces kept. *)
Fixpoint split_max (sep : ascii) (maxsplit : nat) (s : string) : list string :=
  match s with
  | EmptyString => [EmptyString]
  | String c s' =>
      if Ascii.eqb c sep then
        match maxsplit with
        | O => [s]
        | S m => EmptyString :: split_max sep m s'
        end
      else
        match split_max sep maxsplit s' with
        | [] => [String c EmptyString]
        | piece :: pieces => String c piece :: pieces
        end
  end.

(** [s.split(sep)]: a string has fewer separators than characters. *)
Definition split (sep : ascii) (s : string) : list string :=
  split_max sep (String.length s) s.

(** [sorted(set(l))]: the elements of [l], each once, in order. *)
Definition sorted_set (l : list string) : list string := sorted (remove_dups l).

End Py.

(** ** Decoded JSON values *)

Set Warnings "-register-all".

Inductive json : Type :=
| JNull
| JBool (b : bool)
| JInt (z : Z)
| JStr (s : string)
| JList (l : list json)
| JDict (d : list (string * json)).

(** [repr(v)] *)
Fixpoint repr (v : json) : string :=
  match v with
  | JNull => "None"
  | JBool true => "True"
  | JBool false => "False"
  | JInt z => pretty z
  | JStr s => Py.repr_str s
  | JList l => "[" +:+ Py.join_comma (map repr l) +:+ "]"
  | JDict d =>
      "{" +:+ Py.join_comma (map (λ '(k, x), Py.repr_str k +:+ ": " +:+ repr x) d) +:+ "}"
  end.

(** [str(v)] *)
Definition str (v : json) : string :=
  match v with JStr s => s | _ => repr v end.

(** Truth value of [v], as [if v], [not v] and [v or w] test it. *)
Definition truthy (v : json) : bool :=
  match v with
  | JNull => false
  | JBool b => b
  | JInt z => negb (z =? 0)%Z
  | JStr s => negb (Py.is_empty s)
  | JList l => match l with [] => false | _ => true end
  | JDict d => match d with [] => false | _ => true end
  end.

(** A decoded object is a [dict]: its items in order, keys distinct. *)
Abbreviation dict := (list (string * json)).

Fixpoint lookup_key (k : string) (d : dict) : option json :=
  match d with
  | [] => None
  | (k', v) :: d' => if String.eqb k k' then Some v else lookup_key k d'
  end.

(** [d.get(k)] and [d.get(k, dflt)] *)
Definition get (k : string) (d : dict) : json := default JNull (lookup_key k d).
Definition get_or (k : string) (dflt : json) (d : dict) : json :=
  default dflt (lookup_key k d).

(** [v or w] *)
Definition or_else (v w : json) : json := if truthy v then v else w.

(** ** State of the server *)

(** A connection is the identity of its [WebSocketServerProtocol] object. *)
Abbreviation conn := nat.

(** What makes [json.loads] raise on text that is well-formed JSON, with an
    exception that is not a [JSONDecodeError]: an integer literal of more
    digits than the interpreter converts (4300 by default) raises
    [ValueError], and nesting deeper than the interpreter's recursion limit
    raises [RecursionError]. *)
Inductive refusal : Type := TooManyDigits | TooDeep.

(** A line of a room log is kept as what [json.loads(line.strip())] makes of
    it: a blank line is skipped by the [if line.strip()] test, a line that
    raises [JSONDecodeError] is skipped by the [except] clause, a line that
    [json.loads] refuses raises past that clause, any other line yields a
    value.  [json.dumps] writes a record on one line, which parses back to
    the record. *)
Inductive line : Type :=
| Blank
| Malformed
| Parsed (v : json)
| Unloadable (r : refusal).

(** The log directory: the text files in it by file name; the names on
    which opening for append raises, and those on which opening for reading
    or reading raises; and the names the file system refuses as such (a name
    longer than it allows), on which [exists] raises and so does opening. *)
Record disk : Type := Disk {
  files : gmap string (list line);
  append_error : gset string;
  read_error : gset string;
  name_error : gset string;
}.

(** The names that cannot be opened for append. *)
Definition write_error (d : disk) : gset string := append_error d ∪ name_error d.

(** [ROOMS] is a Python [dict]: it keeps its keys in the order in which they
    were inserted, and [list(ROOMS.items())] walks them in that order.  The
    state holds the mapping and, beside it, the keys in insertion order. *)
Record state : Type := State {
  USERS : gmap conn string;           (* ws -> username *)
  USERNAMES : gset string;            (* set of active usernames *)
  ROOMS : gmap string (gset conn);    (* room -> set of ws subscribers *)
  ROOM_ORDER : list string;           (* the keys of ROOMS, oldest first *)
  LOG_DIR : disk;
}.

Definition set_USERS (f : gmap conn string → gmap conn string) (σ : state) : state :=
  State (f (USERS σ)) (USERNAMES σ) (ROOMS σ) (ROOM_ORDER σ) (LOG_DIR σ).
Definition set_USERNAMES (f : gset string → gset string) (σ : state) : state :=
  State (USERS σ) (f (USERNAMES σ)) (ROOMS σ) (ROOM_ORDER σ) (LOG_DIR σ).
Definition set_files (f : gmap string (list line) → gmap string (list line)) (σ : state) : state :=
  State (USERS σ) (USERNAMES σ) (ROOMS σ) (ROOM_ORDER σ)
        (Disk (f (files (LOG_DIR σ))) (append_error (LOG_DIR σ)) (read_error (LOG_DIR σ))
              (name_error (LOG_DIR σ))).

(** [ROOMS.setdefault(room, set()).add(ws)]: a key that is new goes to the
    end of the order. *)
Definition ROOMS_add (room : string) (ws : conn) (σ : state) : state :=
  State (USERS σ) (USERNAMES σ)
        (<[room := {[ws]} ∪ default ∅ (ROOMS σ !! room)]> (ROOMS σ))
        (if decide (is_Some (ROOMS σ !! room)) then ROOM_ORDER σ else ROOM_ORDER σ ++ [room])
        (LOG_DIR σ).

(** [subs.discard(ws)] and [subs.remove(ws)], on the set [subs] stored
    under [room]: the key stays where it is. *)
Definition ROOMS_discard (room : string) (ws : conn) (subs : gset conn) (σ : state) : state :=
  State (USERS σ) (USERNAMES σ) (<[room := subs ∖ {[ws]}]> (ROOMS σ)) (ROOM_ORDER σ)
        (LOG_DIR σ).

(** [ROOMS.pop(room, None)] *)
Definition ROOMS_pop (room : string) (σ : state) : state :=
  State (USERS σ) (USERNAMES σ) (delete room (ROOMS σ))
        (filter (λ r, r ≠ room) (ROOM_ORDER σ)) (LOG_DIR σ).

(** [list(ROOMS.items())] *)
Definition ROOMS_items (σ : state) : list (string * gset conn) :=
  omap (λ room, (λ subs, (room, subs)) <$> ROOMS σ !! room) (ROOM_ORDER σ).

(** The server at start-up, over the log directory it finds. *)
Definition initial (d : disk) : state := State ∅ ∅ ∅ [] d.

(** ** Effects *)

(** Exceptions that reach the handler of a connection. [OSError] stands for
    whatever [exists], opening or writing a log file raises. *)
Inductive exn : Type :=
| AttributeError | TypeError | OSError | UnicodeDecodeError | ValueError | RecursionError.

Definition refusal_exn (r : refusal) : exn :=
  match r with TooManyDigits => ValueError | TooDeep => RecursionError end.

(** What the server does that is visible outside: a [ws.send] of an encoded
    payload, and a line printed to the console. *)
Inductive event : Type :=
| Send (ws : conn) (payload : json)
| PrintReadFailure (room : string)
| PrintUnexpected (ws : conn) (e : exn).

Record outcome (A : Type) : Type := Outcome {
  result : A + exn;
  final : state;
  sent : list event;
}.
Arguments Outcome {A} _ _ _.
Arguments result {A} _.
Arguments final {A} _.
Arguments sent {A} _.

(** A computation reads and writes the state, emits events, and returns or
    raises; what it did before raising stays done. *)
Definition M (A : Type) : Type := state → outcome A.

Definition ret {A} (a : A) : M A := λ σ, Outcome (inl a) σ [].

Definition bind {A B} (c : M A) (k : A → M B) : M B := λ σ,
  let o := c σ in
  match result o with
  | inl a => let o' := k a (final o) in Outcome (result o') (final o') (sent o ++ sent o')
  | inr e => Outcome (inr e) (final o) (sent o)
  end.

Definition raise {A} (e : exn) : M A := λ σ, Outcome (inr e) σ [].
Definition read : M state := λ σ, Outcome (inl σ) σ [].
Definition update (f : state → state) : M unit := λ σ, Outcome (inl tt) (f σ) [].
Definition emit (es : list event) : M unit := λ σ, Outcome (inl tt) σ es.

Notation "x <~ c ;; k" := (bind c (λ x, k))
  (at level 100, c at next level, right associativity).
Notation "c ;;; k" := (bind c (λ _, k))
  (at level 100, right associativity).

(** [for x in l: body x] *)
Fixpoint for_each {A} (l : list A) (body : A → M unit) : M unit :=
  match l with
  | [] => ret tt
  | x :: l' => body x ;;; for_each l' body
  end.

(** ** Utilities *)

(** Payloads are the dictionaries the source builds. *)
Definition obj (d : dict) : json := JDict d.
Definition strs (l : list string) : json := JList (JStr <$> l).

Definition error_for (action reason : string) : json :=
  obj [("type", JStr "error"); ("action", JStr action); ("reason", JStr reason)].
Definition error_plain (reason : string) : json :=
  obj [("type", JStr "error"); ("reason", JStr reason)].
Definition system_room (event username room : string) : json :=
  obj [("type", JStr "system"); ("event", JStr event); ("room", JStr room); ("username", JStr username)].
Definition system_rooms (event : string) (rooms : json) : json :=
  obj [("type", JStr "system"); ("event", JStr event); ("rooms", rooms)].
Definition leave_notice (username room : string) : json :=
  obj [("type", JStr "system"); ("event", JStr "leave"); ("username", JStr username); ("room", JStr room)].
Definition room_update (room : string) (users : list string) : json :=
  obj [("type", JStr "room_update"); ("room", JStr room); ("users", strs users)].
Definition history_msg (room : string) (messages : list json) : json :=
  obj [("type", JStr "history"); ("room", JStr room); ("messages", JList messages)].
Definition message_record (room : string) (username : json) (message : string) (ts : Z) : json :=
  obj [("type", JStr "message"); ("room", JStr room); ("username", username);
       ("message", JStr message); ("ts", JInt ts)].

(** [log_path_for]: the file name inside the log directory. *)
Definition safe_char (c : ascii) : bool :=
  Py.isalnum c || Ascii.eqb c "-" || Ascii.eqb c "_".

Definition log_path_for (room : string) : string :=
  let safe := Py.filter_chars safe_char room in
  safe +:+ ".txt".

(** [append_room_log]: opening the file for append creates it. *)
Definition append_room_log (room : string) (record : json) : M unit :=
  let p := log_path_for room in
  σ <~ read ;;
  if decide (p ∈ write_error (LOG_DIR σ)) then raise OSError
  else update (set_files (λ fs, <[p := default [] (fs !! p) ++ [Parsed record]]> fs)).

(** The loop of [tail_room_log] over the lines it kept: only
    [JSONDecodeError] is caught. *)
Fixpoint load_lines (ls : list line) (out : list json) : M (list json) :=
  match ls with
  | [] => ret out
  | Blank :: ls' => load_lines ls' out
  | Malformed :: ls' => load_lines ls' out
  | Parsed v :: ls' => load_lines ls' (out ++ [v])
  | Unloadable r :: ls' => raise (refusal_exn r)
  end.

(** [p.exists()] is outside the [try]; what opening or reading raises is
    caught and printed. *)
Definition tail_room_log (room : string) (n : Z) : M (list json) :=
  let p := log_path_for room in
  σ <~ read ;;
  if decide (p ∈ name_error (LOG_DIR σ)) then raise OSError
  else
    match files (LOG_DIR σ) !! p with
    | None => ret []
    | Some lines =>
        if decide (p ∈ read_error (LOG_DIR σ)) then
          emit [PrintReadFailure room] ;;; ret []
        else
          let last_lines := Py.slice_from (- n) lines in
          load_lines last_lines []
    end.

(** [targets.discard(except_ws)] when an [except_ws] is given. *)
Definition discard_opt (targets : gset conn) (except_ws : option conn) : gset conn :=
  match except_ws with
  | Some ws => targets ∖ {[ws]}
  | None => targets
  end.

Definition broadcast (room : string) (payload : json) (except_ws : option conn) : M unit :=
  σ <~ read ;;
  let targets : gset conn := discard_opt (default ∅ (ROOMS σ !! room)) except_ws in
  if decide (targets = ∅) then ret tt
  else emit ((λ ws, Send ws payload) <$> elements targets).

Definition send (ws : conn) (payload : json) : M unit := emit [Send ws payload].

Definition ensure_username_unique (username : string) : M bool :=
  σ <~ read ;; ret (bool_decide (username ∉ USERNAMES σ)).

Definition broadcast_room_update (room : string) : M unit :=
  σ <~ read ;;
  let subscribers : gset conn := default ∅ (ROOMS σ !! room) in
  if decide (subscribers = ∅) then ret tt
  else
    let user_list := Py.sorted (omap (λ ws, USERS σ !! ws) (elements subscribers)) in
    let payload := room_update room user_list in
    broadcast room payload None.

(** ** Action handlers *)

Definition handle_login (ws : conn) (data : dict) : M unit :=
  match get_or "username" (JStr "") data with
  | JStr s =>
      let username := Py.strip s in
      if Py.is_empty username then
        send ws (error_for "login" "Username required")
      else
        unique <~ ensure_username_unique username ;;
        if negb unique then
          send ws (error_for "login" "Username taken")
        else
          update (set_USERS (<[ws := username]>)) ;;;
          update (set_USERNAMES (λ names, {[username]} ∪ names)) ;;;
          send ws (obj [("type", JStr "ok"); ("action", JStr "login")])
  | _ => raise AttributeError          (* no [strip] on the value *)
  end.

(** The first loop of [handle_subscribe]. *)
Fixpoint subscribe_rooms (ws : conn) (username : string) (rooms : list json)
    (newly_subscribed_rooms : list string) : M (list string) :=
  match rooms with
  | [] => ret newly_subscribed_rooms
  | room_str :: rest =>
      let room := Py.strip (str room_str) in
      if Py.is_empty room then subscribe_rooms ws username rest newly_subscribed_rooms
      else
        σ <~ read ;;
        let is_new_sub := bool_decide (ws ∉ default (∅ : gset conn) (ROOMS σ !! room)) in
        update (ROOMS_add room ws) ;;;
        (if is_new_sub then broadcast room (system_room "join" username room) (Some ws)
         else ret tt) ;;;
        subscribe_rooms ws username rest (newly_subscribed_rooms ++ [room])
  end.

(** The body of its second loop. *)
Definition replay (ws : conn) (room : string) : M unit :=
  history <~ tail_room_log room 50 ;;
  (match history with
   | [] => ret tt
   | _ => send ws (history_msg room history)
   end) ;;;
  broadcast_room_update room.

Definition handle_subscribe (ws : conn) (data : dict) : M unit :=
  match or_else (get "rooms" data) (JList []) with
  | JList (room_str :: rest) =>
      σ <~ read ;;
      match USERS σ !! ws with
      | None => ret tt
      | Some username =>
          if Py.is_empty username then ret tt
          else
            newly_subscribed_rooms <~ subscribe_rooms ws username (room_str :: rest) [] ;;
            (match newly_subscribed_rooms with
             | [] => ret tt
             | _ => send ws (system_rooms "subscribed" (strs newly_subscribed_rooms))
             end) ;;;
            for_each newly_subscribed_rooms (replay ws)
      end
  | _ => send ws (error_for "subscribe" "rooms list required")
  end.

(** [for room in v]: a list yields its items, a string its characters, a
    dictionary its keys; nothing else can be iterated. *)
Definition iterate (v : json) : M (list json) :=
  match v with
  | JList l => ret l
  | JStr s => ret (JStr <$> Py.chars s)
  | JDict d => ret ((λ kv, JStr kv.1) <$> d)
  | _ => raise TypeError
  end.

(** [ROOMS.get(room)]: lists and dictionaries cannot be hashed, and no key
    of [ROOMS] equals a value that is not a string. *)
Definition ROOMS_get (room : json) : M (option (string * gset conn)) :=
  match room with
  | JStr r => σ <~ read ;; ret ((λ subs, (r, subs)) <$> ROOMS σ !! r)
  | JList _ | JDict _ => raise TypeError
  | _ => ret None
  end.

(** [subs.discard(ws)] on the set stored under [room], and the pruning of the
    room once the set is empty. *)
Definition remove_member (ws : conn) (room : string) (subs : gset conn) : M unit :=
  update (ROOMS_discard room ws subs) ;;;
  if decide (subs ∖ {[ws]} = ∅) then update (ROOMS_pop room) else ret tt.

Definition leave_and_update (username room : string) : M unit :=
  broadcast room (leave_notice username room) None ;;;
  broadcast_room_update room.

Fixpoint unsubscribe_rooms (ws : conn) (username : string) (rooms : list json)
    (unsubscribed_rooms : list json) : M (list json) :=
  match rooms with
  | [] => ret unsubscribed_rooms
  | room :: rest =>
      found <~ ROOMS_get room ;;
      match found with
      | Some (r, subs) =>
          if decide (subs ≠ ∅ ∧ ws ∈ subs) then
            remove_member ws r subs ;;;
            leave_and_update username r ;;;
            unsubscribe_rooms ws username rest (unsubscribed_rooms ++ [room])
          else unsubscribe_rooms ws username rest unsubscribed_rooms
      | None => unsubscribe_rooms ws username rest unsubscribed_rooms
      end
  end.

Definition handle_unsubscribe (ws : conn) (data : dict) : M unit :=
  let rooms_to_unsub := or_else (get "rooms" data) (JList []) in
  σ <~ read ;;
  match USERS σ !! ws with
  | None => ret tt
  | Some username =>
      if Py.is_empty username then ret tt
      else
        rooms <~ iterate rooms_to_unsub ;;
        unsubscribed_rooms <~ unsubscribe_rooms ws username rooms [] ;;
        match unsubscribed_rooms with
        | [] => ret tt
        | _ => send ws (system_rooms "unsubscribed" (JList unsubscribed_rooms))
        end
  end.

(** [now] is the value of [int(time.time())]. *)
Definition handle_publish (ws : conn) (data : dict) (now : Z) : M unit :=
  σ <~ read ;;
  let username := match USERS σ !! ws with Some u => JStr u | None => JNull end in
  let room := Py.strip (str (get_or "room" (JStr "") data)) in
  let message := Py.strip (str (get_or "message" (JStr "") data)) in
  if Py.is_empty room || Py.is_empty message then
    send ws (error_for "publish" "room and message required")
  else
    let ts := now in
    let record := message_record room username message ts in
    append_room_log room record ;;;
    broadcast room record None.

(** The first loop of [disconnect], over [list(ROOMS.items())]. *)
Fixpoint leave_rooms (ws : conn) (items : list (string * gset conn))
    (rooms_left : list string) : M (list string) :=
  match items with
  | [] => ret rooms_left
  | (room, subs) :: rest =>
      if decide (ws ∈ subs) then
        remove_member ws room subs ;;;
        leave_rooms ws rest (rooms_left ++ [room])
      else leave_rooms ws rest rooms_left
  end.

Definition disconnect (ws : conn) : M unit :=
  σ <~ read ;;
  update (set_USERS (delete ws)) ;;;
  match USERS σ !! ws with
  | None => ret tt
  | Some username =>
      if Py.is_empty username then ret tt
      else
        (if decide (username ∈ USERNAMES σ)
         then update (set_USERNAMES (λ names, names ∖ {[username]}))
         else ret tt) ;;;
        rooms_left <~ leave_rooms ws (ROOMS_items σ) [] ;;
        for_each rooms_left (leave_and_update username)
  end.

(** ** The connection handler *)

(** What [async for raw_message in ws] delivers, as what
    [json.loads(raw_message)] does with it: it raises, or it returns a
    value. *)
Inductive incoming : Type :=
| Undecodable       (* text that is not JSON: [JSONDecodeError] *)
| BadBytes          (* a binary frame that is not UTF-8: [UnicodeDecodeError] *)
| Refused (r : refusal)  (* JSON that [json.loads] refuses: [ValueError], [RecursionError] *)
| Decoded (v : json).    (* [json.loads] returned [v] *)

Inductive ctl : Type := Continue | Break.

Definition is_action (action : json) (name : string) : bool :=
  match action with
  | JStr s => String.eqb s name
  | _ => false
  end.

(** One iteration of the [async for] loop. *)
Definition handler_body (ws : conn) (raw : incoming) (now : Z) : M ctl :=
  match raw with
  | Decoded (JDict data) =>
      let action := get "action" data in
      σ <~ read ;;
      if negb (is_action action "login") && bool_decide (USERS σ !! ws = None) then
        send ws (error_plain "Authentication required. Please log in.") ;;; ret Continue
      else if is_action action "login" then
        (if bool_decide (USERS σ !! ws = None) then handle_login ws data
         else send ws (error_for "login" "You are already logged in")) ;;; ret Continue
      else if is_action action "subscribe" then handle_subscribe ws data ;;; ret Continue
      else if is_action action "unsubscribe" then handle_unsubscribe ws data ;;; ret Continue
      else if is_action action "publish" then handle_publish ws data now ;;; ret Continue
      else if is_action action "logout" then ret Break
      else
        send ws (error_plain ("Unknown action: '" +:+ str action +:+ "'")) ;;; ret Continue
  | BadBytes => raise UnicodeDecodeError    (* not caught inside the loop *)
  | Refused r => raise (refusal_exn r)      (* nor are these *)
  | _ =>
      (* [JSONDecodeError], or [AttributeError]: the value has no [get] *)
      send ws (error_plain "Invalid JSON message format") ;;; ret Continue
  end.

(** The [except] and [finally] clauses: an exception other than
    [ConnectionClosed] is printed, and [disconnect] runs. *)
Definition handler_exit (ws : conn) (raised : option exn) : M unit :=
  (match raised with
   | Some e => emit [PrintUnexpected ws e]
   | None => ret tt
   end) ;;;
  disconnect ws.

(** The [async for] loop over the messages of a connection, each with the
    clock reading at its arrival; the stream ends after them. *)
Fixpoint handler_loop (ws : conn) (msgs : list (incoming * Z)) : M unit :=
  match msgs with
  | [] => ret tt
  | (raw, now) :: rest =>
      c <~ handler_body ws raw now ;;
      match c with
      | Continue => handler_loop ws rest
      | Break => ret tt
      end
  end.

(** [handler], run with no other connection in between: the loop, then the
    [except] and [finally] clauses. *)
Definition handler (ws : conn) (msgs : list (incoming * Z)) : M unit := λ σ,
  let o := handler_loop ws msgs σ in
  let raised := match result o with inl _ => None | inr e => Some e end in
  let o' := handler_exit ws raised (final o) in
  Outcome (result o') (final o') (sent o ++ sent o').

(** ** The server *)

(** The handlers of the connections take turns, one loop iteration at a
    time.  The server is the shared state and the connections whose handler
    has returned; a connection object is served by one handler, once. *)
Record server : Type := Server {
  mem : state;
  returned : gset conn;
}.

(** What reaches the event loop: a message for a connection, at a clock
    reading, or the end of its stream ([ConnectionClosed]). *)
Inductive arrival : Type :=
| Message (ws : conn) (raw : incoming) (now : Z)
| Closed (ws : conn).

Definition arrival_conn (a : arrival) : conn :=
  match a with Message ws _ _ => ws | Closed ws => ws end.

(** One turn of the handler of a connection, on its next arrival: the loop
    body runs, and on [break], on an exception or at the end of the stream
    the handler leaves through [handler_exit] and returns. *)
Definition handler_turn (a : arrival) : M ctl :=
  match a with
  | Closed ws => handler_exit ws None ;;; ret Break
  | Message ws raw now => λ σ,
      let o := handler_body ws raw now σ in
      match result o with
      | inl Continue => o
      | inl Break =>
          let o' := handler_exit ws None (final o) in
          Outcome (inl Break) (final o') (sent o ++ sent o')
      | inr e =>
          let o' := handler_exit ws (Some e) (final o) in
          Outcome (inl Break) (final o') (sent o ++ sent o')
      end
  end.

Definition step (a : arrival) (s : server) : server * list event :=
  if decide (arrival_conn a ∈ returned s) then (s, [])
  else
    let o := handler_turn a (mem s) in
    match result o with
    | inl Continue => (Server (final o) (returned s), sent o)
    | _ => (Server (final o) ({[arrival_conn a]} ∪ returned s), sent o)
    end.

(** A run of the server from start-up. *)
Fixpoint run (s : server) (arrivals : list arrival) : server * list event :=
  match arrivals with
  | [] => (s, [])
  | a :: rest =>
      let '(s', out) := step a s in
      let '(s'', out') := run s' rest in
      (s'', out ++ out')
  end.

Definition boot (d : disk) : server := Server (initial d) ∅.

(** * The command-line client (client.py) *)

(** A frame the client sends is the payload given to [encode]; the server
    reads it back with [json.loads] as the same value. *)
Module Client.

(** What the input loop does that is visible outside. *)
Inductive action : Type :=
| WsSend (payload : json)      (* [await ws.send(encode(payload))] *)
| PrintHelp                    (* [print(HELP)] *)
| Print (text : string)
| WsClose.                     (* [await ws.close()] *)

Record t : Type := Make {
  username : option string;
  rooms : list string;
}.

(** [Client(uri)] *)
Definition init : t := Make None [].

(** [[r.strip() for r in arg.split(",") if r.strip()]] *)
Definition room_names (arg : string) : list string :=
  omap (λ r, if Py.is_empty (Py.strip r) then None else Some (Py.strip r))
       (Py.split "," arg).

(** The body of the [while] loop of [input_loop], on the line that
    [readline] returned: the empty string at the end of the input. *)
Definition input_line (c : t) (raw : string) : t * list action * ctl :=
  if Py.is_empty raw then (c, [], Break)
  else
    let line := Py.strip raw in
    if Py.is_empty line then (c, [], Continue)
    else if Py.startswith "/" line then
      let parts := Py.split_max " " 2 line in
      let cmd := Py.lower (default "" (parts !! 0%nat)) in
      if String.eqb cmd "/help" then (c, [PrintHelp], Continue)
      else if String.eqb cmd "/login" && (2 <=? length parts)%nat then
        let name := Py.strip (default "" (parts !! 1%nat)) in
        (Make (Some name) (rooms c),
         [WsSend (obj [("action", JStr "login"); ("username", JStr name)])], Continue)
      else if String.eqb cmd "/sub" && (2 <=? length parts)%nat then
        let names := room_names (default "" (parts !! 1%nat)) in
        (Make (username c) (Py.sorted_set (rooms c ++ names)),
         [WsSend (obj [("action", JStr "subscribe"); ("rooms", strs names)])], Continue)
      else if String.eqb cmd "/unsub" && (2 <=? length parts)%nat then
        let names := room_names (default "" (parts !! 1%nat)) in
        (Make (username c) (filter (λ r, r ∉ names) (rooms c)),
         [WsSend (obj [("action", JStr "unsubscribe"); ("rooms", strs names)])], Continue)
      else if String.eqb cmd "/pub" && (3 <=? length parts)%nat then
        let room := Py.strip (default "" (parts !! 1%nat)) in
        let message := default "" (parts !! 2%nat) in
        (c, [WsSend (obj [("action", JStr "publish"); ("room", JStr room);
                          ("message", JStr message)])], Continue)
      else if String.eqb cmd "/rooms" then
        (c, [Print ("Subscribed rooms: " +:+
                    match rooms c with
                    | [] => "(none)"
                    | _ => Py.join_comma (rooms c)
                    end)], Continue)
      else if String.eqb cmd "/quit" then
        (c, [WsSend (obj [("action", JStr "logout")])], Break)
      else (c, [Print "Unknown/invalid command. Type /help"], Continue)
    else (c, [Print "Prefix commands with /. Type /help"], Continue).

(** The [while] loop over the lines typed; the input ends after them. *)
Fixpoint read_lines (c : t) (lines : list string) : t * list action :=
  match lines with
  | [] => (c, [])
  | raw :: rest =>
      let '(c', out, k) := input_line c raw in
      match k with
      | Break => (c', out)
      | Continue => let '(c'', out') := read_lines c' rest in (c'', out ++ out')
      end
  end.

(** [input_loop]: the help text, the loop, and the closing of the
    connection. *)
Definition input_loop (c : t) (lines : list string) : t * list action :=
  let '(c', out) := read_lines c lines in
  (c', PrintHelp :: out ++ [WsClose]).

(** The frames among the actions, as the server decodes them. *)
Definition frames (out : list action) : list incoming :=
  omap (λ a, match a with WsSend payload => Some (Decoded payload) | _ => None end) out.

End Client.

(** * Vocabulary of the properties *)

(** ** Computations *)

(** A computation that only sends: it returns, and the state is as before. *)
Definition quiet {A} (c : M A) : Prop :=
  ∀ σ, final (c σ) = σ ∧ ∃ a, result (c σ) = inl a.

(** A computation that leaves the state as it is, whether it returns or
    raises. *)
Definition steady {A} (c : M A) : Prop := ∀ σ, final (c σ) = σ.

(** [c] keeps [I], however it ends. *)
Definition preserves {A} (I : state → Prop) (c : M A) : Prop :=
  ∀ σ, I σ → I (final (c σ)).

(** ** Views of the state and of a request *)

(** The subscribers of a room: [ROOMS.get(room, set())]. *)
Definition members (σ : state) (room : string) : gset conn :=
  default ∅ (ROOMS σ !! room).

(** The sorted user list of [broadcast_room_update]. *)
Definition user_list (σ : state) (room : string) : list string :=
  Py.sorted (omap (λ ws, USERS σ !! ws) (elements (members σ room))).

(** The rooms [ws] is subscribed to, in the order [disconnect] meets them:
    the order in which the rooms were created. *)
Definition rooms_of (ws : conn) (σ : state) : list string :=
  filter (λ room, ws ∈ members σ room) (ROOM_ORDER σ).

(** The records among lines that can be loaded, and the first line that
    [json.loads] refuses, if there is one. *)
Fixpoint parse_lines (ls : list line) : list json :=
  match ls with
  | [] => []
  | Parsed v :: ls' => v :: parse_lines ls'
  | _ :: ls' => parse_lines ls'
  end.

Fixpoint refused (ls : list line) : option refusal :=
  match ls with
  | [] => None
  | Unloadable r :: _ => Some r
  | _ :: ls' => refused ls'
  end.

(** The history of [room] can be replayed: the file system takes the name
    of its log, and [json.loads] refuses none of the last fifty lines of a
    log that can be read. *)
Definition replayable (σ : state) (room : string) : Prop :=
  (log_path_for room ∉ name_error (LOG_DIR σ)) ∧
  (log_path_for room ∉ read_error (LOG_DIR σ) →
   refused (Py.slice_from (Z.opp 50)
              (default [] (files (LOG_DIR σ) !! log_path_for room))) = None).

(** The room and the message of a publish request, trimmed. *)
Definition publish_room (data : dict) : string :=
  Py.strip (str (get_or "room" (JStr "") data)).
Definition publish_message (data : dict) : string :=
  Py.strip (str (get_or "message" (JStr "") data)).

(** The room names a subscribe request asks for: each entry as [str] prints
    it, trimmed, the blank ones left out. *)
Definition wanted (rooms : list json) : list string :=
  omap (λ room_str, if Py.is_empty (Py.strip (str room_str)) then None
                    else Some (Py.strip (str room_str))) rooms.

(** The confirmation a subscribe request gets: none when no name is left. *)
Definition confirmation (ws : conn) (names : list string) : list event :=
  match names with
  | [] => []
  | _ => [Send ws (system_rooms "subscribed" (strs names))]
  end.

(** Connection [x] has the same registry entry and is in the same rooms in
    [σ] as in [σ0]. *)
Definition same_for (x : conn) (σ0 σ : state) : Prop :=
  USERS σ !! x = USERS σ0 !! x ∧ ∀ room, x ∈ members σ room ↔ x ∈ members σ0 room.

(** The confirmation an unsubscribe request gets: none when no room was
    left. *)
Definition farewell (ws : conn) (left : list string) : list event :=
  match left with
  | [] => []
  | _ => [Send ws (system_rooms "unsubscribed" (strs left))]
  end.

(** The room list of the client is the set of rooms the server has the
    connection in. *)
Definition rooms_agree (c : Client.t) (ws : conn) (σ : state) : Prop :=
  ∀ room, room ∈ Client.rooms c ↔ ws ∈ members σ room.

(** The frames a client sent on [ws], as they arrive at the server. *)
Definition delivered (ws : conn) (now : Z) (out : list Client.action) : list arrival :=
  (λ raw, Message ws raw now) <$> Client.frames out.

(** ** Events *)

(** One send of [payload] to each member. *)
Definition to_all (members : gset conn) (payload : json) : list event :=
  (λ ws, Send ws payload) <$> elements members.

(** The two notices sent to a room that a connection left. *)
Definition notices (username : string) (σ : state) (room : string) : list event :=
  sent (leave_and_update username room σ).

(** The history message of a replay, if there is any history. *)
Definition history_events (ws : conn) (room : string) (σ : state) : list event :=
  match result (tail_room_log room 50 σ) with
  | inl (record :: history) => [Send ws (history_msg room (record :: history))]
  | _ => []
  end.

(** What the handler prints on its way out. *)
Definition exit_print (ws : conn) (raised : option exn) : list event :=
  match raised with
  | Some e => [PrintUnexpected ws e]
  | None => []
  end.

Definition login_ok : json := obj [("type", JStr "ok"); ("action", JStr "login")].

(** ** States the handlers leave *)

(** The state after a successful login. *)
Definition logged_in (ws : conn) (username : string) (σ : state) : state :=
  set_USERNAMES (λ names, {[username]} ∪ names) (set_USERS (<[ws := username]>) σ).

(** The log of [room] with [record] written at its end. *)
Definition appended (room : string) (record : json) (σ : state) : state :=
  set_files (λ fs, <[log_path_for room :=
                       default [] (fs !! log_path_for room) ++ [Parsed record]]> fs) σ.

(** A subscriber set once [ws] has left it: nothing when it is then empty. *)
Definition without_member (ws : conn) (subs : gset conn) : option (gset conn) :=
  if decide (ws ∈ subs) then
    if decide (subs ∖ {[ws]} = ∅) then None else Some (subs ∖ {[ws]})
  else Some subs.

(** The directory once [ws] has left every room. *)
Definition prune (ws : conn) (R : gmap string (gset conn)) : gmap string (gset conn) :=
  omap (without_member ws) R.

(** The order of the rooms that are left then. *)
Definition prune_order (ws : conn) (R : gmap string (gset conn)) (order : list string) :
    list string :=
  filter (λ room, is_Some (prune ws R !! room)) order.

(** The state [disconnect] leaves for a connection logged in as [username]. *)
Definition logged_out (ws : conn) (username : string) (σ : state) : state :=
  State (delete ws (USERS σ)) (USERNAMES σ ∖ {[username]}) (prune ws (ROOMS σ))
        (prune_order ws (ROOMS σ) (ROOM_ORDER σ)) (LOG_DIR σ).

(** The state [disconnect] leaves, logged in or not. *)
Definition cleaned (ws : conn) (σ : state) : state :=
  State (delete ws (USERS σ))
        (match USERS σ !! ws with
         | Some username => USERNAMES σ ∖ {[username]}
         | None => USERNAMES σ
         end)
        (prune ws (ROOMS σ)) (prune_order ws (ROOMS σ) (ROOM_ORDER σ)) (LOG_DIR σ).

(** The notices of a cleanup: for each room the connection was in, a leave
    notice and then the membership list, each to every remaining member. *)
Definition cleanup_events (ws : conn) (σ : state) : list event :=
  match USERS σ !! ws with
  | Some username =>
      concat ((λ room,
                 to_all (members (cleaned ws σ) room) (leave_notice username room) ++
                 to_all (members (cleaned ws σ) room)
                        (room_update room (user_list (cleaned ws σ) room)))
              <$> rooms_of ws σ)
  | None => []
  end.

(** ** Invariants *)

(** The order lists the rooms of the directory, each once: what a Python
    [dict] keeps of its keys. *)
Definition ordered (σ : state) : Prop :=
  NoDup (ROOM_ORDER σ) ∧ ∀ r, r ∈ ROOM_ORDER σ ↔ is_Some (ROOMS σ !! r).

(** The rooms whose entry the first loop of [disconnect] deletes. *)
Definition popped (ws : conn) (items : list (string * gset conn)) : list string :=
  (filter (λ item : string * gset conn, ws ∈ item.2 ∧ item.2 ∖ {[ws]} = ∅) items).*1.

Record consistent (σ : state) : Prop := Consistent {
  (* no two connections under one username *)
  names_unique : ∀ ws1 ws2 u,
    USERS σ !! ws1 = Some u → USERS σ !! ws2 = Some u → ws1 = ws2;
  (* the username set is the set of the usernames in use *)
  names_claimed : ∀ u, u ∈ USERNAMES σ ↔ ∃ ws, USERS σ !! ws = Some u;
  names_nonempty : ∀ ws u, USERS σ !! ws = Some u → Py.is_empty u = false;
  (* only logged-in connections are subscribed *)
  members_logged_in : ∀ r subs ws,
    ROOMS σ !! r = Some subs → ws ∈ subs → is_Some (USERS σ !! ws);
  no_empty_room : ∀ r subs, ROOMS σ !! r = Some subs → subs ≠ ∅;
  rooms_ordered : ordered σ;
}.

(** The connections of [gone] have no registry entry. *)
Definition released (gone : gset conn) (σ : state) : Prop :=
  ∀ ws, ws ∈ gone → USERS σ !! ws = None.

(** The invariant of a run: the state is consistent and the connections
    whose handler has returned hold no registry entry. *)
Definition safe (gone : gset conn) (σ : state) : Prop :=
  consistent σ ∧ released gone σ.

(** The same while [ws] is logged in. *)
Definition safe_with (gone : gset conn) (ws : conn) (σ : state) : Prop :=
  safe gone σ ∧ is_Some (USERS σ !! ws).

Definition server_ok (s : server) : Prop := safe (returned s) (mem s).

(** The server after a run from start-up. *)
Definition reached (d : disk) (arrivals : list arrival) : server :=
  (run (boot d) arrivals).1.

(** The invariant of a run together with a further property [I]. *)
Definition safe_and (gone : gset conn) (I : state → Prop) (σ : state) : Prop :=
  safe gone σ ∧ I σ.

(** A string as [strip] leaves it, and not empty. *)
Definition trimmed (x : string) : Prop := Py.strip x = x ∧ Py.is_empty x = false.

(** Usernames and room names are stored trimmed. *)
Definition tidy (σ : state) : Prop :=
  (∀ ws u, USERS σ !! ws = Some u → trimmed u) ∧
  (∀ room subs, ROOMS σ !! room = Some subs → trimmed room).



(** ** Leaving the handler *)

(** How the body of the loop ended, for the handler of [ws]: it goes on
    ([None]), or it leaves, with the exception to print if there is one. *)
Definition leaves (ws : conn) (a : arrival) (σ : state) : option (option exn) :=
  match a with
  | Closed _ => Some None
  | Message _ raw now =>
      match result (handler_body ws raw now σ) with
      | inl Continue => None
      | inl Break => Some None
      | inr e => Some (Some e)
      end
  end.

(** The state and the events of the body, before the handler leaves. *)
Definition before_exit (ws : conn) (a : arrival) (σ : state) : state * list event :=
  match a with
  | Closed _ => (σ, [])
  | Message _ raw now =>
      (final (handler_body ws raw now σ), sent (handler_body ws raw now σ))
  end.

(** The three ways out of the handler of [ws], each with the exception it
    prints, if any: a logout from a logged-in connection, an exception of the
    loop body, and the end of the stream. *)
Inductive exit_path (ws : conn) (σ : state) : arrival → option exn → Prop :=
| exit_logout data now :
    is_Some (USERS σ !! ws) → get "action" data = JStr "logout" →
    exit_path ws σ (Message ws (Decoded (JDict data)) now) None
| exit_error raw now e :
    result (handler_body ws raw now σ) = inr e →
    exit_path ws σ (Message ws raw now) (Some e)
| exit_closed : exit_path ws σ (Closed ws) None.

(** ** A publish to any room *)


(** ** Sample requests and states *)

Definition request (action : string) (fields : dict) : incoming :=
  Decoded (JDict (("action", JStr action) :: fields)).

Definition login_as (username : string) : incoming :=
  request "login" [("username", JStr username)].
Definition subscribe_to (rooms : list string) : incoming :=
  request "subscribe" [("rooms", strs rooms)].
Definition unsubscribe_from (rooms : list string) : incoming :=
  request "unsubscribe" [("rooms", strs rooms)].
Definition publish_to (room message : string) : incoming :=
  request "publish" [("room", JStr room); ("message", JStr message)].

Definition publish_hi : dict :=
  [("action", JStr "publish"); ("room", JStr "general"); ("message", JStr "hi")].

Definition empty_disk : disk := Disk ∅ ∅ ∅ ∅.

(** A log directory in which general.txt cannot be opened for append. *)
Definition broken_disk : disk := Disk ∅ {["general.txt"]} ∅ ∅.

(** Alice, connection 1, has logged in. *)
Definition alice_online : server :=
  reached empty_disk [Message 1 (login_as "alice") 0].

(** Alice has logged in, joined "general" and published one message. *)
Definition alice_in_general : server :=
  reached empty_disk
    [Message 1 (login_as "alice") 0;
     Message 1 (subscribe_to ["general"]) 0;
     Message 1 (publish_to "general" "hi") 1700].

(** Alice (1) and Bob (2) are both in "general". *)
Definition pair_arrivals : list arrival :=
  [Message 1 (login_as "alice") 0;
   Message 1 (subscribe_to ["general"]) 0;
   Message 2 (login_as "bob") 0;
   Message 2 (subscribe_to ["general"]) 0].

(** The same over the directory that cannot be written. *)
Definition pair_on_broken_disk : server := reached broken_disk pair_arrivals.

(** A room name of 300 letters, and a log directory on a file system that
    takes no file name of more than 255 bytes. *)
Definition long_room : string := string_of_list_ascii (replicate 300 "a"%char).
Definition short_names_disk : disk := Disk ∅ ∅ ∅ {[log_path_for long_room]}.

(** Alice (1) and Bob (2) are both in "sports" and in "general"; "sports"
    was created first. *)
Definition two_rooms_arrivals : list arrival :=
  [Message 1 (login_as "alice") 0;
   Message 1 (subscribe_to ["sports"; "general"]) 0;
   Message 2 (login_as "bob") 0;
   Message 2 (subscribe_to ["general"; "sports"]) 0].

(** A record published by Bob to the room "a b". *)
Definition other_room_record : json := message_record "a b" (JStr "bob") "psst" 1700.

(** The arrivals of one connection: its messages, then the end of its
    stream. *)
Definition arrivals_of (ws : conn) (msgs : list (incoming * Z)) : list arrival :=
  ((λ m : incoming * Z, Message ws m.1 m.2) <$> msgs) ++ [Closed ws].

(** * Properties *)

Arguments disconnect : simpl never.
Arguments handler_exit : simpl never.
Arguments handler_body : simpl never.

(** ** Running computations *)

Section Running.
Context {A B : Type}.
Implicit Types (c : M A) (k : A → M B) (σ : state).

Lemma run_bind_ret (a : A) k σ : bind (ret a) k σ = k a σ.
Proof. unfold bind, ret; simpl. by destruct (k a σ). Qed.

Lemma run_bind_read (k : state → M B) σ : bind read k σ = k σ σ.
Proof. unfold bind, read; simpl. by destruct (k σ σ). Qed.

Lemma run_bind_update f (k : unit → M B) σ : bind (update f) k σ = k tt (f σ).
Proof. unfold bind, update; simpl. by destruct (k tt (f σ)). Qed.

Lemma run_bind_raise e k σ : bind (raise e) k σ = Outcome (inr e) σ [].
Proof. done. Qed.

Lemma result_bind c k σ :
  result (bind c k σ) =
    match result (c σ) with
    | inl a => result (k a (final (c σ)))
    | inr e => inr e
    end.
Proof. unfold bind. by destruct (result (c σ)). Qed.

Lemma final_bind c k σ :
  final (bind c k σ) =
    match result (c σ) with
    | inl a => final (k a (final (c σ)))
    | inr e => final (c σ)
    end.
Proof. unfold bind. by destruct (result (c σ)). Qed.

Lemma sent_bind c k σ :
  sent (bind c k σ) =
    match result (c σ) with
    | inl a => sent (c σ) ++ sent (k a (final (c σ)))
    | inr e => sent (c σ)
    end.
Proof. unfold bind. by destruct (result (c σ)). Qed.
End Running.

Lemma quiet_ret {A} (a : A) : quiet (ret a).
Proof. intros σ. split; [done | by exists a]. Qed.

Lemma quiet_emit es : quiet (emit es).
Proof. intros σ. split; [done | by exists tt]. Qed.

Lemma quiet_read : quiet read.
Proof. intros σ. split; [done | by exists σ]. Qed.

Lemma quiet_bind {A B} (c : M A) (k : A → M B) :
  quiet c → (∀ a, quiet (k a)) → quiet (bind c k).
Proof.
  intros Hc Hk σ. destruct (Hc σ) as [Hf [a Ha]].
  rewrite final_bind, result_bind, Ha, Hf. apply Hk.
Qed.

Lemma quiet_broadcast room payload except_ws : quiet (broadcast room payload except_ws).
Proof.
  unfold broadcast. apply quiet_bind; [apply quiet_read | intros σ].
  case_decide; [apply quiet_ret | apply quiet_emit].
Qed.

Lemma quiet_send ws payload : quiet (send ws payload).
Proof. apply quiet_emit. Qed.

Lemma quiet_broadcast_room_update room : quiet (broadcast_room_update room).
Proof.
  unfold broadcast_room_update. apply quiet_bind; [apply quiet_read | intros σ].
  case_decide; [apply quiet_ret | apply quiet_broadcast].
Qed.

Lemma quiet_leave_and_update username room : quiet (leave_and_update username room).
Proof.
  unfold leave_and_update.
  apply quiet_bind; [apply quiet_broadcast | intros _; apply quiet_broadcast_room_update].
Qed.

(** Computations that may raise but leave the state alone. *)
Lemma steady_quiet {A} (c : M A) : quiet c → steady c.
Proof. intros Hq σ. apply Hq. Qed.

Lemma steady_raise {A} e : steady (@raise A e).
Proof. by intros σ. Qed.

Lemma steady_bind {A B} (c : M A) (k : A → M B) :
  steady c → (∀ a, steady (k a)) → steady (bind c k).
Proof.
  intros Hc Hk σ. rewrite final_bind.
  destruct (result (c σ)); [by rewrite Hk, Hc | apply Hc].
Qed.

Lemma steady_for_each {A} (l : list A) (body : A → M unit) :
  (∀ x, steady (body x)) → steady (for_each l body).
Proof.
  intros Hb. induction l as [| x l IH]; simpl; [by intros σ |].
  apply steady_bind; [apply Hb | intros _; apply IH].
Qed.

(** The loop of [tail_room_log] returns the records of the lines, unless
    [json.loads] refuses one of them. *)
Lemma load_lines_run ls out σ :
  load_lines ls out σ =
    match refused ls with
    | Some r => Outcome (inr (refusal_exn r)) σ []
    | None => Outcome (inl (out ++ parse_lines ls)) σ []
    end.
Proof.
  revert out. induction ls as [| [| | v | r] ls IH]; intros out; simpl; try apply IH.
  - by rewrite app_nil_r.
  - rewrite IH. destruct (refused ls); [done |]. by rewrite <- app_assoc.
  - done.
Qed.

Lemma steady_tail_room_log room n : steady (tail_room_log room n).
Proof.
  intros σ. unfold tail_room_log. rewrite run_bind_read.
  case_decide; [done |].
  destruct (files (LOG_DIR σ) !! log_path_for room); [| done].
  case_decide; [done |]. rewrite load_lines_run. by destruct (refused _).
Qed.

Lemma steady_replay ws room : steady (replay ws room).
Proof.
  unfold replay. apply steady_bind; [apply steady_tail_room_log | intros history].
  apply steady_quiet. apply quiet_bind; [| intros _; apply quiet_broadcast_room_update].
  destruct history; [apply quiet_ret | apply quiet_send].
Qed.

Lemma quiet_for_each {A} (l : list A) (body : A → M unit) :
  (∀ x, quiet (body x)) → quiet (for_each l body).
Proof.
  intros Hb. induction l as [| x l IH]; simpl; [apply quiet_ret |].
  apply quiet_bind; [apply Hb | intros _; apply IH].
Qed.

Lemma quiet_final {A} (c : M A) σ : quiet c → final (c σ) = σ.
Proof. intros H. apply H. Qed.

(** What a loop of quiet bodies sends, in a state [σ]. *)
Lemma sent_for_each {A} (l : list A) (body : A → M unit) σ :
  (∀ x, quiet (body x)) →
  sent (for_each l body σ) = concat ((λ x, sent (body x σ)) <$> l).
Proof.
  intros Hb. induction l as [| x l IH]; simpl; [done |].
  rewrite sent_bind. destruct (Hb x σ) as [Hf [[] Ha]].
  rewrite Ha, Hf, IH. done.
Qed.

(** ** Invariant preservation *)

Lemma preserves_quiet {A} I (c : M A) : quiet c → preserves I c.
Proof. intros Hq σ HI. by rewrite (quiet_final c σ Hq). Qed.

Lemma preserves_steady {A} I (c : M A) : steady c → preserves I c.
Proof. intros Hs σ HI. by rewrite Hs. Qed.

Lemma preserves_ret {A} I (a : A) : preserves I (ret a).
Proof. by intros σ. Qed.

Lemma preserves_raise {A} I e : preserves I (@raise A e).
Proof. by intros σ. Qed.

Lemma preserves_update I f : (∀ σ, I σ → I (f σ)) → preserves I (update f).
Proof. intros H σ. apply H. Qed.

Lemma preserves_bind {A B} I (c : M A) (k : A → M B) :
  preserves I c → (∀ a, preserves I (k a)) → preserves I (bind c k).
Proof.
  intros Hc Hk σ HI. rewrite final_bind.
  destruct (result (c σ)); [apply Hk |]; by apply Hc.
Qed.

(** A continuation of [read] is run in the state that was read. *)
Lemma preserves_read_bind {B} (I : state → Prop) (k : state → M B) :
  (∀ σ, I σ → I (final (k σ σ))) → preserves I (bind read k).
Proof. intros H σ HI. rewrite run_bind_read. by apply H. Qed.

Create HintDb quiet discriminated.
#[global] Hint Resolve quiet_ret quiet_emit quiet_read quiet_send quiet_broadcast
  quiet_broadcast_room_update quiet_leave_and_update : quiet.

(** ** Removing a member *)

Lemma remove_member_run ws room subs σ :
  remove_member ws room subs σ =
    Outcome (inl tt)
      (if decide (subs ∖ {[ws]} = ∅) then ROOMS_pop room σ
       else ROOMS_discard room ws subs σ) [].
Proof.
  unfold remove_member. rewrite run_bind_update.
  case_decide; [| done].
  unfold update, ROOMS_pop, ROOMS_discard; simpl. by rewrite delete_insert_eq.
Qed.

Lemma remove_member_result ws room subs σ :
  result (remove_member ws room subs σ) = inl tt.
Proof. by rewrite remove_member_run. Qed.

Lemma remove_member_lookup ws room subs σ r :
  ws ∈ subs →
  ROOMS (final (remove_member ws room subs σ)) !! r =
    if decide (r = room) then without_member ws subs else ROOMS σ !! r.
Proof.
  intros Hin. rewrite remove_member_run; simpl. unfold without_member.
  rewrite (decide_True _ _ Hin).
  destruct (decide (subs ∖ {[ws]} = ∅)), (decide (r = room)); simpl;
    simplify_map_eq; done.
Qed.

(** The first loop of [disconnect] neither sends nor raises. *)
Lemma leave_rooms_result ws items acc σ :
  result (leave_rooms ws items acc σ) =
    inl (acc ++ (filter (λ item, ws ∈ item.2) items).*1) ∧
  sent (leave_rooms ws items acc σ) = [].
Proof.
  revert acc σ. induction items as [| [room subs] items IH]; intros acc σ; simpl.
  - by rewrite app_nil_r.
  - rewrite filter_cons; simpl. case_decide.
    + rewrite result_bind, sent_bind, remove_member_run; simpl.
      destruct (IH (acc ++ [room]) (final (remove_member ws room subs σ))) as [Hr Hs].
      rewrite remove_member_run in Hr, Hs; simpl in Hr, Hs.
      rewrite Hr, Hs. by rewrite <- app_assoc.
    + apply IH.
Qed.

Lemma leave_rooms_lookup ws items acc σ r :
  NoDup items.*1 →
  ROOMS (final (leave_rooms ws items acc σ)) !! r =
    match (list_to_map items : gmap string (gset conn)) !! r with
    | Some subs => if decide (ws ∈ subs) then without_member ws subs else ROOMS σ !! r
    | None => ROOMS σ !! r
    end.
Proof.
  revert acc σ. induction items as [| [room subs] items IH]; intros acc σ Hnd; simpl.
  - by rewrite lookup_empty.
  - apply NoDup_cons in Hnd as [Hfresh Hnd].
    assert ((list_to_map items : gmap string (gset conn)) !! room = None) as Hnone
      by by apply not_elem_of_list_to_map_1.
    case_decide as Hin.
    + rewrite final_bind, remove_member_result.
      rewrite IH, remove_member_lookup by done.
      destruct (decide (r = room)) as [-> |].
      * rewrite Hnone, lookup_insert_eq. by rewrite (decide_True _ _ Hin).
      * by rewrite lookup_insert_ne.
    + rewrite IH by done.
      destruct (decide (r = room)) as [-> |].
      * rewrite Hnone, lookup_insert_eq. by rewrite (decide_False _ _ Hin).
      * by rewrite lookup_insert_ne.
Qed.

Lemma leave_rooms_frame ws items acc σ :
  USERS (final (leave_rooms ws items acc σ)) = USERS σ ∧
  USERNAMES (final (leave_rooms ws items acc σ)) = USERNAMES σ ∧
  LOG_DIR (final (leave_rooms ws items acc σ)) = LOG_DIR σ.
Proof.
  revert acc σ. induction items as [| [room subs] items IH]; intros acc σ; simpl; [done |].
  case_decide; [| apply IH].
  rewrite final_bind, remove_member_run; simpl.
  destruct (IH (acc ++ [room]) (final (remove_member ws room subs σ))) as (H1 & H2 & H3).
  rewrite remove_member_run in H1, H2, H3. cbn [final] in H1, H2, H3.
  by destruct (decide (subs ∖ {[ws]} = ∅)).
Qed.

Lemma state_eq σ τ :
  USERS σ = USERS τ → USERNAMES σ = USERNAMES τ → ROOMS σ = ROOMS τ →
  ROOM_ORDER σ = ROOM_ORDER τ → LOG_DIR σ = LOG_DIR τ → σ = τ.
Proof. destruct σ, τ; simpl; congruence. Qed.

Lemma filter_ext_in {A} (P Q : A → Prop) `{∀ x, Decision (P x)} `{∀ x, Decision (Q x)}
    (l : list A) :
  (∀ x, x ∈ l → P x ↔ Q x) → filter P l = filter Q l.
Proof.
  induction l as [| x l IH]; intros Hext; [done |].
  rewrite !filter_cons.
  rewrite IH by (intros y Hy; apply Hext; by right).
  destruct (decide (P x)) as [HP | HP], (decide (Q x)) as [HQ | HQ]; try done;
    exfalso; apply (Hext x (list_elem_of_here _ _)) in HP || apply (Hext x (list_elem_of_here _ _)) in HQ;
    done.
Qed.

Lemma filter_all {A} (P : A → Prop) `{∀ x, Decision (P x)} (l : list A) :
  (∀ x, P x) → filter P l = l.
Proof.
  intros HP. induction l as [| x l IH]; [done |].
  by rewrite filter_cons, decide_True, IH.
Qed.

Lemma filter_ext_all {A} (P : A → Prop) `{∀ x, Decision (P x)} (l : list A) :
  (∀ x, x ∈ l → P x) → filter P l = l.
Proof.
  intros HP. induction l as [| x l IH]; [done |].
  rewrite filter_cons, decide_True by (apply HP; by left).
  f_equal. apply IH. intros y Hy. apply HP. by right.
Qed.

(** The order the first loop of [disconnect] leaves: the rooms it deleted
    are gone, the others are where they were. *)
Lemma leave_rooms_order ws items acc σ :
  ROOM_ORDER (final (leave_rooms ws items acc σ)) =
    filter (λ r, r ∉ popped ws items) (ROOM_ORDER σ).
Proof.
  revert acc σ. induction items as [| [room subs] items IH]; intros acc σ.
  - cbn [leave_rooms ret final]. symmetry. apply filter_all.
    intros r. unfold popped. by intros ?%elem_of_nil.
  - cbn [leave_rooms]. unfold popped. rewrite filter_cons. cbn [snd].
    fold (popped ws items). case_decide as Hin.
    + rewrite final_bind, remove_member_result, IH, remove_member_run. cbn [final].
      case_decide as Hempty.
      * rewrite decide_True by done. cbn [ROOMS_pop ROOM_ORDER fmap list_fmap fst].
        rewrite list_filter_filter. apply list_filter_iff. intros r.
        rewrite not_elem_of_cons. tauto.
      * rewrite decide_False by tauto. done.
    + rewrite decide_False by tauto. apply IH.
Qed.

Lemma ROOMS_items_keys σ :
  (ROOMS_items σ).*1 = filter (λ r, is_Some (ROOMS σ !! r)) (ROOM_ORDER σ).
Proof.
  unfold ROOMS_items. induction (ROOM_ORDER σ) as [| r l IH]; [done |].
  rewrite filter_cons. cbn [omap list_omap].
  destruct (ROOMS σ !! r) as [subs |]; simpl; [f_equal |]; exact IH.
Qed.

Lemma elem_of_ROOMS_items σ r subs :
  (r, subs) ∈ ROOMS_items σ ↔ r ∈ ROOM_ORDER σ ∧ ROOMS σ !! r = Some subs.
Proof.
  unfold ROOMS_items. rewrite list_elem_of_omap. split.
  - intros (r' & Hin & Hsome). destruct (ROOMS σ !! r') as [subs' |] eqn:E; [| done].
    simpl in Hsome. by injection Hsome as -> ->.
  - intros [Hin Hroom]. exists r. by rewrite Hroom.
Qed.

Lemma NoDup_ROOMS_items σ : NoDup (ROOM_ORDER σ) → NoDup (ROOMS_items σ).*1.
Proof. intros Hnd. rewrite ROOMS_items_keys. by apply NoDup_filter. Qed.

Lemma ROOMS_items_lookup σ r :
  ordered σ → (list_to_map (ROOMS_items σ) : gmap string (gset conn)) !! r = ROOMS σ !! r.
Proof.
  intros [Hnd Hkeys]. apply option_eq. intros subs.
  rewrite <- elem_of_list_to_map by by apply NoDup_ROOMS_items.
  rewrite elem_of_ROOMS_items, Hkeys. split; [by intros [_ ?] |].
  intros Hr. by rewrite Hr.
Qed.

Lemma rooms_of_items ws σ :
  (filter (λ item : string * gset conn, ws ∈ item.2) (ROOMS_items σ)).*1 = rooms_of ws σ.
Proof.
  unfold rooms_of, ROOMS_items, members.
  induction (ROOM_ORDER σ) as [| r l IH]; [done |].
  rewrite (filter_cons _ r). cbn [omap list_omap].
  destruct (ROOMS σ !! r) as [subs |]; cbn [fmap option_fmap option_map default id].
  - rewrite filter_cons. cbn [snd].
    destruct (decide (ws ∈ subs)) as [Hin | Hin]; [| exact IH].
    rewrite fmap_cons. cbn [fst]. f_equal. exact IH.
  - rewrite decide_False by set_solver. exact IH.
Qed.

Lemma leave_rooms_final ws σ :
  ordered σ →
  final (leave_rooms ws (ROOMS_items σ) [] σ) =
    State (USERS σ) (USERNAMES σ) (prune ws (ROOMS σ))
          (prune_order ws (ROOMS σ) (ROOM_ORDER σ)) (LOG_DIR σ).
Proof.
  intros Hord.
  destruct (leave_rooms_frame ws (ROOMS_items σ) [] σ) as (H1 & H2 & H3).
  apply state_eq; try done; simpl.
  - apply map_eq. intros r.
    rewrite leave_rooms_lookup by (apply NoDup_ROOMS_items, Hord).
    rewrite ROOMS_items_lookup by done. unfold prune. rewrite lookup_omap.
    destruct (ROOMS σ !! r) as [subs |] eqn:E; simpl; [| done].
    unfold without_member. by case_decide.
  - rewrite leave_rooms_order. unfold prune_order. apply filter_ext_in.
    intros r Hr. destruct Hord as [_ Hkeys]. apply Hkeys in Hr as [subs Hsubs].
    unfold popped, prune. rewrite lookup_omap, Hsubs. simpl.
    rewrite list_elem_of_fmap. split.
    + intros Hnot. unfold without_member.
      destruct (decide (ws ∈ subs)) as [Hin |]; [| done].
      destruct (decide (subs ∖ {[ws]} = ∅)) as [Hempty |]; [| done].
      exfalso. apply Hnot. exists (r, subs). split; [done |].
      apply list_elem_of_filter. split; [done |].
      apply elem_of_ROOMS_items. split; [by apply Hkeys; rewrite Hsubs | done].
    + intros Hsome ([r' subs'] & -> & [[Hin Hempty] Hitem]%list_elem_of_filter).
      apply elem_of_ROOMS_items in Hitem as [_ Hitem]. simpl in *.
      rewrite Hsubs in Hitem. injection Hitem as <-.
      unfold without_member in Hsome.
      rewrite decide_True, decide_True in Hsome by done. by destruct Hsome.
Qed.

(** ** What [disconnect] does *)

Lemma outcome_eta {A} (o : outcome A) : o = Outcome (result o) (final o) (sent o).
Proof. by destruct o. Qed.

Lemma run_bind_silent {A B} (c : M A) (k : A → M B) σ a :
  result (c σ) = inl a → sent (c σ) = [] → bind c k σ = k a (final (c σ)).
Proof.
  intros Hr Hs. unfold bind. rewrite Hr, Hs; simpl.
  by destruct (k a (final (c σ))).
Qed.

Lemma quiet_run {A} (c : M A) σ :
  quiet c → ∃ a, c σ = Outcome (inl a) σ (sent (c σ)).
Proof.
  intros Hq. destruct (Hq σ) as [Hf [a Ha]]. exists a.
  rewrite (outcome_eta (c σ)) at 1. by rewrite Ha, Hf.
Qed.

Lemma disconnect_anonymous ws σ :
  USERS σ !! ws = None → disconnect ws σ = Outcome (inl tt) σ [].
Proof.
  intros Hnone. unfold disconnect.
  rewrite run_bind_read, run_bind_update, Hnone. unfold ret.
  f_equal. apply state_eq; try done; simpl. by apply delete_id.
Qed.

Lemma disconnect_logged_in ws username σ :
  ordered σ →
  USERS σ !! ws = Some username → Py.is_empty username = false →
  disconnect ws σ =
    Outcome (inl tt) (logged_out ws username σ)
      (concat (notices username (logged_out ws username σ) <$> rooms_of ws σ)).
Proof.
  intros Hord Hu Hne. unfold disconnect.
  rewrite run_bind_read, run_bind_update, Hu, Hne.
  set (σ1 := set_USERS (delete ws) σ).
  assert (∀ k : unit → M unit,
    bind (if decide (username ∈ USERNAMES σ)
          then update (set_USERNAMES (λ names, names ∖ {[username]})) else ret tt) k σ1
    = k tt (set_USERNAMES (λ names, names ∖ {[username]}) σ1)) as ->.
  { intros k. destruct (decide (username ∈ USERNAMES σ)) as [Hin | Hin].
    - by rewrite run_bind_update.
    - rewrite run_bind_ret. f_equal.
      apply state_eq; try done; simpl.
      symmetry. by apply difference_disjoint_L, disjoint_singleton_r. }
  set (σ2 := set_USERNAMES _ σ1).
  change (ROOMS_items σ) with (ROOMS_items σ2).
  destruct (leave_rooms_result ws (ROOMS_items σ2) [] σ2) as [Hr Hs].
  rewrite (run_bind_silent _ _ _ _ Hr Hs), leave_rooms_final by done; simpl.
  rewrite rooms_of_items.
  change (rooms_of ws σ2) with (rooms_of ws σ).
  change (State (delete ws (USERS σ)) (USERNAMES σ ∖ {[username]}) (prune ws (ROOMS σ))
            (prune_order ws (ROOMS σ) (ROOM_ORDER σ)) (LOG_DIR σ))
    with (logged_out ws username σ).
  pose proof (quiet_for_each (rooms_of ws σ) (leave_and_update username)
                (quiet_leave_and_update username)) as Hq.
  destruct (quiet_run _ (logged_out ws username σ) Hq) as [[] ->].
  f_equal. apply sent_for_each, quiet_leave_and_update.
Qed.

(** Whatever the state, [disconnect] returns and takes the registry entry
    away. *)
Lemma disconnect_frame ws σ :
  result (disconnect ws σ) = inl tt ∧
  USERS (final (disconnect ws σ)) = delete ws (USERS σ) ∧
  LOG_DIR (final (disconnect ws σ)) = LOG_DIR σ.
Proof.
  unfold disconnect. rewrite run_bind_read, run_bind_update.
  destruct (USERS σ !! ws) as [username |]; [| done].
  destruct (Py.is_empty username); [done |].
  set (σ1 := set_USERS (delete ws) σ).
  set (names := if decide (username ∈ USERNAMES σ)
                then update (set_USERNAMES (λ names, names ∖ {[username]})) else ret tt).
  assert (∃ σ2, names σ1 = Outcome (inl tt) σ2 [] ∧ USERS σ2 = delete ws (USERS σ) ∧
                LOG_DIR σ2 = LOG_DIR σ) as (σ2 & Hnames & HU & HL).
  { subst names. case_decide; eexists; (split; [reflexivity | done]). }
  rewrite (run_bind_silent _ _ σ1 tt) by by rewrite Hnames.
  rewrite Hnames. cbn [final].
  destruct (leave_rooms_result ws (ROOMS_items σ) [] σ2) as [Hr Hs].
  destruct (leave_rooms_frame ws (ROOMS_items σ) [] σ2) as (HU' & _ & HL').
  rewrite (run_bind_silent _ _ _ _ Hr Hs).
  set (rooms_left := [] ++ _).
  pose proof (quiet_for_each rooms_left (leave_and_update username)
                (quiet_leave_and_update username)) as Hq.
  destruct (Hq (final (leave_rooms ws (ROOMS_items σ) [] σ2))) as [-> [[] ->]].
  by rewrite HU', HL', HU, HL.
Qed.

(** A second [disconnect] finds nothing to do. *)
Lemma disconnect_twice ws σ :
  disconnect ws (final (disconnect ws σ)) =
    Outcome (inl tt) (final (disconnect ws σ)) [].
Proof.
  apply disconnect_anonymous.
  destruct (disconnect_frame ws σ) as (_ & -> & _). apply lookup_delete_eq.
Qed.

(** ** Consistency of the in-memory state *)

(** The order of the rooms follows the directory. *)
Lemma ordered_ROOMS_add room ws σ : ordered σ → ordered (ROOMS_add room ws σ).
Proof.
  intros [Hnd Hkeys]. unfold ordered, ROOMS_add; simpl.
  destruct (decide (is_Some (ROOMS σ !! room))) as [Hold | Hnew].
  - split; [done |]. intros r. rewrite lookup_insert_is_Some, Hkeys.
    split; [| intros [<- | [_ ?]]; done].
    intros Hr. destruct (decide (room = r)); [by left | by right].
  - split.
    + apply NoDup_app. split; [done |]. split; [| apply NoDup_singleton].
      intros r Hr ->%list_elem_of_singleton. by apply Hnew, Hkeys.
    + intros r. rewrite elem_of_app, list_elem_of_singleton, lookup_insert_is_Some, Hkeys.
      destruct (decide (room = r)) as [-> |]; [tauto |]. split; [| tauto].
      intros [? | ->]; [tauto | done].
Qed.

Lemma ordered_remove_member ws room subs σ :
  ordered σ → ROOMS σ !! room = Some subs →
  ordered (final (remove_member ws room subs σ)).
Proof.
  intros [Hnd Hkeys] Hroom. rewrite remove_member_run. cbn [final].
  unfold ordered. case_decide; simpl.
  - split; [by apply NoDup_filter |]. intros r.
    rewrite list_elem_of_filter, Hkeys, lookup_delete_is_Some. naive_solver.
  - split; [done |]. intros r. rewrite lookup_insert_is_Some, Hkeys.
    destruct (decide (room = r)) as [<- |]; [| tauto].
    split; [tauto |]. intros _. by rewrite Hroom.
Qed.

Lemma ordered_logged_out ws username σ : ordered σ → ordered (logged_out ws username σ).
Proof.
  intros [Hnd Hkeys]. unfold ordered, logged_out, prune_order; simpl.
  split; [by apply NoDup_filter |]. intros r.
  rewrite list_elem_of_filter, Hkeys. split; [by intros [? _] |].
  intros Hsome. split; [done |].
  destruct Hsome as [subs' Hsome]. unfold prune in Hsome. rewrite lookup_omap in Hsome.
  by destruct (ROOMS σ !! r).
Qed.

Lemma consistent_initial d : consistent (initial d).
Proof.
  split; simpl; try (intros; simplify_map_eq; done).
  - intros u. split; [set_solver |]. intros [ws Hws]. by simplify_map_eq.
  - split; [constructor |]. intros r; simpl. rewrite lookup_empty.
    split; [by intros ?%elem_of_nil | by intros []].
Qed.

Lemma consistent_set_files f σ : consistent σ → consistent (set_files f σ).
Proof. intros []. by split. Qed.

Lemma consistent_subscribe ws room σ :
  consistent σ → is_Some (USERS σ !! ws) →
  consistent (ROOMS_add room ws σ).
Proof.
  intros [H1 H2 H3 H4 H5 H6] Hws. split; try by apply ordered_ROOMS_add.
  all: simpl; try done.
  - intros r subs x Hr Hx. destruct (decide (r = room)) as [-> |].
    + rewrite lookup_insert_eq in Hr. injection Hr as <-.
      apply elem_of_union in Hx as [Hx | Hx].
      * apply elem_of_singleton in Hx. by subst.
      * destruct (ROOMS σ !! room) as [old |] eqn:E; simpl in Hx; [eauto | set_solver].
    + rewrite lookup_insert_ne in Hr by done. eauto.
  - intros r subs Hr. destruct (decide (r = room)) as [-> |].
    + rewrite lookup_insert_eq in Hr. injection Hr as <-. set_solver.
    + rewrite lookup_insert_ne in Hr by done. eauto.
Qed.

Lemma consistent_remove_member ws room subs σ :
  consistent σ → ROOMS σ !! room = Some subs →
  consistent (final (remove_member ws room subs σ)).
Proof.
  intros [H1 H2 H3 H4 H5 H6] Hroom.
  pose proof (ordered_remove_member ws room subs σ H6 Hroom) as Hord.
  rewrite remove_member_run in Hord |- *. cbn [final] in Hord |- *.
  split; try done.
  - by case_decide.
  - by case_decide.
  - by case_decide.
  - intros r subs' x Hr Hx. case_decide; simpl in Hr |- *.
    + apply lookup_delete_Some in Hr as [? Hr]. eauto.
    + destruct (decide (r = room)) as [-> |].
      * rewrite lookup_insert_eq in Hr. injection Hr as <-.
        apply elem_of_difference in Hx as [Hx _]. eauto.
      * rewrite lookup_insert_ne in Hr by done. eauto.
  - intros r subs' Hr. case_decide; simpl in Hr.
    + apply lookup_delete_Some in Hr as [? Hr]. eauto.
    + destruct (decide (r = room)) as [-> |].
      * rewrite lookup_insert_eq in Hr. by injection Hr as <-.
      * rewrite lookup_insert_ne in Hr by done. eauto.
Qed.

Lemma consistent_logged_in ws username σ :
  consistent σ → USERS σ !! ws = None → username ∉ USERNAMES σ →
  Py.is_empty username = false →
  consistent (logged_in ws username σ).
Proof.
  intros [H1 H2 H3 H4 H5 H6] Hws Hfree Hne.
  assert (∀ x, USERS σ !! x ≠ Some username) as Hnobody.
  { intros x Hx. apply Hfree, H2. eauto. }
  split; simpl; try done.
  - intros ws1 ws2 u Hu1 Hu2.
    apply lookup_insert_Some in Hu1 as [[<- <-] | [? Hu1]];
      apply lookup_insert_Some in Hu2 as [[<- Hu2] | [? Hu2]]; try done.
    + by destruct (Hnobody ws2).
    + subst u. by destruct (Hnobody ws1).
    + eauto.
  - intros u. rewrite elem_of_union, elem_of_singleton, H2. split.
    + intros [-> | [x Hx]].
      * exists ws. apply lookup_insert_eq.
      * exists x. rewrite lookup_insert_ne; [done |]. intros <-. congruence.
    + intros [x Hx]. apply lookup_insert_Some in Hx as [[_ <-] | [_ Hx]]; eauto.
  - intros x u Hx. apply lookup_insert_Some in Hx as [[_ <-] | [_ Hx]]; eauto.
  - intros r subs x Hr Hx. destruct (decide (x = ws)) as [-> |].
    + rewrite lookup_insert_eq. eauto.
    + rewrite lookup_insert_ne by done. eauto.
Qed.

Lemma prune_lookup_Some ws R r subs' :
  prune ws R !! r = Some subs' →
  ∃ subs, R !! r = Some subs ∧ subs' = subs ∖ {[ws]} ∧ (ws ∈ subs → subs' ≠ ∅).
Proof.
  unfold prune. rewrite lookup_omap. destruct (R !! r) as [subs |]; simpl; [| done].
  unfold without_member. intros H. exists subs. split; [done |].
  destruct (decide (ws ∈ subs)) as [Hin | Hin].
  - case_decide; [done |]. by injection H as <-.
  - injection H as <-. split; [| done].
    symmetry. by apply difference_disjoint_L, disjoint_singleton_r.
Qed.

Lemma prune_not_member ws R r subs : prune ws R !! r = Some subs → ws ∉ subs.
Proof.
  intros (old & _ & -> & _)%prune_lookup_Some. set_solver.
Qed.

Lemma consistent_logged_out ws username σ :
  consistent σ → USERS σ !! ws = Some username →
  consistent (logged_out ws username σ).
Proof.
  intros [H1 H2 H3 H4 H5 H6] Hws. split; [| | | | | by apply ordered_logged_out]; simpl.
  - intros ws1 ws2 u [_ Hu1]%lookup_delete_Some [_ Hu2]%lookup_delete_Some. eauto.
  - intros u. rewrite elem_of_difference, elem_of_singleton, H2. split.
    + intros [[x Hx] Hne]. exists x. apply lookup_delete_Some. split; [| done].
      intros <-. congruence.
    + intros [x [Hne Hx]%lookup_delete_Some]. split; [eauto |].
      intros ->. apply Hne. eauto.
  - intros x u [_ Hx]%lookup_delete_Some. eauto.
  - intros r subs x Hr Hx.
    apply prune_lookup_Some in Hr as (old & Hold & -> & _).
    apply elem_of_difference in Hx as [Hx Hne].
    destruct (H4 r old x Hold Hx) as [u Hu]. exists u.
    apply lookup_delete_Some. split; [| done].
    intros <-. by apply Hne, elem_of_singleton.
  - intros r subs Hr.
    apply prune_lookup_Some in Hr as (old & Hold & -> & Hne).
    destruct (decide (ws ∈ old)) as [Hin | Hin]; [by apply Hne |].
    rewrite difference_disjoint_L by by apply disjoint_singleton_r. eauto.
Qed.

(** ** The handlers keep the state consistent *)

Lemma final_bind_quiet {B} (c : M unit) (k : unit → M B) σ :
  quiet c → final (bind c k σ) = final (k tt σ).
Proof.
  intros Hq. destruct (Hq σ) as [Hf [[] Ha]]. by rewrite final_bind, Ha, Hf.
Qed.

(** The outcome of [handle_login] on a string. *)
Lemma handle_login_run ws data s σ :
  get_or "username" (JStr "") data = JStr s →
  handle_login ws data σ =
    if Py.is_empty (Py.strip s) then
      Outcome (inl tt) σ [Send ws (error_for "login" "Username required")]
    else if decide (Py.strip s ∈ USERNAMES σ) then
      Outcome (inl tt) σ [Send ws (error_for "login" "Username taken")]
    else
      Outcome (inl tt) (logged_in ws (Py.strip s) σ)
        [Send ws (obj [("type", JStr "ok"); ("action", JStr "login")])].
Proof.
  intros Hget. unfold handle_login. rewrite Hget.
  destruct (Py.is_empty (Py.strip s)); [done |].
  unfold ensure_username_unique. unfold bind at 1. rewrite run_bind_read; simpl.
  destruct (decide (Py.strip s ∈ USERNAMES σ)) as [Hin | Hin].
  - by rewrite bool_decide_eq_false_2 by (by intros ?).
  - by rewrite bool_decide_eq_true_2.
Qed.

Lemma handle_login_other ws data σ :
  (∀ s, get_or "username" (JStr "") data ≠ JStr s) →
  handle_login ws data σ = Outcome (inr AttributeError) σ [].
Proof.
  intros Hget. unfold handle_login.
  destruct (get_or "username" (JStr "") data); try done. by destruct (Hget s).
Qed.

Section Preservation.
Context (gone : gset conn) (ws : conn) (Hlive : ws ∉ gone).

Lemma safe_set_files f σ : safe gone σ → safe gone (set_files f σ).
Proof. intros [Hc Hr]. split; [by apply consistent_set_files | done]. Qed.

Lemma safe_logged_in username σ :
  safe gone σ → USERS σ !! ws = None → username ∉ USERNAMES σ →
  Py.is_empty username = false → safe gone (logged_in ws username σ).
Proof.
  intros [Hc Hr] ???. split; [by apply consistent_logged_in |].
  intros x Hx; simpl. rewrite lookup_insert_ne; [by apply Hr |].
  intros <-. done.
Qed.

Lemma safe_handle_login data σ :
  safe gone σ → USERS σ !! ws = None → safe gone (final (handle_login ws data σ)).
Proof.
  intros Hs Hnone.
  destruct (get_or "username" (JStr "") data) as [| | | s | |] eqn:Hget;
    try (rewrite handle_login_other; [done | intros ?; congruence]).
  rewrite (handle_login_run _ _ s) by done.
  destruct (Py.is_empty (Py.strip s)) eqn:Hne; [done |].
  case_decide; [done |]. by apply safe_logged_in.
Qed.

Lemma preserves_subscribe_rooms username rooms acc :
  preserves (safe_with gone ws) (subscribe_rooms ws username rooms acc).
Proof.
  revert acc. induction rooms as [| room_str rooms IH]; intros acc; simpl.
  - apply preserves_ret.
  - destruct (Py.is_empty (Py.strip (str room_str))); [apply IH |].
    apply preserves_bind; [by apply preserves_quiet, quiet_read | intros σ0].
    apply preserves_bind.
    { apply preserves_update. intros σ [[Hc Hr] Hws].
      split; [split |]; try done. by apply consistent_subscribe. }
    intros _. apply preserves_bind; [| intros _; apply IH].
    apply preserves_quiet. destruct (bool_decide _); auto with quiet.
Qed.

Lemma preserves_handle_subscribe data : preserves (safe gone) (handle_subscribe ws data).
Proof.
  unfold handle_subscribe.
  destruct (or_else (get "rooms" data) (JList [])) as [| | | | [| room_str rest] |];
    try (apply preserves_quiet; solve [auto with quiet]).
  apply preserves_read_bind. intros σ Hs.
  destruct (USERS σ !! ws) as [username |] eqn:Hu; [| done].
  destruct (Py.is_empty username); [done |].
  assert (safe_with gone ws σ) as Hw by (split; [done | by rewrite Hu]).
  revert σ Hw Hs Hu.
  enough (preserves (safe_with gone ws)
    (newly <~ subscribe_rooms ws username (room_str :: rest) [];;
     (match newly with
      | [] => ret tt
      | _ => send ws (system_rooms "subscribed" (strs newly))
      end);;; for_each newly (replay ws))) as Hp.
  { intros σ Hw _ _. by apply Hp. }
  apply preserves_bind; [apply preserves_subscribe_rooms | intros newly].
  apply preserves_steady. apply steady_bind.
  - apply steady_quiet. destruct newly; auto with quiet.
  - intros _. apply steady_for_each. intros room. apply steady_replay.
Qed.

Lemma preserves_unsubscribe_rooms username rooms acc :
  preserves (safe gone) (unsubscribe_rooms ws username rooms acc).
Proof.
  revert acc. induction rooms as [| room rooms IH]; intros acc; simpl.
  - apply preserves_ret.
  - intros σ Hs.
    destruct room as [| b | z | r | l | d]; simpl;
      try (by apply IH); try done.
    destruct (ROOMS σ !! r) as [subs |] eqn:Hr; simpl.
    + case_decide as Hmem.
      * rewrite final_bind, remove_member_result.
        rewrite final_bind_quiet by apply quiet_leave_and_update.
        apply IH. destruct Hs as [Hc Hrel]. split.
        -- by apply consistent_remove_member.
        -- rewrite remove_member_run. cbn [final]. by case_decide.
      * by apply IH.
    + by apply IH.
Qed.

Lemma preserves_handle_unsubscribe data :
  preserves (safe gone) (handle_unsubscribe ws data).
Proof.
  unfold handle_unsubscribe. apply preserves_read_bind. intros σ Hs.
  destruct (USERS σ !! ws) as [username |]; [| done].
  destruct (Py.is_empty username); [done |].
  revert σ Hs. apply preserves_bind.
  - destruct (or_else (get "rooms" data) (JList []));
      (apply preserves_ret || apply preserves_raise).
  - intros rooms. apply preserves_bind; [apply preserves_unsubscribe_rooms |].
    intros done_rooms. apply preserves_quiet. destruct done_rooms; auto with quiet.
Qed.

Lemma preserves_append_room_log room record :
  preserves (safe gone) (append_room_log room record).
Proof.
  unfold append_room_log. apply preserves_read_bind. intros σ Hs.
  case_decide; [done |]. by apply safe_set_files.
Qed.

Lemma preserves_handle_publish data now :
  preserves (safe gone) (handle_publish ws data now).
Proof.
  unfold handle_publish. apply preserves_read_bind. intros σ Hs.
  destruct (_ || _); [done |].
  enough (∀ room record,
    preserves (safe gone) (append_room_log room record ;;; broadcast room record None))
    as Hp by by apply Hp.
  intros room record. apply preserves_bind; [apply preserves_append_room_log |].
  intros _. apply preserves_quiet. auto with quiet.
Qed.

Lemma disconnect_USERS σ : USERS (final (disconnect ws σ)) = delete ws (USERS σ).
Proof. apply disconnect_frame. Qed.

Lemma preserves_disconnect : preserves (safe gone) (disconnect ws).
Proof.
  intros σ [Hc Hr].
  destruct (USERS σ !! ws) as [username |] eqn:Hu.
  - rewrite (disconnect_logged_in ws username σ (rooms_ordered _ Hc) Hu
               (names_nonempty _ Hc _ _ Hu)).
    split; [by apply consistent_logged_out |].
    intros x Hx; simpl. apply lookup_delete_None. right. by apply Hr.
  - by rewrite disconnect_anonymous.
Qed.

Lemma preserves_handler_exit raised : preserves (safe gone) (handler_exit ws raised).
Proof.
  unfold handler_exit. apply preserves_bind; [| intros _; apply preserves_disconnect].
  apply preserves_quiet. destruct raised; auto with quiet.
Qed.

Lemma preserves_handler_body raw now : preserves (safe gone) (handler_body ws raw now).
Proof.
  assert (∀ c : M unit, preserves (safe gone) c →
          preserves (safe gone) (c ;;; ret Continue)) as Hthen.
  { intros c Hc. apply preserves_bind; [done | intros _; apply preserves_ret]. }
  unfold handler_body.
  destruct raw as [| | r | [| | | | | data]];
    try (apply Hthen, preserves_quiet; solve [auto with quiet]);
    try apply preserves_raise.
  apply preserves_read_bind. intros σ Hs.
  destruct (negb _ && _) eqn:Hgate; [done |].
  destruct (is_action _ "login") eqn:Hlogin.
  { simpl in Hgate. rewrite final_bind.
    case_bool_decide as Hnone.
    - pose proof (safe_handle_login data σ Hs Hnone) as Hl.
      by destruct (result (handle_login ws data σ)).
    - done. }
  revert σ Hs Hgate.
  repeat (match goal with
          | |- context [if is_action ?a ?n then _ else _] => destruct (is_action a n)
          end;
          [intros σ Hs _; revert σ Hs;
           first [apply Hthen; first [apply preserves_handle_subscribe
                                     | apply preserves_handle_unsubscribe
                                     | apply preserves_handle_publish]
                 | apply preserves_ret] |]).
  intros σ Hs _. revert σ Hs. apply Hthen, preserves_quiet. auto with quiet.
Qed.

End Preservation.

(** ** Leaving the handler *)

Lemma handler_exit_run ws raised σ :
  handler_exit ws raised σ =
    Outcome (result (disconnect ws σ)) (final (disconnect ws σ))
            (exit_print ws raised ++ sent (disconnect ws σ)).
Proof.
  unfold handler_exit. destruct raised; unfold bind; simpl; by destruct (disconnect ws σ).
Qed.

Lemma disconnect_result ws σ : result (disconnect ws σ) = inl tt.
Proof. apply disconnect_frame. Qed.

Lemma handler_turn_stays a σ :
  leaves (arrival_conn a) a σ = None →
  ∃ raw now, a = Message (arrival_conn a) raw now ∧
    handler_turn a σ = handler_body (arrival_conn a) raw now σ ∧
    result (handler_turn a σ) = inl Continue.
Proof.
  destruct a as [ws raw now | ws]; simpl; [| done].
  intros Hl. exists raw, now. split; [done |].
  destruct (result (handler_body ws raw now σ)) as [[] |] eqn:Hres; done.
Qed.

Lemma handler_turn_leaves a σ raised :
  leaves (arrival_conn a) a σ = Some raised →
  let ws := arrival_conn a in
  let '(σ1, pre) := before_exit ws a σ in
  handler_turn a σ =
    Outcome (inl Break) (final (disconnect ws σ1))
            (pre ++ exit_print ws raised ++ sent (disconnect ws σ1)).
Proof.
  destruct a as [ws raw now | ws];
    unfold leaves, before_exit, handler_turn, arrival_conn; cbv zeta.
  - destruct (result (handler_body ws raw now σ)) as [[] | e] eqn:Hres;
      intros [= <-]; by rewrite handler_exit_run.
  - intros [= <-]. unfold bind. rewrite handler_exit_run, disconnect_result.
    cbn [result final sent ret exit_print app]. by rewrite app_nil_r.
Qed.

Lemma safe_before_exit gone a σ :
  arrival_conn a ∉ gone → safe gone σ → safe gone (before_exit (arrival_conn a) a σ).1.
Proof.
  intros Hlive Hs. destruct a as [ws raw now | ws]; simpl; [| done].
  by apply preserves_handler_body.
Qed.

(** ** Runs of the server *)

Lemma step_leaves a s raised :
  arrival_conn a ∉ returned s →
  leaves (arrival_conn a) a (mem s) = Some raised →
  let ws := arrival_conn a in
  let '(σ1, pre) := before_exit ws a (mem s) in
  step a s = (Server (final (disconnect ws σ1)) ({[ws]} ∪ returned s),
              pre ++ exit_print ws raised ++ sent (disconnect ws σ1)).
Proof.
  intros Hlive Hl. pose proof (handler_turn_leaves a (mem s) raised Hl) as Hrun.
  cbv zeta in *. destruct (before_exit (arrival_conn a) a (mem s)) as [σ1 pre].
  unfold step. rewrite (decide_False _ _ Hlive), Hrun. done.
Qed.

Lemma step_stays a s :
  arrival_conn a ∉ returned s →
  leaves (arrival_conn a) a (mem s) = None →
  step a s = (Server (final (handler_turn a (mem s))) (returned s),
              sent (handler_turn a (mem s))).
Proof.
  intros Hlive Hl. destruct (handler_turn_stays a (mem s) Hl) as (raw & now & _ & _ & Hres).
  unfold step. by rewrite (decide_False _ _ Hlive), Hres.
Qed.

Lemma step_returned a s :
  arrival_conn a ∈ returned s → step a s = (s, []).
Proof. intros Hin. unfold step. by rewrite (decide_True _ _ Hin). Qed.

Lemma server_ok_boot d : server_ok (boot d).
Proof. split; [apply consistent_initial | by intros ws Hws]. Qed.

Lemma server_ok_step a s : server_ok s → server_ok (step a s).1.
Proof.
  intros Hok. destruct (decide (arrival_conn a ∈ returned s)) as [Hin | Hlive].
  { by rewrite step_returned. }
  destruct (leaves (arrival_conn a) a (mem s)) as [raised |] eqn:Hl.
  - pose proof (step_leaves a s raised Hlive Hl) as Hstep. cbv zeta in Hstep.
    pose proof (safe_before_exit _ a (mem s) Hlive Hok) as Hs1.
    destruct (before_exit (arrival_conn a) a (mem s)) as [σ1 pre].
    cbn [fst] in Hs1. rewrite Hstep. unfold server_ok; cbn [fst mem returned].
    destruct (preserves_disconnect (returned s) (arrival_conn a) σ1 Hs1) as [Hc Hr].
    split; [done |]. intros x [Hx | Hx]%elem_of_union; [| by apply Hr].
    apply elem_of_singleton in Hx as ->.
    rewrite disconnect_USERS. apply lookup_delete_eq.
  - rewrite step_stays by done. unfold server_ok; cbn [fst mem returned].
    destruct (handler_turn_stays a (mem s) Hl) as (raw & now & _ & -> & _).
    by apply preserves_handler_body.
Qed.

Lemma server_ok_run arrivals s : server_ok s → server_ok (run s arrivals).1.
Proof.
  revert s. induction arrivals as [| a rest IH]; intros s Hok; simpl; [done |].
  pose proof (server_ok_step a s Hok) as Hstep.
  destruct (step a s) as [s' out]. specialize (IH s' Hstep).
  by destruct (run s' rest).
Qed.

(** ** The handler as a whole *)

Lemma run_returned ws s arrivals :
  ws ∈ returned s → Forall (λ a, arrival_conn a = ws) arrivals →
  run s arrivals = (s, []).
Proof.
  intros Hgone Hall. induction Hall as [| a rest Ha _ IH]; simpl; [done |].
  rewrite step_returned by by rewrite Ha. by rewrite IH.
Qed.

Lemma Forall_arrivals_of ws msgs :
  Forall (λ a, arrival_conn a = ws) (arrivals_of ws msgs).
Proof.
  unfold arrivals_of. apply Forall_app. split.
  - apply Forall_fmap, Forall_true. by intros [raw now].
  - by apply Forall_singleton.
Qed.

(** The turns of one connection, taken with no other connection in between,
    are a run of [handler]. *)
Lemma handler_as_run ws msgs s :
  ws ∉ returned s →
  run s (arrivals_of ws msgs) =
    (Server (final (handler ws msgs (mem s))) ({[ws]} ∪ returned s),
     sent (handler ws msgs (mem s))).
Proof.
  revert s. induction msgs as [| [raw now] rest IH]; intros s Hlive.
  - unfold arrivals_of, handler. cbn [fmap list_fmap app run handler_loop].
    rewrite (step_leaves (Closed ws) s None Hlive eq_refl).
    by rewrite handler_exit_run, app_nil_r.
  - change (arrivals_of ws ((raw, now) :: rest))
      with (Message ws raw now :: arrivals_of ws rest).
    cbn [run]. unfold handler. cbn [handler_loop].
    destruct (leaves ws (Message ws raw now) (mem s)) as [raised |] eqn:Hleaves.
    + pose proof (step_leaves (Message ws raw now) s raised Hlive Hleaves) as Hstep.
      cbn [arrival_conn before_exit] in Hstep. rewrite Hstep.
      rewrite (run_returned ws); [| set_solver | apply Forall_arrivals_of].
      unfold leaves in Hleaves. rewrite result_bind, final_bind, sent_bind.
      destruct (result (handler_body ws raw now (mem s))) as [[] | e];
        inversion Hleaves; subst raised;
        cbn [result final sent ret]; rewrite handler_exit_run; cbn [final sent];
        by rewrite !app_nil_r, <- ?app_assoc.
    + rewrite (step_stays (Message ws raw now) s Hlive Hleaves).
      destruct (handler_turn_stays (Message ws raw now) (mem s) Hleaves)
        as (raw' & now' & [= <- <-] & Hturn & Hres).
      cbn [arrival_conn] in Hturn. rewrite Hturn in *.
      rewrite IH by done. cbn [mem returned].
      unfold handler. rewrite result_bind, final_bind, sent_bind, Hres.
      cbn [final sent]. by rewrite <- app_assoc.
Qed.

(** * The claims *)

(** ** The gate before login *)

Lemma handler_body_gate ws data now σ :
  USERS σ !! ws = None →
  is_action (get "action" data) "login" = false →
  handler_body ws (Decoded (JDict data)) now σ =
    Outcome (inl Continue) σ
      [Send ws (error_plain "Authentication required. Please log in.")].
Proof.
  intros Hnone Hact. unfold handler_body.
  rewrite run_bind_read, Hact, bool_decide_eq_true_2 by done. done.
Qed.

Lemma server_eta s : Server (mem s) (returned s) = s.
Proof. by destruct s. Qed.

Lemma step_continue a s σ' out :
  arrival_conn a ∉ returned s →
  handler_turn a (mem s) = Outcome (inl Continue) σ' out →
  step a s = (Server σ' (returned s), out).
Proof.
  intros Hlive Hrun. unfold step. by rewrite (decide_False _ _ Hlive), Hrun.
Qed.

(** C3. A connection with no registry entry that sends any action other
    than login gets exactly one authentication-required error; the registry,
    the username set, the room directory and the set of running handlers are
    as before, so the connection is not terminated. *)
Theorem gate_before_login (s : server) (ws : conn) (data : dict) (now : Z) :
  ws ∉ returned s →
  USERS (mem s) !! ws = None →
  is_action (get "action" data) "login" = false →
  step (Message ws (Decoded (JDict data)) now) s =
    (s, [Send ws (error_plain "Authentication required. Please log in.")]).
Proof.
  intros Hlive Hnone Hact.
  rewrite (step_continue _ _ (mem s)
             [Send ws (error_plain "Authentication required. Please log in.")]).
  - by rewrite server_eta.
  - done.
  - unfold handler_turn. by rewrite handler_body_gate.
Qed.

Lemma gate_before_login_witness :
  step (Message 7 (publish_to "general" "hi") 0) alice_online =
    (alice_online, [Send 7 (error_plain "Authentication required. Please log in.")]).
Proof.
  apply gate_before_login.
  - vm_compute. set_solver.
  - vm_compute. reflexivity.
  - vm_compute. reflexivity.
Defined.

(** ** Dispatch for a logged-in connection *)

Section Dispatch.
Context (ws : conn) (data : dict) (now : Z) (σ : state).
Hypothesis Hlogged : is_Some (USERS σ !! ws).

Lemma gate_open : bool_decide (USERS σ !! ws = None) = false.
Proof. apply bool_decide_eq_false_2. by destruct Hlogged as [u ->]. Qed.

Lemma handler_body_subscribe :
  get "action" data = JStr "subscribe" →
  handler_body ws (Decoded (JDict data)) now σ =
    (handle_subscribe ws data ;;; ret Continue) σ.
Proof.
  intros Hact. unfold handler_body.
  by rewrite run_bind_read, Hact, gate_open.
Qed.

Lemma handler_body_unsubscribe :
  get "action" data = JStr "unsubscribe" →
  handler_body ws (Decoded (JDict data)) now σ =
    (handle_unsubscribe ws data ;;; ret Continue) σ.
Proof.
  intros Hact. unfold handler_body.
  by rewrite run_bind_read, Hact, gate_open.
Qed.

Lemma handler_body_publish :
  get "action" data = JStr "publish" →
  handler_body ws (Decoded (JDict data)) now σ =
    (handle_publish ws data now ;;; ret Continue) σ.
Proof.
  intros Hact. unfold handler_body.
  by rewrite run_bind_read, Hact, gate_open.
Qed.

Lemma handler_body_logout :
  get "action" data = JStr "logout" →
  handler_body ws (Decoded (JDict data)) now σ = Outcome (inl Break) σ [].
Proof.
  intros Hact. unfold handler_body.
  by rewrite run_bind_read, Hact, gate_open.
Qed.
End Dispatch.

(** A handler that returns normally lets the loop go on. *)
Lemma then_continue (c : M unit) σ σ' out :
  c σ = Outcome (inl tt) σ' out →
  (c ;;; ret Continue) σ = Outcome (inl Continue) σ' out.
Proof. intros Hc. unfold bind. rewrite Hc; simpl. by rewrite app_nil_r. Qed.

(** A message whose handler returns [σ'] and [out]. *)
Lemma step_handled (c : M unit) ws raw now s σ' out :
  ws ∉ returned s →
  handler_body ws raw now (mem s) = (c ;;; ret Continue) (mem s) →
  c (mem s) = Outcome (inl tt) σ' out →
  step (Message ws raw now) s = (Server σ' (returned s), out).
Proof.
  intros Hlive Hbody Hc. apply step_continue; [done |].
  unfold handler_turn. by rewrite Hbody, (then_continue c _ σ' out).
Qed.

(** ** Requests that get no reply *)

Lemma handle_unsubscribe_nothing ws data username σ :
  USERS σ !! ws = Some username → Py.is_empty username = false →
  get "rooms" data = JList [] →
  handle_unsubscribe ws data σ = Outcome (inl tt) σ [].
Proof.
  intros Hu Hne Hrooms. unfold handle_unsubscribe.
  by rewrite run_bind_read, Hu, Hne, Hrooms.
Qed.

Lemma handle_subscribe_nothing ws data σ :
  get "rooms" data = JList [] →
  handle_subscribe ws data σ =
    Outcome (inl tt) σ [Send ws (error_for "subscribe" "rooms list required")].
Proof. intros Hrooms. unfold handle_subscribe. by rewrite Hrooms. Qed.

(** C8, at the failing input. A logged-in connection that sends
    unsubscribe with an empty rooms list gets no reply at all and nothing
    changes, where the claim has one validation error under the action
    unsubscribe; the same list sent with subscribe is answered with the
    error of that action. *)
Theorem unsubscribe_empty_list_silent (s : server) (ws : conn) (username : string)
    (data : dict) (now : Z) :
  ws ∉ returned s →
  USERS (mem s) !! ws = Some username → Py.is_empty username = false →
  get "rooms" data = JList [] →
  (get "action" data = JStr "unsubscribe" →
   step (Message ws (Decoded (JDict data)) now) s = (s, [])) ∧
  (get "action" data = JStr "subscribe" →
   step (Message ws (Decoded (JDict data)) now) s =
     (s, [Send ws (error_for "subscribe" "rooms list required")])).
Proof.
  intros Hlive Hu Hne Hrooms.
  assert (is_Some (USERS (mem s) !! ws)) as Hlogged by by rewrite Hu.
  split; intros Hact; rewrite <- (server_eta s) at 2.
  - apply (step_handled (handle_unsubscribe ws data)); [done | |].
    + by apply handler_body_unsubscribe.
    + by apply (handle_unsubscribe_nothing _ _ username).
  - apply (step_handled (handle_subscribe ws data)); [done | |].
    + by apply handler_body_subscribe.
    + by apply handle_subscribe_nothing.
Qed.

(** Two more requests of a logged-in connection that get no reply: a
    subscribe whose room names are all blank, and an unsubscribe from a room
    never joined. *)
Example subscribe_blank_names_silent :
  step (Message 1 (subscribe_to ["  "; ""]) 0) alice_online = (alice_online, []).
Proof. vm_compute. reflexivity. Qed.

Example unsubscribe_unjoined_silent :
  step (Message 1 (unsubscribe_from ["general"]) 0) alice_online = (alice_online, []).
Proof. vm_compute. reflexivity. Qed.

Lemma unsubscribe_empty_list_silent_witness :
  step (Message 1 (unsubscribe_from []) 0) alice_online = (alice_online, []).
Proof.
  apply (unsubscribe_empty_list_silent alice_online 1 "alice"
           [("action", JStr "unsubscribe"); ("rooms", JList [])] 0).
  - vm_compute. set_solver.
  - vm_compute. reflexivity.
  - reflexivity.
  - reflexivity.
  - reflexivity.
Defined.

(** ** What a broadcast sends *)

Lemma to_all_empty payload : to_all ∅ payload = [].
Proof. unfold to_all. by rewrite elements_empty. Qed.

Lemma elem_of_to_all ws members payload :
  Send ws payload ∈ to_all members payload ↔ ws ∈ members.
Proof.
  unfold to_all. rewrite list_elem_of_fmap. split.
  - intros (x & [= ->] & Hx). by apply elem_of_elements.
  - intros Hin. exists ws. split; [done | by apply elem_of_elements].
Qed.

Lemma broadcast_sent room payload except_ws σ :
  sent (broadcast room payload except_ws σ) =
    to_all (discard_opt (members σ room) except_ws) payload.
Proof.
  unfold broadcast. rewrite run_bind_read. fold (members σ room).
  case_decide as Hempty; [| done]. by rewrite Hempty, to_all_empty.
Qed.

Lemma broadcast_room_update_sent room σ :
  sent (broadcast_room_update room σ) =
    to_all (members σ room) (room_update room (user_list σ room)).
Proof.
  unfold broadcast_room_update. rewrite run_bind_read. fold (members σ room).
  case_decide as Hempty.
  - by rewrite Hempty, to_all_empty.
  - by rewrite broadcast_sent.
Qed.

Lemma notices_eq username σ room :
  notices username σ room =
    to_all (members σ room) (leave_notice username room) ++
    to_all (members σ room) (room_update room (user_list σ room)).
Proof.
  unfold notices, leave_and_update. rewrite sent_bind.
  destruct (quiet_broadcast room (leave_notice username room) None σ) as [Hf [[] Hr]].
  by rewrite Hr, Hf, broadcast_sent, broadcast_room_update_sent.
Qed.

(** What [tail_room_log] does, case by case. *)
Lemma tail_room_log_run room n σ :
  tail_room_log room n σ =
    if decide (log_path_for room ∈ name_error (LOG_DIR σ)) then Outcome (inr OSError) σ []
    else
      match files (LOG_DIR σ) !! log_path_for room with
      | None => Outcome (inl []) σ []
      | Some lines =>
          if decide (log_path_for room ∈ read_error (LOG_DIR σ)) then
            Outcome (inl []) σ [PrintReadFailure room]
          else
            match refused (Py.slice_from (- n) lines) with
            | Some r => Outcome (inr (refusal_exn r)) σ []
            | None => Outcome (inl (parse_lines (Py.slice_from (- n) lines))) σ []
            end
      end.
Proof.
  unfold tail_room_log. rewrite run_bind_read.
  case_decide; [done |].
  destruct (files (LOG_DIR σ) !! log_path_for room); [| done].
  case_decide; [done |]. by rewrite load_lines_run.
Qed.

Lemma tail_room_log_silent room σ :
  files (LOG_DIR σ) !! log_path_for room = None ∨
  log_path_for room ∉ read_error (LOG_DIR σ) →
  sent (tail_room_log room 50 σ) = [].
Proof.
  intros Hok. rewrite tail_room_log_run.
  case_decide; [done |].
  destruct (files (LOG_DIR σ) !! log_path_for room); [| done].
  case_decide; [by destruct Hok |]. by destruct (refused _).
Qed.

(** The history of a room is replayed exactly when the file system takes
    the name of its log and no line to be loaded is refused. *)
Lemma tail_returns room σ :
  replayable σ room ↔ ∃ history, result (tail_room_log room 50 σ) = inl history.
Proof.
  unfold replayable. rewrite tail_room_log_run.
  destruct (decide (log_path_for room ∈ name_error (LOG_DIR σ))) as [Hname | Hname].
  { split; [by intros [? _] | by intros [? ?]]. }
  destruct (files (LOG_DIR σ) !! log_path_for room) as [lines |]; cbn [default id].
  - destruct (decide (log_path_for room ∈ read_error (LOG_DIR σ))) as [Hread | Hread].
    + split; [by eexists | done].
    + destruct (refused (Py.slice_from (Z.opp 50) lines)) eqn:Href.
      * split; [intros [_ Hno]; by specialize (Hno Hread) | by intros [? ?]].
      * split; [by eexists | done].
  - split; [by eexists | done].
Qed.

Lemma tail_room_log_returns room σ :
  replayable σ room →
  ∃ history, tail_room_log room 50 σ =
               Outcome (inl history) σ (sent (tail_room_log room 50 σ)).
Proof.
  intros [history Hres]%tail_returns. exists history.
  rewrite (outcome_eta (tail_room_log room 50 σ)) at 1.
  by rewrite Hres, (steady_tail_room_log room 50 σ).
Qed.

Lemma replay_sent ws room σ :
  replayable σ room →
  sent (replay ws room σ) =
    sent (tail_room_log room 50 σ) ++ history_events ws room σ ++
    to_all (members σ room) (room_update room (user_list σ room)).
Proof.
  intros [history Hres]%tail_returns.
  unfold replay, history_events. rewrite sent_bind.
  rewrite Hres, (steady_tail_room_log room 50 σ).
  f_equal. rewrite sent_bind.
  destruct history as [| record history]; cbn -[broadcast_room_update];
    by rewrite broadcast_room_update_sent.
Qed.

(** A replay that can read the history returns, and changes nothing. *)
Lemma replay_run ws room σ :
  replayable σ room → replay ws room σ = Outcome (inl tt) σ (sent (replay ws room σ)).
Proof.
  intros [history Hres]%tail_returns.
  rewrite (outcome_eta (replay ws room σ)) at 1.
  rewrite (steady_replay ws room σ). f_equal.
  unfold replay. rewrite result_bind, Hres, (steady_tail_room_log room 50 σ).
  rewrite result_bind.
  assert (quiet (match history with
                 | [] => ret tt
                 | _ :: _ => send ws (history_msg room history)
                 end)) as Hq by (destruct history; auto with quiet).
  destruct (Hq σ) as [-> [[] ->]].
  by destruct (quiet_broadcast_room_update room σ) as [_ [[] ->]].
Qed.

(** A replay that cannot read the history raises, after nothing but what
    reading printed. *)
Lemma replay_raises ws room σ e :
  result (tail_room_log room 50 σ) = inr e →
  replay ws room σ = Outcome (inr e) σ (sent (tail_room_log room 50 σ)).
Proof.
  intros Hres. unfold replay, bind. rewrite Hres.
  by rewrite (steady_tail_room_log room 50 σ).
Qed.

(** ** Subscribing to a room again *)

Lemma subscribe_rooms_again ws username room subs acc σ :
  Py.strip room = room → Py.is_empty room = false →
  ROOMS σ !! room = Some subs → ws ∈ subs →
  subscribe_rooms ws username [JStr room] acc σ = Outcome (inl (acc ++ [room])) σ [].
Proof.
  intros Hstrip Hne Hroom Hin. simpl. rewrite Hstrip, Hne.
  rewrite run_bind_read, run_bind_update, Hroom; simpl.
  rewrite bool_decide_eq_false_2 by (intros Hnot; by apply Hnot).
  rewrite run_bind_ret. unfold ret. f_equal.
  apply state_eq; try done; simpl.
  - rewrite Hroom; simpl.
    replace ({[ws]} ∪ subs) with subs by set_solver.
    by apply insert_id.
  - rewrite decide_True; [done | by rewrite Hroom].
Qed.

Lemma handle_subscribe_again ws data username room subs σ :
  USERS σ !! ws = Some username → Py.is_empty username = false →
  get "rooms" data = JList [JStr room] →
  Py.strip room = room → Py.is_empty room = false →
  ROOMS σ !! room = Some subs → ws ∈ subs →
  replayable σ room →
  handle_subscribe ws data σ =
    Outcome (inl tt) σ
      (Send ws (system_rooms "subscribed" (strs [room])) :: sent (replay ws room σ)).
Proof.
  intros Hu Hne Hrooms Hstrip Hroom_ne Hroom Hin Hreplay. unfold handle_subscribe.
  rewrite Hrooms. cbn [or_else truthy].
  rewrite run_bind_read, Hu, Hne.
  rewrite (run_bind_silent _ _ _ ([] ++ [room]));
    try by rewrite (subscribe_rooms_again _ _ _ subs).
  rewrite (subscribe_rooms_again _ _ _ subs) by done.
  cbn [final app for_each]. unfold send, bind at 1. cbn [emit result final sent].
  pose proof (replay_run ws room σ Hreplay) as Hrun.
  unfold bind. rewrite Hrun. cbn [result final sent ret app].
  by rewrite app_nil_r.
Qed.

(** C1, at the failing input. A connection already subscribed to [room]
    that asks for it again, where the history of the room can be read, is
    sent a second subscribed confirmation naming the room, the history of
    the room once more, and the membership list once more; the claim has a
    silent no-op.  Only the join notice is left out, as the claim says. *)
Theorem resubscribe_is_answered_again (s : server) (ws : conn) (username room : string)
    (subs : gset conn) (data : dict) (now : Z) :
  ws ∉ returned s →
  USERS (mem s) !! ws = Some username → Py.is_empty username = false →
  get "action" data = JStr "subscribe" → get "rooms" data = JList [JStr room] →
  Py.strip room = room → Py.is_empty room = false →
  ROOMS (mem s) !! room = Some subs → ws ∈ subs →
  replayable (mem s) room →
  let out := (step (Message ws (Decoded (JDict data)) now) s).2 in
  step (Message ws (Decoded (JDict data)) now) s =
    (s, Send ws (system_rooms "subscribed" (strs [room])) :: sent (replay ws room (mem s))) ∧
  Send ws (room_update room (user_list (mem s) room)) ∈ out ∧
  (∀ record history,
     result (tail_room_log room 50 (mem s)) = inl (record :: history) →
     Send ws (history_msg room (record :: history)) ∈ out) ∧
  (∀ x, Send x (system_room "join" username room) ∉ out).
Proof.
  intros Hlive Hu Hne Hact Hrooms Hstrip Hroom_ne Hroom Hin Hreplay out.
  assert (step (Message ws (Decoded (JDict data)) now) s =
    (s, Send ws (system_rooms "subscribed" (strs [room])) :: sent (replay ws room (mem s))))
    as Hstep.
  { rewrite <- (server_eta s) at 2.
    apply (step_handled (handle_subscribe ws data)); [done | |].
    - apply handler_body_subscribe; [by rewrite Hu | done].
    - by apply (handle_subscribe_again _ _ username room subs). }
  subst out. rewrite Hstep. cbn [snd]. rewrite replay_sent by done.
  split; [done |]. split; [| split].
  - apply elem_of_cons. right. apply elem_of_app. right. apply elem_of_app. right.
    apply elem_of_to_all. unfold members. by rewrite Hroom.
  - intros record history Hres.
    apply elem_of_cons. right. apply elem_of_app. right. apply elem_of_app. left.
    unfold history_events. rewrite Hres. apply list_elem_of_singleton. done.
  - intros x [Hx | [Hx | [Hx | Hx]%elem_of_app]%elem_of_app]%elem_of_cons.
    + done.
    + rewrite tail_room_log_run in Hx.
      case_decide; [by inversion Hx |].
      destruct (files (LOG_DIR (mem s)) !! log_path_for room); [| by inversion Hx].
      case_decide; [apply list_elem_of_singleton in Hx; done |].
      destruct (refused _); by inversion Hx.
    + unfold history_events in Hx.
      destruct (result (tail_room_log room 50 (mem s))) as [[| ??] |];
        try by inversion Hx.
      apply list_elem_of_singleton in Hx. done.
    + apply list_elem_of_fmap in Hx as (y & Hy & _). done.
Qed.

Lemma resubscribe_is_answered_again_witness :
  step (Message 1 (subscribe_to ["general"]) 1701) alice_in_general =
    (alice_in_general,
     [Send 1 (system_rooms "subscribed" (strs ["general"]));
      Send 1 (history_msg "general" [message_record "general" (JStr "alice") "hi" 1700]);
      Send 1 (room_update "general" ["alice"])]).
Proof.
  destruct (resubscribe_is_answered_again alice_in_general 1 "alice" "general" {[1]}
              [("action", JStr "subscribe"); ("rooms", strs ["general"])] 1701)
    as [Hstep _].
  - vm_compute. set_solver.
  - vm_compute. reflexivity.
  - reflexivity.
  - reflexivity.
  - reflexivity.
  - reflexivity.
  - reflexivity.
  - vm_compute. reflexivity.
  - apply elem_of_singleton. reflexivity.
  - split; [vm_compute; set_solver | intros _; vm_compute; reflexivity].
  - unfold subscribe_to, request. rewrite Hstep. f_equal.
Defined.

(** ** Publishing *)

Lemma append_room_log_run room record σ :
  append_room_log room record σ =
    if decide (log_path_for room ∈ write_error (LOG_DIR σ))
    then Outcome (inr OSError) σ []
    else Outcome (inl tt) (appended room record σ) [].
Proof.
  unfold append_room_log. rewrite run_bind_read. by case_decide.
Qed.

Lemma handle_publish_run ws data now username σ :
  USERS σ !! ws = Some username →
  Py.is_empty (publish_room data) = false →
  Py.is_empty (publish_message data) = false →
  let room := publish_room data in
  let record := message_record room (JStr username) (publish_message data) now in
  handle_publish ws data now σ =
    if decide (log_path_for room ∈ write_error (LOG_DIR σ))
    then Outcome (inr OSError) σ []
    else Outcome (inl tt) (appended room record σ) (to_all (members σ room) record).
Proof.
  intros Hu Hroom Hmsg room record. unfold handle_publish.
  rewrite run_bind_read, Hu. fold (publish_room data) (publish_message data).
  rewrite Hroom, Hmsg. cbn [orb]. fold room. fold record.
  unfold bind. rewrite append_room_log_run.
  case_decide; [done |]. cbn [result final sent app].
  destruct (quiet_run (broadcast room record None) (appended room record σ)
              (quiet_broadcast room record None)) as [[] Hrun].
  rewrite Hrun. cbn [result final sent]. by rewrite broadcast_sent.
Qed.




(** ** A publish whose log cannot be written *)

(** What the server does there: the exception is printed, Alice is logged
    out and removed from the room, and Bob is told that she left. *)
Example publish_on_broken_disk :
  (step (Message 1 (Decoded (JDict publish_hi)) 1700) pair_on_broken_disk).2 =
    [PrintUnexpected 1 OSError;
     Send 2 (leave_notice "alice" "general");
     Send 2 (room_update "general" ["bob"])].
Proof. vm_compute. reflexivity. Qed.

Lemma elem_of_concat {A} (x : A) (ls : list (list A)) :
  x ∈ concat ls ↔ ∃ l, l ∈ ls ∧ x ∈ l.
Proof.
  induction ls as [| l ls IH]; simpl.
  - split; [by intros ?%elem_of_nil | by intros (l & ?%elem_of_nil & _)].
  - rewrite elem_of_app, IH. split.
    + intros [Hx | (l' & Hl' & Hx)].
      * exists l. split; [by left | done].
      * exists l'. split; [by right | done].
    + intros (l' & [-> | Hl']%elem_of_cons & Hx); [by left |].
      right. by exists l'.
Qed.

(** Every event of the cleanup is a leave notice or a membership list, sent
    to a connection that is still in the room. *)
Lemma elem_of_cleanup e username σ rooms :
  e ∈ concat (notices username σ <$> rooms) →
  ∃ room x, room ∈ rooms ∧ x ∈ members σ room ∧
    (e = Send x (leave_notice username room) ∨
     e = Send x (room_update room (user_list σ room))).
Proof.
  intros (l & (room & -> & Hroom)%list_elem_of_fmap & He)%elem_of_concat.
  rewrite notices_eq in He.
  apply elem_of_app in He as [He | He];
    apply list_elem_of_fmap in He as (x & -> & Hx%elem_of_elements);
    exists room, x; auto.
Qed.

Lemma then_raise (c : M unit) σ e σ' out :
  c σ = Outcome (inr e) σ' out →
  (c ;;; ret Continue) σ = Outcome (inr e) σ' out.
Proof. intros Hc. unfold bind. by rewrite Hc. Qed.

(** C2, at the failing input. When the log of the room cannot be opened
    for append, the publish raises before any broadcast: no subscriber is
    sent the record, nothing is written, the exception is printed, and the
    handler of the publisher leaves through [disconnect], which logs the
    publisher out and tells the rooms it was in, in the order in which the
    rooms were created.  The claim has the record broadcast and the session
    going on. *)
Theorem publish_storage_failure_ends_session (d : disk) (arrivals : list arrival)
    (ws : conn) (username : string) (data : dict) (now : Z) :
  let s := reached d arrivals in
  ws ∉ returned s →
  USERS (mem s) !! ws = Some username →
  get "action" data = JStr "publish" →
  Py.is_empty (publish_room data) = false →
  Py.is_empty (publish_message data) = false →
  log_path_for (publish_room data) ∈ write_error (LOG_DIR (mem s)) →
  let record :=
    JDict [("type", JStr "message"); ("room", JStr (publish_room data));
           ("username", JStr username); ("message", JStr (publish_message data));
           ("ts", JInt now)] in
  let s' := (step (Message ws (Decoded (JDict data)) now) s).1 in
  let out := (step (Message ws (Decoded (JDict data)) now) s).2 in
  s' = Server (logged_out ws username (mem s)) ({[ws]} ∪ returned s) ∧
  out = PrintUnexpected ws OSError ::
        concat (notices username (logged_out ws username (mem s)) <$> rooms_of ws (mem s)) ∧
  (∀ x, Send x record ∉ out) ∧
  LOG_DIR (mem s') = LOG_DIR (mem s) ∧
  ws ∈ returned s' ∧ USERS (mem s') !! ws = None.
Proof.
  intros s Hlive Hu Hact Hroom Hmsg Hdisk record s' out.
  destruct (server_ok_run arrivals (boot d) (server_ok_boot d)) as [Hc _].
  fold (reached d arrivals) in Hc. fold s in Hc.
  assert (handler_body ws (Decoded (JDict data)) now (mem s) =
          Outcome (inr OSError) (mem s) []) as Hbody.
  { rewrite handler_body_publish by (done || by rewrite Hu).
    apply then_raise. rewrite (handle_publish_run _ _ _ username) by done.
    by rewrite decide_True by done. }
  pose proof (step_leaves (Message ws (Decoded (JDict data)) now) s (Some OSError) Hlive)
    as Hstep.
  unfold leaves, before_exit, arrival_conn in Hstep. rewrite Hbody in Hstep.
  specialize (Hstep eq_refl). cbv zeta in Hstep.
  cbn [result final sent exit_print app] in Hstep.
  rewrite (disconnect_logged_in ws username (mem s) (rooms_ordered _ Hc) Hu
             (names_nonempty _ Hc _ _ Hu)) in Hstep.
  cbn [final sent] in Hstep.
  subst s' out. rewrite Hstep. cbn [fst snd mem returned].
  repeat split; try done.
  - intros x [Hx | Hx]%elem_of_cons; [done |].
    apply elem_of_cleanup in Hx as (room & y & _ & _ & [Hx | Hx]); done.
  - set_solver.
  - simpl. apply lookup_delete_eq.
Qed.

(** Alice and Bob are in "sports" and in "general", created in this order;
    general.txt cannot be written.  Alice publishes to "general": Bob is
    not sent the record; he is told that Alice left "sports" and then that
    she left "general". *)
Lemma publish_storage_failure_ends_session_witness :
  (step (Message 1 (Decoded (JDict publish_hi)) 1700)
        (reached broken_disk two_rooms_arrivals)).2 =
    [PrintUnexpected 1 OSError;
     Send 2 (JDict [("type", JStr "system"); ("event", JStr "leave");
                    ("username", JStr "alice"); ("room", JStr "sports")]);
     Send 2 (JDict [("type", JStr "room_update"); ("room", JStr "sports");
                    ("users", JList [JStr "bob"])]);
     Send 2 (JDict [("type", JStr "system"); ("event", JStr "leave");
                    ("username", JStr "alice"); ("room", JStr "general")]);
     Send 2 (JDict [("type", JStr "room_update"); ("room", JStr "general");
                    ("users", JList [JStr "bob"])])].
Proof.
  pose proof (publish_storage_failure_ends_session broken_disk two_rooms_arrivals 1
                "alice" publish_hi 1700) as H.
  destruct H as (_ & Hout & _).
  - vm_compute. set_solver.
  - vm_compute. reflexivity.
  - reflexivity.
  - reflexivity.
  - reflexivity.
  - vm_compute. set_solver.
  - rewrite Hout. vm_compute. reflexivity.
Defined.

(** ** The history store *)

Lemma tail_room_log_missing room n σ :
  log_path_for room ∉ name_error (LOG_DIR σ) →
  files (LOG_DIR σ) !! log_path_for room = None →
  tail_room_log room n σ = Outcome (inl []) σ [].
Proof.
  intros Hname Hnone. rewrite tail_room_log_run.
  by rewrite decide_False, Hnone by done.
Qed.

Lemma tail_room_log_read room n lines σ :
  log_path_for room ∉ name_error (LOG_DIR σ) →
  files (LOG_DIR σ) !! log_path_for room = Some lines →
  log_path_for room ∉ read_error (LOG_DIR σ) →
  refused (Py.slice_from (- n) lines) = None →
  tail_room_log room n σ =
    Outcome (inl (parse_lines (Py.slice_from (- n) lines))) σ [].
Proof.
  intros Hname Hfile Hok Hload. rewrite tail_room_log_run.
  by rewrite decide_False, Hfile, decide_False, Hload by done.
Qed.

Lemma tail_room_log_unreadable room n lines σ :
  log_path_for room ∉ name_error (LOG_DIR σ) →
  files (LOG_DIR σ) !! log_path_for room = Some lines →
  log_path_for room ∈ read_error (LOG_DIR σ) →
  tail_room_log room n σ = Outcome (inl []) σ [PrintReadFailure room].
Proof.
  intros Hname Hfile Hbad. rewrite tail_room_log_run.
  by rewrite decide_False, Hfile, decide_True by done.
Qed.

Lemma tail_room_log_refused room n lines r σ :
  log_path_for room ∉ name_error (LOG_DIR σ) →
  files (LOG_DIR σ) !! log_path_for room = Some lines →
  log_path_for room ∉ read_error (LOG_DIR σ) →
  refused (Py.slice_from (- n) lines) = Some r →
  tail_room_log room n σ = Outcome (inr (refusal_exn r)) σ [].
Proof.
  intros Hname Hfile Hok Hload. rewrite tail_room_log_run.
  by rewrite decide_False, Hfile, decide_False, Hload by done.
Qed.

Lemma tail_room_log_name room n σ :
  log_path_for room ∈ name_error (LOG_DIR σ) →
  tail_room_log room n σ = Outcome (inr OSError) σ [].
Proof. intros Hname. rewrite tail_room_log_run. by rewrite decide_True. Qed.


Lemma refused_Parsed (records : list json) : refused (Parsed <$> records) = None.
Proof. induction records as [| r records IH]; simpl; done. Qed.



Lemma parse_lines_app ls1 ls2 :
  parse_lines (ls1 ++ ls2) = parse_lines ls1 ++ parse_lines ls2.
Proof.
  induction ls1 as [| [| | v | r] ls1 IH]; simpl; [done | done | done | | done].
  by rewrite IH.
Qed.

Lemma parse_lines_Parsed (records : list json) :
  parse_lines (Parsed <$> records) = records.
Proof. induction records as [| r records IH]; simpl; [done |]. f_equal. exact IH. Qed.

(** [lines[-n:]] keeps the last [n] lines when [n] is positive. *)
Lemma slice_from_last {A} (n : Z) (l : list A) :
  (0 < n)%Z → Py.slice_from (- n) l = drop (length l - Z.to_nat n) l.
Proof.
  intros Hn. unfold Py.slice_from.
  destruct (Z.ltb_spec (- n) 0) as [_ | ?]; [| lia].
  f_equal. lia.
Qed.

Lemma parse_lines_length ls : (length (parse_lines ls) ≤ length ls)%nat.
Proof. induction ls as [| [| | v | r] ls IH]; simpl; lia. Qed.

(** For a positive [n], the tail is a suffix of the records of the file, in
    file order, of at most [n] records. *)
Lemma tail_positive (n : Z) (lines : list line) :
  (0 < n)%Z →
  parse_lines lines =
    parse_lines (take (length lines - Z.to_nat n) lines) ++
    parse_lines (Py.slice_from (- n) lines) ∧
  (length (parse_lines (Py.slice_from (- n) lines)) ≤ Z.to_nat n)%nat.
Proof.
  intros Hn. rewrite slice_from_last by done. split.
  - by rewrite <- parse_lines_app, take_drop.
  - etrans; [apply parse_lines_length |]. rewrite length_drop. lia.
Qed.

(** The history bound: once the file ends with at least [n] written
    records, the tail is exactly the last [n] of them, in the order
    written. *)
Lemma history_bound (n : Z) (earlier : list line) (records : list json) :
  (0 < n)%Z → (Z.to_nat n ≤ length records)%nat →
  parse_lines (Py.slice_from (- n) (earlier ++ (Parsed <$> records))) =
    drop (length records - Z.to_nat n) records.
Proof.
  intros Hn Hlen. rewrite slice_from_last by done.
  rewrite length_app, length_fmap.
  rewrite drop_app_ge by lia.
  replace (length earlier + length records - Z.to_nat n - length earlier)%nat
    with (length records - Z.to_nat n)%nat by lia.
  by rewrite <- fmap_drop, parse_lines_Parsed.
Qed.

(** With at least fifty records written at the end of the log, a replay
    reads exactly the last fifty, oldest first. *)
Lemma replay_history_bound room earlier (records : list json) σ :
  log_path_for room ∉ name_error (LOG_DIR σ) →
  files (LOG_DIR σ) !! log_path_for room = Some (earlier ++ (Parsed <$> records)) →
  log_path_for room ∉ read_error (LOG_DIR σ) →
  (50 ≤ length records)%nat →
  tail_room_log room 50 σ =
    Outcome (inl (drop (length records - 50) records)) σ [].
Proof.
  intros Hname Hfile Hok Hlen.
  assert (Py.slice_from (Z.opp 50) (earlier ++ (Parsed <$> records)) =
          Parsed <$> drop (length records - 50) records) as Hslice.
  { rewrite slice_from_last by done. rewrite length_app, length_fmap.
    rewrite drop_app_ge by lia. rewrite fmap_drop. f_equal. lia. }
  rewrite (tail_room_log_read _ _ _ _ Hname Hfile Hok).
  - by rewrite Hslice, parse_lines_Parsed.
  - by rewrite Hslice, refused_Parsed.
Qed.

(** ** Rooms that share a log file *)




(** Bob (2) publishes to "a b"; Alice (1) then joins "ab" and is sent the
    record of the other room as history. *)
Example history_of_the_other_room :
  (run (boot empty_disk)
     [Message 1 (login_as "alice") 0;
      Message 2 (login_as "bob") 0;
      Message 2 (publish_to "a b" "psst") 1700;
      Message 1 (subscribe_to ["ab"]) 1701]).2 =
    [Send 1 (obj [("type", JStr "ok"); ("action", JStr "login")]);
     Send 2 (obj [("type", JStr "ok"); ("action", JStr "login")]);
     Send 1 (system_rooms "subscribed" (strs ["ab"]));
     Send 1 (history_msg "ab" [other_room_record]);
     Send 1 (room_update "ab" ["alice"])].
Proof. vm_compute. reflexivity. Qed.


(** ** Reachable states *)

(** The scenario of two users in one room: login, subscribe with no history
    yet, a second user joining, and a message that reaches both. *)
Example two_users_in_general :
  (run (boot empty_disk)
     (pair_arrivals ++ [Message 1 (publish_to "general" "hi") 1700])).2 =
    [Send 1 login_ok;
     Send 1 (system_rooms "subscribed" (strs ["general"]));
     Send 1 (room_update "general" ["alice"]);
     Send 2 login_ok;
     Send 1 (system_room "join" "bob" "general");
     Send 2 (system_rooms "subscribed" (strs ["general"]));
     Send 2 (room_update "general" ["alice"; "bob"]);
     Send 1 (room_update "general" ["alice"; "bob"]);
     Send 2 (message_record "general" (JStr "alice") "hi" 1700);
     Send 1 (message_record "general" (JStr "alice") "hi" 1700)].
Proof. vm_compute. reflexivity. Qed.

Lemma server_ok_reached d arrivals : server_ok (reached d arrivals).
Proof. apply server_ok_run, server_ok_boot. Qed.

Lemma subscribe_rooms_one ws username room_str acc σ :
  let room := Py.strip (str room_str) in
  ROOMS (final (subscribe_rooms ws username [room_str] acc σ)) !! room =
    if Py.is_empty room then ROOMS σ !! room else Some ({[ws]} ∪ members σ room).
Proof.
  intros room. simpl. fold room. destruct (Py.is_empty room); [done |].
  rewrite run_bind_read, run_bind_update.
  rewrite final_bind_quiet by (destruct (bool_decide _); auto with quiet).
  simpl. by rewrite lookup_insert_eq.
Qed.

(** C7. After any run, no room of the directory has an empty subscriber
    set.  The mechanism: the subscribe loop stores under the room a set that
    holds the subscriber, and the removal used by both unsubscribe and
    disconnect deletes the entry of the room when the set without the
    connection is empty. *)
Theorem no_empty_room_is_kept (d : disk) (arrivals : list arrival) :
  map_Forall (λ _ subs, subs ≠ (∅ : gset conn)) (ROOMS (mem (reached d arrivals))) ∧
  (∀ ws username room_str acc σ,
     let room := Py.strip (str room_str) in
     ROOMS (final (subscribe_rooms ws username [room_str] acc σ)) !! room =
       if Py.is_empty room then ROOMS σ !! room else Some ({[ws]} ∪ members σ room)) ∧
  (∀ ws room subs σ,
     ROOMS (final (remove_member ws room subs σ)) !! room =
       if decide (subs ∖ {[ws]} = ∅) then None else Some (subs ∖ {[ws]})).
Proof.
  split; [| split].
  - intros room subs Hroom.
    destruct (server_ok_reached d arrivals) as [Hc _].
    by eapply no_empty_room.
  - apply subscribe_rooms_one.
  - intros ws room subs σ. rewrite remove_member_run; simpl.
    case_decide; [apply lookup_delete_eq | apply lookup_insert_eq].
Qed.

(** ** Login *)

(** [handle_login] is reached only by a connection that is not logged in:
    a repeated login is answered by the handler itself. *)
Lemma handler_body_login_again ws data now username σ :
  USERS σ !! ws = Some username →
  get "action" data = JStr "login" →
  handler_body ws (Decoded (JDict data)) now σ =
    Outcome (inl Continue) σ [Send ws (error_for "login" "You are already logged in")].
Proof.
  intros Hu Hact. unfold handler_body.
  rewrite run_bind_read, Hact, Hu. cbn [is_action String.eqb Ascii.eqb Bool.eqb negb andb].
  by rewrite bool_decide_eq_false_2.
Qed.

(** A second connection asks for a username in use, with blanks around it. *)
Example username_taken :
  step (Message 2 (login_as " alice ") 0) alice_online =
    (alice_online, [Send 2 (error_for "login" "Username taken")]).
Proof. vm_compute. reflexivity. Qed.

(** C4. A login on a string succeeds exactly when the trimmed username is
    not empty and not in the set of active usernames; then the connection is
    mapped to the username, the username joins the set and ok is sent;
    otherwise the matching login error is sent and the state is as before.
    So after any run a username is in the set exactly when one connection,
    whose handler is still running, is mapped to it, and no two connections
    are mapped to one username. *)
Theorem login_claims_username :
  (∀ ws data σ,
     match get_or "username" (JStr "") data with
     | JStr s =>
         let username := Py.strip s in
         handle_login ws data σ =
           (if Py.is_empty username then
              Outcome (inl tt) σ [Send ws (error_for "login" "Username required")]
            else if decide (username ∈ USERNAMES σ) then
              Outcome (inl tt) σ [Send ws (error_for "login" "Username taken")]
            else Outcome (inl tt) (logged_in ws username σ) [Send ws login_ok]) ∧
         (handle_login ws data σ =
            Outcome (inl tt) (logged_in ws username σ) [Send ws login_ok] ↔
          Py.is_empty username = false ∧ username ∉ USERNAMES σ) ∧
         USERS (logged_in ws username σ) = <[ws := username]> (USERS σ) ∧
         USERNAMES (logged_in ws username σ) = {[username]} ∪ USERNAMES σ
     | _ => handle_login ws data σ = Outcome (inr AttributeError) σ []
     end) ∧
  (∀ d arrivals,
     let s := reached d arrivals in
     (∀ u, u ∈ USERNAMES (mem s) ↔
           ∃ ws, (USERS (mem s) !! ws = Some u ∧ ws ∉ returned s) ∧
                 ∀ ws', USERS (mem s) !! ws' = Some u → ws' = ws) ∧
     (∀ ws1 ws2 u,
        USERS (mem s) !! ws1 = Some u → USERS (mem s) !! ws2 = Some u → ws1 = ws2)).
Proof.
  split.
  - intros ws data σ.
    destruct (get_or "username" (JStr "") data) as [| | | s | |] eqn:Hget;
      try (apply handle_login_other; intros ?; congruence).
    cbv zeta. rewrite (handle_login_run _ _ s) by done. unfold login_ok.
    split; [done |]. split; [| done].
    destruct (Py.is_empty (Py.strip s)); [by split; [| intros []] |].
    case_decide; [by split; [| intros []] |]. done.
  - intros d arrivals s. destruct (server_ok_reached d arrivals) as [Hc Hr].
    fold s in Hc, Hr. split; [| by apply names_unique].
    intros u. rewrite (names_claimed _ Hc). split.
    + intros [ws Hws]. exists ws. split; [split; [done |] |].
      * intros Hgone. apply Hr in Hgone. congruence.
      * intros ws' Hws'. by eapply names_unique.
    + intros (ws & [Hws _] & _). eauto.
Qed.

Lemma login_claims_username_witness :
  handle_login 1 [("action", JStr "login"); ("username", JStr " alice ")]
    (initial empty_disk) =
    Outcome (inl tt) (logged_in 1 "alice" (initial empty_disk)) [Send 1 login_ok].
Proof.
  destruct login_claims_username as [Hlogin _].
  destruct (Hlogin 1 [("action", JStr "login"); ("username", JStr " alice ")]
              (initial empty_disk)) as (_ & Hiff & _).
  apply Hiff. split; [reflexivity |]. vm_compute. set_solver.
Defined.

(** ** Cleanup when a handler leaves *)

Lemma exit_path_leaves ws σ a raised :
  exit_path ws σ a raised → arrival_conn a = ws ∧ leaves ws a σ = Some raised.
Proof.
  intros [data now Hlogged Hact | raw now e Hres |]; (split; [done |]); unfold leaves.
  - by rewrite handler_body_logout.
  - by rewrite Hres.
  - done.
Qed.

Lemma is_action_eq action name : is_action action name = true → action = JStr name.
Proof.
  destruct action; try done. simpl. by intros ->%String.eqb_eq.
Qed.

Lemma result_then_continue (c : M unit) σ :
  result ((c ;;; ret Continue) σ) ≠ inl Break.
Proof. rewrite result_bind. by destruct (result (c σ)). Qed.

(** A handler followed by [continue] does not break out of the loop. *)
Ltac no_break H :=
  first [ discriminate H | by apply result_then_continue in H ].

(** These are the only ways out. *)
Lemma leaves_exit_path a σ raised :
  leaves (arrival_conn a) a σ = Some raised → exit_path (arrival_conn a) σ a raised.
Proof.
  destruct a as [ws raw now | ws]; unfold leaves, arrival_conn; [| intros [= <-]; constructor].
  destruct (result (handler_body ws raw now σ)) as [[] | e] eqn:Hres; intros [= <-].
  - unfold handler_body in Hres.
    destruct raw as [| | r | [| | | | | data]]; try no_break Hres.
    rewrite run_bind_read in Hres.
    destruct (bool_decide (USERS σ !! ws = None)) eqn:Hgate.
    + destruct (is_action (get "action" data) "login"); simpl in Hres; no_break Hres.
    + apply bool_decide_eq_false in Hgate.
      rewrite andb_false_r in Hres.
      destruct (is_action (get "action" data) "login"); [no_break Hres |].
      destruct (is_action (get "action" data) "subscribe"); [no_break Hres |].
      destruct (is_action (get "action" data) "unsubscribe"); [no_break Hres |].
      destruct (is_action (get "action" data) "publish"); [no_break Hres |].
      destruct (is_action (get "action" data) "logout") eqn:Hlogout; [| no_break Hres].
      constructor.
      * by apply not_eq_None_Some.
      * by apply is_action_eq.
  - by constructor.
Qed.

Lemma prune_id ws (R : gmap string (gset conn)) :
  (∀ room subs, R !! room = Some subs → ws ∉ subs) → prune ws R = R.
Proof.
  intros Hout. apply map_eq. intros room. unfold prune. rewrite lookup_omap.
  destruct (R !! room) as [subs |] eqn:Hroom; simpl; [| done].
  unfold without_member. by rewrite decide_False by eauto.
Qed.

Lemma members_prune ws room σ σ' :
  ROOMS σ' = prune ws (ROOMS σ) → members σ' room = members σ room ∖ {[ws]}.
Proof.
  intros Hprune. unfold members. rewrite Hprune. unfold prune. rewrite lookup_omap.
  destruct (ROOMS σ !! room) as [subs |]; simpl; [| set_solver].
  unfold without_member. destruct (decide (ws ∈ subs)).
  - by case_decide.
  - simpl. symmetry. by apply difference_disjoint_L, disjoint_singleton_r.
Qed.

Lemma NoDup_rooms_of ws σ : ordered σ → NoDup (rooms_of ws σ).
Proof. intros [Hnd _]. unfold rooms_of. by apply NoDup_filter. Qed.

Lemma elem_of_rooms_of ws σ room :
  ordered σ → room ∈ rooms_of ws σ ↔ ws ∈ members σ room.
Proof.
  intros [_ Hkeys]. unfold rooms_of. rewrite list_elem_of_filter. split; [by intros [? _] |].
  intros Hin. split; [done |]. apply Hkeys. unfold members in Hin.
  destruct (ROOMS σ !! room); [done | set_solver].
Qed.

Lemma NoDup_concat_fmap {A B} (f : A → list B) (l : list A) :
  NoDup l → (∀ x, x ∈ l → NoDup (f x)) →
  (∀ x y b, x ∈ l → y ∈ l → b ∈ f x → b ∈ f y → x = y) →
  NoDup (concat (f <$> l)).
Proof.
  induction 1 as [| x l Hx Hnd IH]; intros Hf Hdis; simpl; [constructor |].
  apply NoDup_app. split; [| split].
  - apply Hf. by left.
  - intros b Hb (k & (y & -> & Hy)%list_elem_of_fmap & Hb')%elem_of_concat.
    assert (x = y) as -> by (eapply Hdis; [by left | by right | done | done]).
    done.
  - apply IH.
    + intros y Hy. apply Hf. by right.
    + intros y z b Hy Hz. apply Hdis; by right.
Qed.

Lemma NoDup_to_all members payload : NoDup (to_all members payload).
Proof.
  unfold to_all. apply NoDup_fmap; [| apply NoDup_elements].
  by intros x y [= ->].
Qed.

Lemma NoDup_notices username σ room : NoDup (notices username σ room).
Proof.
  rewrite notices_eq. apply NoDup_app. split; [| split]; try apply NoDup_to_all.
  intros e (x & -> & _)%list_elem_of_fmap (y & Hy & _)%list_elem_of_fmap. done.
Qed.

Lemma NoDup_cleanup username σ rooms :
  NoDup rooms → NoDup (concat (notices username σ <$> rooms)).
Proof.
  intros Hnd. apply NoDup_concat_fmap; [done | |].
  - intros room _. apply NoDup_notices.
  - intros r1 r2 e _ _. rewrite !notices_eq.
    intros [H1 | H1]%elem_of_app [H2 | H2]%elem_of_app;
      apply list_elem_of_fmap in H1 as (x & -> & _);
      apply list_elem_of_fmap in H2 as (y & [= ] & _); done.
Qed.

Lemma cleaned_logged_out ws username σ :
  USERS σ !! ws = Some username → cleaned ws σ = logged_out ws username σ.
Proof. intros Hu. unfold cleaned. by rewrite Hu. Qed.

Lemma cleanup_events_notices ws username σ :
  USERS σ !! ws = Some username →
  cleanup_events ws σ = concat (notices username (cleaned ws σ) <$> rooms_of ws σ).
Proof.
  intros Hu. unfold cleanup_events. rewrite Hu. f_equal.
  apply list_fmap_ext. intros _ room _. by rewrite notices_eq.
Qed.

Lemma disconnect_run ws σ :
  consistent σ →
  disconnect ws σ = Outcome (inl tt) (cleaned ws σ) (cleanup_events ws σ).
Proof.
  intros Hc. destruct (USERS σ !! ws) as [username |] eqn:Hu.
  - rewrite (cleanup_events_notices ws username), (cleaned_logged_out ws username) by done.
    apply disconnect_logged_in; [apply (rooms_ordered _ Hc) | done | by eapply names_nonempty].
  - rewrite disconnect_anonymous by done. unfold cleanup_events. rewrite Hu.
    f_equal. unfold cleaned. rewrite Hu.
    assert (prune ws (ROOMS σ) = ROOMS σ) as Hprune.
    { apply prune_id. intros room subs Hroom Hin.
      destruct (members_logged_in _ Hc room subs ws Hroom Hin) as [u Hu']. congruence. }
    apply state_eq; simpl; try done.
    + by rewrite delete_id.
    + unfold prune_order. rewrite Hprune. symmetry. apply filter_ext_all.
      intros room Hroom. by apply (rooms_ordered _ Hc).
Qed.

Lemma NoDup_cleanup_events ws σ : ordered σ → NoDup (cleanup_events ws σ).
Proof.
  intros Hord. destruct (USERS σ !! ws) as [username |] eqn:Hu.
  - rewrite (cleanup_events_notices ws username) by done.
    by apply NoDup_cleanup, NoDup_rooms_of.
  - unfold cleanup_events. rewrite Hu. constructor.
Qed.

(** C5. Whichever way the handler of a connection leaves (logout, an
    exception of the loop body, the end of the stream), [disconnect] runs
    once, as the last thing the handler does: the registry entry and the
    username are released, the connection is taken out of every room, each
    room it was in gets one leave notice and one membership list sent to
    each remaining member, room after room in the order in which the rooms
    were created, the connection is then in no room, a second [disconnect]
    does nothing, and nothing that arrives later for the connection is
    handled. *)
Theorem cleanup_on_exit (d : disk) (arrivals : list arrival) (a : arrival)
    (raised : option exn) :
  let s := reached d arrivals in
  let ws := arrival_conn a in
  ws ∉ returned s →
  exit_path ws (mem s) a raised →
  let σ1 := (before_exit ws a (mem s)).1 in
  let pre := (before_exit ws a (mem s)).2 in
  let s' := (step a s).1 in
  let out := (step a s).2 in
  (s' = Server (cleaned ws σ1) ({[ws]} ∪ returned s) ∧
   out = pre ++ exit_print ws raised ++ cleanup_events ws σ1 ∧
   disconnect ws σ1 = Outcome (inl tt) (cleaned ws σ1) (cleanup_events ws σ1)) ∧
  (USERS (mem s') !! ws = None ∧
   (∀ x, x ≠ ws → USERS (mem s') !! x = USERS σ1 !! x) ∧
   (∀ u, USERS σ1 !! ws = Some u →
         USERNAMES (mem s') = USERNAMES σ1 ∖ {[u]} ∧ u ∉ USERNAMES (mem s'))) ∧
  ((∀ room, members (mem s') room = members σ1 room ∖ {[ws]}) ∧
   (∀ room, ws ∉ members (mem s') room) ∧
   map_Forall (λ _ subs, ws ∉ subs) (ROOMS (mem s'))) ∧
  (NoDup (rooms_of ws σ1) ∧
   (∀ room, room ∈ rooms_of ws σ1 ↔ ws ∈ members σ1 room) ∧
   NoDup (cleanup_events ws σ1) ∧
   (∀ u room x, USERS σ1 !! ws = Some u → ws ∈ members σ1 room →
                x ∈ members (mem s') room →
                Send x (JDict [("type", JStr "system"); ("event", JStr "leave");
                               ("username", JStr u); ("room", JStr room)])
                  ∈ cleanup_events ws σ1 ∧
                Send x (JDict [("type", JStr "room_update"); ("room", JStr room);
                               ("users", JList (JStr <$> user_list (mem s') room))])
                  ∈ cleanup_events ws σ1)) ∧
  (disconnect ws (mem s') = Outcome (inl tt) (mem s') [] ∧
   ∀ a', arrival_conn a' = ws → step a' s' = (s', [])).
Proof.
  intros s ws Hlive Hexit σ1 pre s' out.
  destruct (exit_path_leaves _ _ _ _ Hexit) as [_ Hleaves].
  pose proof (step_leaves a s raised Hlive Hleaves) as Hstep. cbv zeta in Hstep.
  pose proof (safe_before_exit _ a (mem s) Hlive (server_ok_reached d arrivals)) as [Hc1 _].
  fold ws in Hstep, Hc1. fold σ1 in Hc1.
  rewrite (surjective_pairing (before_exit ws a (mem s))) in Hstep.
  fold σ1 pre in Hstep. rewrite (disconnect_run ws σ1 Hc1) in Hstep.
  cbn [final sent] in Hstep.
  assert (s' = Server (cleaned ws σ1) ({[ws]} ∪ returned s)) as Hs'
    by (subst s'; by rewrite Hstep).
  assert (mem s' = cleaned ws σ1) as Hmem by by rewrite Hs'.
  split; [| split; [| split; [| split]]].
  - split; [done |]. split; [subst out; by rewrite Hstep | by apply disconnect_run].
  - rewrite Hmem. simpl. split; [apply lookup_delete_eq |]. split.
    + intros x Hx. by apply lookup_delete_ne.
    + intros u ->. split; [done | set_solver].
  - assert (∀ room, members (mem s') room = members σ1 room ∖ {[ws]}) as Hmembers.
    { intros room. apply members_prune. by rewrite Hmem. }
    split; [done |]. split.
    + intros room. rewrite Hmembers. set_solver.
    + intros room subs Hroom. rewrite Hmem in Hroom. simpl in Hroom.
      by eapply prune_not_member.
  - pose proof (rooms_ordered _ Hc1) as Hord.
    split; [by apply NoDup_rooms_of |]. split; [intros room; by apply elem_of_rooms_of |].
    split; [by apply NoDup_cleanup_events |].
    intros u room x Hu Hin Hx. unfold cleanup_events. rewrite Hu, <- Hmem.
    split; apply elem_of_concat; eexists; (split;
      [apply list_elem_of_fmap; exists room; split;
         [reflexivity | by apply elem_of_rooms_of] |]);
      apply elem_of_app; [left | right]; by apply elem_of_to_all.
  - split.
    + rewrite Hmem. apply disconnect_anonymous. simpl. apply lookup_delete_eq.
    + intros a' Ha'. apply step_returned. rewrite Ha', Hs'. simpl. set_solver.
Qed.

Lemma cleanup_on_exit_witness :
  (step (Closed 1) (reached empty_disk two_rooms_arrivals)).2 =
    [Send 2 (JDict [("type", JStr "system"); ("event", JStr "leave");
                    ("username", JStr "alice"); ("room", JStr "sports")]);
     Send 2 (JDict [("type", JStr "room_update"); ("room", JStr "sports");
                    ("users", JList [JStr "bob"])]);
     Send 2 (JDict [("type", JStr "system"); ("event", JStr "leave");
                    ("username", JStr "alice"); ("room", JStr "general")]);
     Send 2 (JDict [("type", JStr "room_update"); ("room", JStr "general");
                    ("users", JList [JStr "bob"])])].
Proof.
  destruct (cleanup_on_exit empty_disk two_rooms_arrivals (Closed 1) None)
    as [(_ & Hout & _) _].
  - vm_compute. set_solver.
  - apply exit_closed.
  - rewrite Hout. vm_compute. reflexivity.
Defined.

(** The other two ways out, on the same state: Alice logs out; Bob sends a
    login whose username is a number while not logged in. *)
Example cleanup_after_logout :
  (step (Message 1 (request "logout" []) 9) (reached empty_disk pair_arrivals)).2 =
    [Send 2 (leave_notice "alice" "general");
     Send 2 (room_update "general" ["bob"])].
Proof. vm_compute. reflexivity. Qed.

Example cleanup_after_exception :
  (run (reached empty_disk pair_arrivals)
     [Message 3 (request "login" [("username", JInt 5)]) 9;
      Message 3 (login_as "carol") 10]).2 =
    [PrintUnexpected 3 AttributeError].
Proof. vm_compute. reflexivity. Qed.

(** ** A history that cannot be read *)

Lemma step_raises ws raw now s e σ1 pre :
  ws ∉ returned s →
  handler_body ws raw now (mem s) = Outcome (inr e) σ1 pre →
  step (Message ws raw now) s =
    (Server (final (disconnect ws σ1)) ({[ws]} ∪ returned s),
     pre ++ PrintUnexpected ws e :: sent (disconnect ws σ1)).
Proof.
  intros Hlive Hbody.
  pose proof (step_leaves (Message ws raw now) s (Some e) Hlive) as Hstep.
  unfold leaves, before_exit, arrival_conn in Hstep. rewrite Hbody in Hstep.
  by apply Hstep.
Qed.

Lemma run_bind_outcome {A B} (c : M A) (k : A → M B) σ a σ' out :
  c σ = Outcome (inl a) σ' out →
  bind c k σ = Outcome (result (k a σ')) (final (k a σ')) (out ++ sent (k a σ')).
Proof. intros Hc. unfold bind. by rewrite Hc. Qed.

Lemma members_after_subscribe ws room σ r x :
  x ∈ members (ROOMS_add room ws σ) r ↔
  x ∈ members σ r ∨ (x = ws ∧ r = room).
Proof.
  unfold members; simpl. destruct (decide (r = room)) as [-> |].
  - rewrite lookup_insert_eq; simpl. set_solver.
  - rewrite lookup_insert_ne by done. set_solver.
Qed.

Lemma subscribe_rooms_spec ws username rooms acc σ :
  result (subscribe_rooms ws username rooms acc σ) = inl (acc ++ wanted rooms) ∧
  (USERS (final (subscribe_rooms ws username rooms acc σ)) = USERS σ ∧
   USERNAMES (final (subscribe_rooms ws username rooms acc σ)) = USERNAMES σ ∧
   LOG_DIR (final (subscribe_rooms ws username rooms acc σ)) = LOG_DIR σ) ∧
  (∀ room x, x ∈ members (final (subscribe_rooms ws username rooms acc σ)) room ↔
             x ∈ members σ room ∨ (x = ws ∧ room ∈ wanted rooms)) ∧
  (∀ e, e ∈ sent (subscribe_rooms ws username rooms acc σ) ↔
        ∃ room x, room ∈ wanted rooms ∧ (ws ∉ members σ room) ∧ x ∈ members σ room ∧
                  e = Send x (system_room "join" username room)).
Proof.
  revert acc σ. induction rooms as [| room_str rooms IH]; intros acc σ.
  - cbn [subscribe_rooms wanted omap list_omap ret result final sent].
    rewrite app_nil_r. split; [done |]. split; [done |]. split.
    + intros room x. split; [by left |].
      intros [? | [_ ?%elem_of_nil]]; done.
    + intros e. split; [by intros ?%elem_of_nil |].
      intros (room & x & ?%elem_of_nil & _). done.
  - cbn [subscribe_rooms wanted omap list_omap].
    destruct (Py.is_empty (Py.strip (str room_str))) eqn:Hblank; [apply IH |].
    set (room := Py.strip (str room_str)). fold (wanted rooms).
    rewrite run_bind_read, run_bind_update.
    set (σ1 := ROOMS_add room ws σ).
    set (join := if bool_decide (ws ∉ default ∅ (ROOMS σ !! room))
                 then broadcast room (system_room "join" username room) (Some ws)
                 else ret tt).
    assert (quiet join) as Hq by (subst join; destruct (bool_decide _); auto with quiet).
    destruct (quiet_run join σ1 Hq) as [[] Hjoin].
    rewrite (run_bind_outcome _ _ σ1 tt σ1 _ Hjoin).
    cbn [result final sent].
    destruct (IH (acc ++ [room]) σ1) as (Hres & Hframe & Hmem & Hsent).
    assert (∀ r x, x ∈ members σ1 r ↔ x ∈ members σ r ∨ (x = ws ∧ r = room)) as Hm1
      by apply members_after_subscribe.
    split; [by rewrite Hres, <- app_assoc |]. split; [exact Hframe |]. split.
    + intros r x. rewrite Hmem, Hm1, elem_of_cons. naive_solver.
    + intros e. rewrite elem_of_app, Hsent.
      assert (e ∈ sent (join σ1) ↔
              (ws ∉ members σ room) ∧
              ∃ x, x ∈ members σ room ∧ e = Send x (system_room "join" username room))
        as ->.
      { subst join. unfold members. case_bool_decide as Hnew.
        - rewrite broadcast_sent. cbn [discard_opt]. unfold to_all.
          rewrite list_elem_of_fmap. setoid_rewrite elem_of_elements.
          setoid_rewrite elem_of_difference. setoid_rewrite Hm1.
          unfold members. set_solver.
        - split; [by intros ?%elem_of_nil | naive_solver]. }
      split.
      * intros [[Hnew (x & Hx & ->)] | (r & x & Hr & Hnew & Hx & ->)].
        -- exists room, x. split; [by left | done].
        -- exists r, x. rewrite !Hm1 in Hnew, Hx.
           split; [by right |]. naive_solver.
      * intros (r & x & [-> | Hr]%elem_of_cons & Hnew & Hx & ->); [left; eauto |].
        destruct (decide (r = room)) as [-> | Hne]; [left; eauto |].
        right. exists r, x. rewrite !Hm1. naive_solver.
Qed.

Lemma replayable_same σ τ room :
  LOG_DIR τ = LOG_DIR σ → replayable σ room → replayable τ room.
Proof. unfold replayable. by intros ->. Qed.

Lemma for_each_returns {A} (l : list A) (body : A → M unit) σ :
  (∀ x, x ∈ l → body x σ = Outcome (inl tt) σ (sent (body x σ))) →
  for_each l body σ = Outcome (inl tt) σ (concat ((λ x, sent (body x σ)) <$> l)).
Proof.
  induction l as [| x l IH]; intros Hall; [done |].
  cbn [for_each fmap list_fmap concat]. unfold bind at 1.
  rewrite (Hall x) by by left. cbn [result final sent].
  rewrite IH by (intros y Hy; apply Hall; by right). done.
Qed.

Lemma for_each_raises {A} (before after : list A) (x : A) (body : A → M unit) σ e out :
  (∀ y, y ∈ before → body y σ = Outcome (inl tt) σ (sent (body y σ))) →
  body x σ = Outcome (inr e) σ out →
  for_each (before ++ x :: after) body σ =
    Outcome (inr e) σ (concat ((λ y, sent (body y σ)) <$> before) ++ out).
Proof.
  induction before as [| y before IH]; intros Hall Hx.
  - cbn [app for_each fmap list_fmap concat]. unfold bind. by rewrite Hx.
  - cbn [app for_each fmap list_fmap concat]. unfold bind at 1.
    rewrite (Hall y) by by left. cbn [result final sent].
    rewrite IH by (done || intros z Hz; apply Hall; by right).
    cbn [result final sent]. by rewrite app_assoc.
Qed.

(** The subscribe request up to its second loop. *)
Lemma handle_subscribe_first ws data room_str rest username σ :
  USERS σ !! ws = Some username → Py.is_empty username = false →
  get "rooms" data = JList (room_str :: rest) →
  let o := subscribe_rooms ws username (room_str :: rest) [] σ in
  let second := for_each (wanted (room_str :: rest)) (replay ws) (final o) in
  handle_subscribe ws data σ =
    Outcome (result second) (final second)
      (sent o ++ confirmation ws (wanted (room_str :: rest)) ++ sent second).
Proof.
  intros Hu Hne Hrooms o second. unfold handle_subscribe.
  rewrite Hrooms. cbn [or_else truthy].
  rewrite run_bind_read, Hu, Hne.
  destruct (subscribe_rooms_spec ws username (room_str :: rest) [] σ) as (Hres & _).
  fold o in Hres. rewrite app_nil_l in Hres.
  rewrite (run_bind_outcome _ _ σ (wanted (room_str :: rest)) (final o) (sent o))
    by (rewrite <- Hres; apply outcome_eta).
  set (names := wanted (room_str :: rest)) in *.
  set (confirm := match names with
                  | [] => ret tt
                  | _ => send ws (system_rooms "subscribed" (strs names))
                  end).
  assert (quiet confirm) as Hc by (subst confirm; destruct names; auto with quiet).
  destruct (quiet_run confirm (final o) Hc) as [[] Hconfirm].
  rewrite (run_bind_outcome _ _ (final o) tt (final o) _ Hconfirm).
  fold second. cbn [result final sent].
  do 3 f_equal. subst confirm. unfold confirmation. by destruct names.
Qed.

Lemma handle_subscribe_run ws data room_str rest username σ :
  USERS σ !! ws = Some username → Py.is_empty username = false →
  get "rooms" data = JList (room_str :: rest) →
  (∀ room, room ∈ wanted (room_str :: rest) → replayable σ room) →
  handle_subscribe ws data σ =
    Outcome (inl tt)
      (final (subscribe_rooms ws username (room_str :: rest) [] σ))
      (sent (subscribe_rooms ws username (room_str :: rest) [] σ) ++
       confirmation ws (wanted (room_str :: rest)) ++
       concat ((λ room, sent (replay ws room
                 (final (subscribe_rooms ws username (room_str :: rest) [] σ))))
               <$> wanted (room_str :: rest))).
Proof.
  intros Hu Hne Hrooms Hall.
  rewrite (handle_subscribe_first ws data room_str rest username) by done. cbv zeta.
  destruct (subscribe_rooms_spec ws username (room_str :: rest) [] σ)
    as (_ & (_ & _ & Hdisk) & _).
  rewrite for_each_returns; [done |].
  intros room Hroom. apply replay_run, (replayable_same σ); [done | by apply Hall].
Qed.

(** The same request when the history of one of the rooms cannot be read:
    the rooms are joined and confirmed, the rooms before it are replayed,
    and the exception leaves the handler. *)
Lemma handle_subscribe_raises ws data room_str rest username before room after e σ :
  USERS σ !! ws = Some username → Py.is_empty username = false →
  get "rooms" data = JList (room_str :: rest) →
  wanted (room_str :: rest) = before ++ room :: after →
  (∀ r, r ∈ before → replayable σ r) →
  result (tail_room_log room 50 σ) = inr e →
  let σ' := final (subscribe_rooms ws username (room_str :: rest) [] σ) in
  handle_subscribe ws data σ =
    Outcome (inr e) σ'
      (sent (subscribe_rooms ws username (room_str :: rest) [] σ) ++
       confirmation ws (wanted (room_str :: rest)) ++
       concat ((λ r, sent (replay ws r σ')) <$> before) ++
       sent (tail_room_log room 50 σ')).
Proof.
  intros Hu Hne Hrooms Hwanted Hall Hres σ'.
  rewrite (handle_subscribe_first ws data room_str rest username) by done. cbv zeta.
  destruct (subscribe_rooms_spec ws username (room_str :: rest) [] σ)
    as (_ & (_ & _ & Hdisk) & _).
  fold σ' in Hdisk |- *. rewrite Hwanted.
  assert (result (tail_room_log room 50 σ') = inr e) as Hres'.
  { rewrite tail_room_log_run in Hres |- *. rewrite Hdisk.
    repeat (case_decide || case_match); simplify_eq/=; done. }
  rewrite (for_each_raises before after room (replay ws) σ' e
             (sent (tail_room_log room 50 σ'))).
  - done.
  - intros r Hr. apply replay_run, (replayable_same σ); [done | by apply Hall].
  - by apply replay_raises.
Qed.

Lemma wanted_trimmed names :
  (∀ r, r ∈ names → trimmed r) → wanted (JStr <$> names) = names.
Proof.
  induction names as [| name names IH]; intros Hall; [done |].
  destruct (Hall name) as [Hstrip Hne]; [by left |].
  rewrite fmap_cons. unfold wanted. cbn [omap list_omap str].
  rewrite Hstrip, Hne. fold (wanted (JStr <$> names)). f_equal.
  apply IH. intros r Hr. apply Hall. by right.
Qed.

Lemma subscribe_rooms_first ws username room acc σ :
  trimmed room → ws ∉ members σ room →
  subscribe_rooms ws username [JStr room] acc σ =
    Outcome (inl (acc ++ [room])) (ROOMS_add room ws σ)
      (to_all (members σ room) (system_room "join" username room)).
Proof.
  intros [Hstrip Hne] Hnew. cbn [subscribe_rooms str]. rewrite Hstrip, Hne.
  rewrite run_bind_read, run_bind_update.
  fold (members σ room). rewrite bool_decide_eq_true_2 by done.
  pose proof (broadcast_sent room (system_room "join" username room) (Some ws)
                (ROOMS_add room ws σ)) as Hsent.
  destruct (quiet_run (broadcast room (system_room "join" username room) (Some ws))
              (ROOMS_add room ws σ) (quiet_broadcast _ _ _)) as [[] Hrun].
  rewrite (run_bind_outcome _ _ _ tt _ _ Hrun). cbn [ret result final sent].
  rewrite app_nil_r, Hsent. do 2 f_equal. cbn [discard_opt].
  apply set_eq. intros x. rewrite elem_of_difference, members_after_subscribe.
  rewrite elem_of_singleton. split; [| intros Hx; split; [by left | by intros ->]].
  intros [[Hx | [-> _]] Hne']; done.
Qed.

(** A logged-in connection subscribes to a room it is not in and whose log
    has a name the file system refuses: the history read raises after the
    confirmation, and the handler leaves through [disconnect]. *)
Lemma subscribe_to_refused_name (d : disk) (arrivals : list arrival)
    (ws : conn) (username room : string) (now : Z) :
  let s := reached d arrivals in
  ws ∉ returned s →
  USERS (mem s) !! ws = Some username →
  Py.strip room = room → Py.is_empty room = false →
  ws ∉ members (mem s) room →
  log_path_for room ∈ name_error (LOG_DIR (mem s)) →
  let σ1 := ROOMS_add room ws (mem s) in
  let s' := (step (Message ws (subscribe_to [room]) now) s).1 in
  let out := (step (Message ws (subscribe_to [room]) now) s).2 in
  (∀ n, tail_room_log room n σ1 = Outcome (inr OSError) σ1 []) ∧
  s' = Server (cleaned ws σ1) ({[ws]} ∪ returned s) ∧
  out = to_all (members (mem s) room)
          (JDict [("type", JStr "system"); ("event", JStr "join");
                  ("room", JStr room); ("username", JStr username)]) ++
        [Send ws (JDict [("type", JStr "system"); ("event", JStr "subscribed");
                         ("rooms", JList [JStr room])]);
         PrintUnexpected ws OSError] ++
        cleanup_events ws σ1 ∧
  (∀ payload, Send ws payload ∈ out →
              payload = JDict [("type", JStr "system"); ("event", JStr "subscribed");
                               ("rooms", JList [JStr room])]) ∧
  ws ∈ returned s' ∧ USERS (mem s') !! ws = None ∧ (∀ r, ws ∉ members (mem s') r).
Proof.
  intros s Hlive Hu Hstrip Hroom Hnew Hname σ1 s' out.
  destruct (server_ok_run arrivals (boot d) (server_ok_boot d)) as [Hc _].
  fold (reached d arrivals) in Hc. fold s in Hc.
  pose proof (names_nonempty _ Hc _ _ Hu) as Hne.
  assert (consistent σ1) as Hc1 by (apply consistent_subscribe; [done | by rewrite Hu]).
  assert (∀ n, tail_room_log room n σ1 = Outcome (inr OSError) σ1 []) as Htail
    by (intros n; by apply tail_room_log_name).
  set (data := [("action", JStr "subscribe"); ("rooms", strs [room])]).
  pose proof (subscribe_rooms_first ws username room [] (mem s) (conj Hstrip Hroom) Hnew)
    as Hfirst.
  rewrite app_nil_l in Hfirst. fold σ1 in Hfirst.
  assert (wanted [JStr room] = [room]) as Hwanted
    by (apply (wanted_trimmed [room]); by intros r ->%list_elem_of_singleton).
  assert (handle_subscribe ws data (mem s) =
          Outcome (inr OSError) σ1
            (to_all (members (mem s) room) (system_room "join" username room) ++
             [Send ws (system_rooms "subscribed" (strs [room]))])) as Hsub.
  { rewrite (handle_subscribe_raises ws data (JStr room) [] username [] room [] OSError);
      try done.
    - cbv zeta. rewrite Hfirst, Hwanted. cbn [final sent fmap list_fmap concat confirmation].
      rewrite Htail. cbn [sent]. by rewrite !app_nil_r.
    - by intros r ?%elem_of_nil.
    - by rewrite tail_room_log_name. }
  assert (step (Message ws (subscribe_to [room]) now) s =
          (Server (cleaned ws σ1) ({[ws]} ∪ returned s),
           (to_all (members (mem s) room) (system_room "join" username room) ++
            [Send ws (system_rooms "subscribed" (strs [room]))]) ++
           PrintUnexpected ws OSError :: cleanup_events ws σ1)) as Hstep.
  { unfold subscribe_to, request. fold data.
    rewrite (step_raises ws _ now s OSError σ1
               (to_all (members (mem s) room) (system_room "join" username room) ++
                [Send ws (system_rooms "subscribed" (strs [room]))])); [| done |].
    - by rewrite (disconnect_run ws σ1 Hc1).
    - rewrite handler_body_subscribe by (done || by rewrite Hu).
      by apply then_raise. }
  assert (∀ r, members (cleaned ws σ1) r = members σ1 r ∖ {[ws]}) as Hmembers
    by (intros r; by apply members_prune).
  subst s' out. rewrite Hstep. cbn [fst snd mem returned].
  split; [exact Htail |]. split; [done |]. split; [by rewrite <- app_assoc |].
  split; [| split; [set_solver | split; [apply lookup_delete_eq |]]].
  - intros payload. rewrite !elem_of_app, !elem_of_cons.
    intros [[(x & [= -> _] & Hx%elem_of_elements)%list_elem_of_fmap
            | [[= ->] | ?%elem_of_nil]] | [| Hin]];
      try done.
    rewrite (cleanup_events_notices ws username) in Hin by done.
    apply elem_of_cleanup in Hin as (r & x & _ & Hx & [[= -> _] | [= -> _]]);
      rewrite Hmembers in Hx; set_solver.
  - intros r. rewrite Hmembers. set_solver.
Qed.

(** The history of a replay once fifty records or more are at the end of
    the log: the last fifty, oldest first. *)
Lemma replay_sends_last_fifty ws room earlier (records : list json) σ :
  log_path_for room ∉ name_error (LOG_DIR σ) →
  log_path_for room ∉ read_error (LOG_DIR σ) →
  files (LOG_DIR σ) !! log_path_for room = Some (earlier ++ (Parsed <$> records)) →
  (50 ≤ length records)%nat →
  sent (replay ws room σ) =
    Send ws (history_msg room (drop (length records - 50) records)) ::
    to_all (members σ room) (room_update room (user_list σ room)).
Proof.
  intros Hname Hread Hfile Hlen.
  pose proof (replay_history_bound room earlier records σ Hname Hfile Hread Hlen) as Htail.
  rewrite replay_sent by (apply tail_returns; rewrite Htail; by eexists).
  unfold history_events. rewrite Htail. cbn [result sent app].
  destruct (drop (length records - 50) records) as [| record history] eqn:Hdrop; [| done].
  apply (f_equal length) in Hdrop. rewrite length_drop in Hdrop. simpl in Hdrop. lia.
Qed.

(** C6. For a positive [n] and a room whose log name the file system takes,
    [tail_room_log] returns no record when the room has no log file; it
    returns the records among the last [n] lines of a log that can be read,
    in file order, blank and malformed lines skipped, when [json.loads]
    refuses none of these lines; and a replay for a log that ends with fifty
    written records or more sends exactly the last fifty, oldest first.  At
    the failing input, a logged-in connection subscribes to a room it is
    not in and whose log has a name the file system refuses (a room name of
    300 letters, where a file name has at most 255 bytes): the test
    [p.exists()] raises [OSError], for every [n], where the claim has the
    empty sequence for a room with no log.  The connection has been put in
    the room and is sent the confirmation; it is sent no history and no
    member list, the exception is printed, and its handler leaves through
    [disconnect]. *)
Theorem history_tail_and_refused_name :
  (∀ room n σ,
     (0 < n)%Z →
     log_path_for room ∉ name_error (LOG_DIR σ) →
     match files (LOG_DIR σ) !! log_path_for room with
     | None => tail_room_log room n σ = Outcome (inl []) σ []
     | Some lines =>
         log_path_for room ∉ read_error (LOG_DIR σ) →
         refused (drop (length lines - Z.to_nat n) lines) = None →
         let records := parse_lines (drop (length lines - Z.to_nat n) lines) in
         tail_room_log room n σ = Outcome (inl records) σ [] ∧
         (length records ≤ Z.to_nat n)%nat ∧
         ∃ earlier, parse_lines lines = earlier ++ records
     end) ∧
  (∀ ws room earlier (records : list json) σ,
     log_path_for room ∉ name_error (LOG_DIR σ) →
     log_path_for room ∉ read_error (LOG_DIR σ) →
     files (LOG_DIR σ) !! log_path_for room = Some (earlier ++ (Parsed <$> records)) →
     (50 ≤ length records)%nat →
     tail_room_log room 50 σ =
       Outcome (inl (drop (length records - 50) records)) σ [] ∧
     sent (replay ws room σ) =
       Send ws (JDict [("type", JStr "history"); ("room", JStr room);
                       ("messages", JList (drop (length records - 50) records))]) ::
       to_all (members σ room) (room_update room (user_list σ room))) ∧
  (∀ d arrivals ws username room now,
     let s := reached d arrivals in
     ws ∉ returned s →
     USERS (mem s) !! ws = Some username →
     Py.strip room = room → Py.is_empty room = false →
     ws ∉ members (mem s) room →
     log_path_for room ∈ name_error (LOG_DIR (mem s)) →
     let σ1 := ROOMS_add room ws (mem s) in
     let s' := (step (Message ws (subscribe_to [room]) now) s).1 in
     let out := (step (Message ws (subscribe_to [room]) now) s).2 in
     (∀ n, tail_room_log room n σ1 = Outcome (inr OSError) σ1 []) ∧
     s' = Server (cleaned ws σ1) ({[ws]} ∪ returned s) ∧
     out = to_all (members (mem s) room)
             (JDict [("type", JStr "system"); ("event", JStr "join");
                     ("room", JStr room); ("username", JStr username)]) ++
           [Send ws (JDict [("type", JStr "system"); ("event", JStr "subscribed");
                            ("rooms", JList [JStr room])]);
            PrintUnexpected ws OSError] ++
           cleanup_events ws σ1 ∧
     (∀ payload, Send ws payload ∈ out →
                 payload = JDict [("type", JStr "system"); ("event", JStr "subscribed");
                                  ("rooms", JList [JStr room])]) ∧
     ws ∈ returned s' ∧ USERS (mem s') !! ws = None ∧ (∀ r, ws ∉ members (mem s') r)).
Proof.
  split; [| split].
  - intros room n σ Hn Hname.
    destruct (files (LOG_DIR σ) !! log_path_for room) as [lines |] eqn:Hfile.
    + intros Hread Hload records.
      destruct (tail_positive n lines Hn) as [Hsuffix Hlen].
      rewrite slice_from_last in Hsuffix, Hlen by done.
      split; [| split; [exact Hlen | by eexists]].
      rewrite (tail_room_log_read room n lines) by (done || by rewrite slice_from_last).
      by rewrite slice_from_last.
    + by apply tail_room_log_missing.
  - intros ws room earlier records σ Hname Hread Hfile Hlen. split.
    + by apply (replay_history_bound room earlier).
    + by apply (replay_sends_last_fifty ws room earlier).
  - intros d arrivals ws username room now. apply subscribe_to_refused_name.
Qed.

(** A log of four lines, the last three of which are read.  Then Alice,
    logged in over a file system that refuses the log name of the long
    room, with no file in the log directory, subscribes to that room: the
    history read raises, and what she gets is the confirmation and the end
    of her session. *)
Lemma history_tail_and_refused_name_witness :
  tail_room_log "general" 3
    (initial (Disk {["general.txt" := [Parsed (JInt 1); Malformed; Parsed (JInt 2); Blank]]}
                   ∅ ∅ ∅)) =
    Outcome (inl [JInt 2])
      (initial (Disk {["general.txt" := [Parsed (JInt 1); Malformed; Parsed (JInt 2); Blank]]}
                     ∅ ∅ ∅)) [] ∧
  files short_names_disk = ∅ ∧
  result (tail_room_log long_room 50
            (mem (reached short_names_disk [Message 1 (login_as "alice") 0]))) =
    inr OSError ∧
  (step (Message 1 (subscribe_to [long_room]) 1)
        (reached short_names_disk [Message 1 (login_as "alice") 0])).2 =
    [Send 1 (JDict [("type", JStr "system"); ("event", JStr "subscribed");
                    ("rooms", JList [JStr long_room])]);
     PrintUnexpected 1 OSError] ∧
  1 ∈ returned (step (Message 1 (subscribe_to [long_room]) 1)
                     (reached short_names_disk [Message 1 (login_as "alice") 0])).1.
Proof.
  destruct history_tail_and_refused_name as (Htail & _ & Hstep).
  split.
  - specialize (Htail "general" 3%Z
      (initial (Disk {["general.txt" :=
                         [Parsed (JInt 1); Malformed; Parsed (JInt 2); Blank]]} ∅ ∅ ∅))).
    destruct Htail as (Hres & _); [lia | vm_compute; set_solver | ..].
    + vm_compute. set_solver.
    + vm_compute. reflexivity.
    + etrans; [exact Hres |]. vm_compute. reflexivity.
  - destruct (Hstep short_names_disk [Message 1 (login_as "alice") 0] 1 "alice"
                long_room 1%Z)
      as (_ & _ & Hout & _ & Hgone & _).
    + vm_compute. set_solver.
    + vm_compute. reflexivity.
    + vm_compute. reflexivity.
    + vm_compute. reflexivity.
    + vm_compute. set_solver.
    + vm_compute. set_solver.
    + split; [reflexivity |]. split; [vm_compute; reflexivity |].
      split; [| exact Hgone].
      rewrite Hout. vm_compute. reflexivity.
Defined.

(** * Further properties of the server *)

(** ** Induction over the runs of the server *)

(** A property of the state that holds at start-up and is kept by the five
    changes the handlers make (a record appended to a log, a login, a
    subscription, a member removed from a room, a logout) holds after every
    run. *)
Section RunInduction.
Context (I : state → Prop) (acts : conn → Prop).
Hypothesis I_appended : ∀ σ room username message ts,
  consistent σ → I σ →
  log_path_for room ∉ write_error (LOG_DIR σ) →
  I (appended room (message_record room username message ts) σ).
Hypothesis I_logged_in : ∀ σ ws name,
  acts ws → consistent σ → I σ → USERS σ !! ws = None →
  Py.is_empty (Py.strip name) = false → Py.strip name ∉ USERNAMES σ →
  I (logged_in ws (Py.strip name) σ).
Hypothesis I_subscribed : ∀ σ ws room_str,
  acts ws → consistent σ → I σ → is_Some (USERS σ !! ws) →
  Py.is_empty (Py.strip (str room_str)) = false →
  I (ROOMS_add (Py.strip (str room_str)) ws σ).
Hypothesis I_removed : ∀ σ ws room subs,
  acts ws → consistent σ → I σ → ROOMS σ !! room = Some subs → ws ∈ subs →
  I (final (remove_member ws room subs σ)).
Hypothesis I_logged_out : ∀ σ ws username,
  acts ws → consistent σ → I σ → USERS σ !! ws = Some username →
  I (logged_out ws username σ).

Section Turn.
Context (gone : gset conn) (ws : conn) (Hlive : ws ∉ gone) (Hact : acts ws).

Lemma kept_handle_login data σ :
  safe_and gone I σ → USERS σ !! ws = None →
  safe_and gone I (final (handle_login ws data σ)).
Proof.
  intros [Hs HI] Hnone. split; [by apply safe_handle_login |].
  destruct (get_or "username" (JStr "") data) as [| | | name | |] eqn:Hget;
    try (rewrite handle_login_other; [done | intros ?; congruence]).
  rewrite (handle_login_run _ _ name) by done.
  destruct (Py.is_empty (Py.strip name)) eqn:Hne; [done |].
  case_decide; [done |]. apply I_logged_in; try done. apply Hs.
Qed.

Lemma kept_subscribe_rooms username rooms acc :
  preserves (λ σ, safe_and gone I σ ∧ is_Some (USERS σ !! ws))
            (subscribe_rooms ws username rooms acc).
Proof.
  revert acc. induction rooms as [| room_str rooms IH]; intros acc; simpl.
  - apply preserves_ret.
  - destruct (Py.is_empty (Py.strip (str room_str))) eqn:Hne; [apply IH |].
    apply preserves_bind; [by apply preserves_quiet, quiet_read | intros σ0].
    apply preserves_bind.
    { apply preserves_update. intros σ [[[Hc Hr] HI] Hws].
      split; [split; [split |] |]; try done.
      - by apply consistent_subscribe.
      - by apply I_subscribed. }
    intros _. apply preserves_bind; [| intros _; apply IH].
    apply preserves_quiet. destruct (bool_decide _); auto with quiet.
Qed.

Lemma kept_handle_subscribe data :
  preserves (safe_and gone I) (handle_subscribe ws data).
Proof.
  unfold handle_subscribe.
  destruct (or_else (get "rooms" data) (JList [])) as [| | | | [| room_str rest] |];
    try (apply preserves_quiet; solve [auto with quiet]).
  apply preserves_read_bind. intros σ Hs.
  destruct (USERS σ !! ws) as [username |] eqn:Hu; [| done].
  destruct (Py.is_empty username); [done |].
  assert (safe_and gone I σ ∧ is_Some (USERS σ !! ws)) as Hw
    by (split; [done | by rewrite Hu]).
  revert σ Hw Hs Hu.
  enough (preserves (λ σ, safe_and gone I σ ∧ is_Some (USERS σ !! ws))
    (newly <~ subscribe_rooms ws username (room_str :: rest) [];;
     (match newly with
      | [] => ret tt
      | _ => send ws (system_rooms "subscribed" (strs newly))
      end);;; for_each newly (replay ws))) as Hp.
  { intros σ Hw _ _. by apply Hp. }
  apply preserves_bind; [apply kept_subscribe_rooms | intros newly].
  apply preserves_steady. apply steady_bind.
  - apply steady_quiet. destruct newly; auto with quiet.
  - intros _. apply steady_for_each. intros room. apply steady_replay.
Qed.

Lemma kept_unsubscribe_rooms username rooms acc :
  preserves (safe_and gone I) (unsubscribe_rooms ws username rooms acc).
Proof.
  revert acc. induction rooms as [| room rooms IH]; intros acc; simpl.
  - apply preserves_ret.
  - intros σ Hs.
    destruct room as [| b | z | r | l | d]; simpl;
      try (by apply IH); try done.
    destruct (ROOMS σ !! r) as [subs |] eqn:Hr; simpl.
    + case_decide as Hmem.
      * rewrite final_bind, remove_member_result.
        rewrite final_bind_quiet by apply quiet_leave_and_update.
        apply IH. destruct Hs as [[Hc Hrel] HI]. split; [split |].
        -- by apply consistent_remove_member.
        -- rewrite remove_member_run. cbn [final]. by case_decide.
        -- apply I_removed; try done. apply Hmem.
      * by apply IH.
    + by apply IH.
Qed.

Lemma kept_handle_unsubscribe data :
  preserves (safe_and gone I) (handle_unsubscribe ws data).
Proof.
  unfold handle_unsubscribe. apply preserves_read_bind. intros σ Hs.
  destruct (USERS σ !! ws) as [username |]; [| done].
  destruct (Py.is_empty username); [done |].
  revert σ Hs. apply preserves_bind.
  - destruct (or_else (get "rooms" data) (JList []));
      (apply preserves_ret || apply preserves_raise).
  - intros rooms. apply preserves_bind; [apply kept_unsubscribe_rooms |].
    intros done_rooms. apply preserves_quiet. destruct done_rooms; auto with quiet.
Qed.

Lemma kept_handle_publish data now :
  preserves (safe_and gone I) (handle_publish ws data now).
Proof.
  unfold handle_publish. apply preserves_read_bind. intros σ Hs.
  destruct (_ || _); [done |].
  rewrite final_bind, append_room_log_run.
  case_decide; [done |]. cbn [result final].
  rewrite (quiet_final _ _ (quiet_broadcast _ _ _)).
  destruct Hs as [[Hc Hr] HI]. split; [split |].
  - by apply consistent_set_files.
  - done.
  - by apply I_appended.
Qed.

Lemma kept_disconnect : preserves (safe_and gone I) (disconnect ws).
Proof.
  intros σ [Hs HI]. split; [by apply preserves_disconnect |].
  destruct Hs as [Hc _].
  destruct (USERS σ !! ws) as [username |] eqn:Hu.
  - rewrite (disconnect_logged_in ws username)
      by (done || apply (rooms_ordered _ Hc) || by eapply names_nonempty).
    by apply I_logged_out.
  - by rewrite disconnect_anonymous.
Qed.

Lemma kept_handler_body raw now :
  preserves (safe_and gone I) (handler_body ws raw now).
Proof.
  assert (∀ c : M unit, preserves (safe_and gone I) c →
          preserves (safe_and gone I) (c ;;; ret Continue)) as Hthen.
  { intros c Hc. apply preserves_bind; [done | intros _; apply preserves_ret]. }
  unfold handler_body.
  destruct raw as [| | r | [| | | | | data]];
    try (apply Hthen, preserves_quiet; solve [auto with quiet]);
    try apply preserves_raise.
  apply preserves_read_bind. intros σ Hs.
  destruct (negb _ && _) eqn:Hgate; [done |].
  destruct (is_action _ "login") eqn:Hlogin.
  { simpl in Hgate. rewrite final_bind.
    case_bool_decide as Hnone.
    - pose proof (kept_handle_login data σ Hs Hnone) as Hl.
      by destruct (result (handle_login ws data σ)).
    - done. }
  destruct (is_action _ "subscribe");
    [revert σ Hs Hgate; intros σ Hs _; revert σ Hs;
     apply Hthen, kept_handle_subscribe |].
  destruct (is_action _ "unsubscribe");
    [revert σ Hs Hgate; intros σ Hs _; revert σ Hs;
     apply Hthen, kept_handle_unsubscribe |].
  destruct (is_action _ "publish");
    [revert σ Hs Hgate; intros σ Hs _; revert σ Hs;
     apply Hthen, kept_handle_publish |].
  destruct (is_action _ "logout"); [done |].
  revert σ Hs Hgate; intros σ Hs _; revert σ Hs.
  apply Hthen, preserves_quiet. auto with quiet.
Qed.
End Turn.

Lemma kept_step a s :
  acts (arrival_conn a) →
  safe_and (returned s) I (mem s) →
  safe_and (returned (step a s).1) I (mem (step a s).1).
Proof.
  intros Hact Hk. destruct (decide (arrival_conn a ∈ returned s)) as [Hin | Hlive].
  { by rewrite step_returned. }
  destruct (leaves (arrival_conn a) a (mem s)) as [raised |] eqn:Hl.
  - pose proof (step_leaves a s raised Hlive Hl) as Hstep. cbv zeta in Hstep.
    assert (safe_and (returned s) I (before_exit (arrival_conn a) a (mem s)).1) as Hk1.
    { destruct a as [ws raw now | ws]; cbn [before_exit fst]; [| done].
      by apply kept_handler_body. }
    destruct (before_exit (arrival_conn a) a (mem s)) as [σ1 pre].
    cbn [fst] in Hk1. rewrite Hstep. cbn [fst mem returned].
    destruct (kept_disconnect (returned s) (arrival_conn a) Hact σ1 Hk1) as [[Hc Hr] HI].
    split; [split; [done |] | done].
    intros x [Hx | Hx]%elem_of_union; [| by apply Hr].
    apply elem_of_singleton in Hx as ->.
    rewrite disconnect_USERS. apply lookup_delete_eq.
  - rewrite step_stays by done. cbn [fst mem returned].
    destruct (handler_turn_stays a (mem s) Hl) as (raw & now & _ & -> & _).
    by apply kept_handler_body.
Qed.

Lemma kept_run arrivals s :
  Forall (λ a, acts (arrival_conn a)) arrivals →
  safe_and (returned s) I (mem s) →
  safe_and (returned (run s arrivals).1) I (mem (run s arrivals).1).
Proof.
  revert s. induction arrivals as [| a rest IH]; intros s Hacts Hk; simpl; [done |].
  apply Forall_cons in Hacts as [Hact Hacts].
  pose proof (kept_step a s Hact Hk) as Hstep.
  destruct (step a s) as [s' out]. specialize (IH s' Hacts Hstep).
  by destruct (run s' rest).
Qed.
End RunInduction.

(** Induction over the states the server reaches. *)
Lemma reached_ind (I : state → Prop) :
  (∀ σ room username message ts,
     consistent σ → I σ →
     log_path_for room ∉ write_error (LOG_DIR σ) →
     I (appended room (message_record room username message ts) σ)) →
  (∀ σ ws name,
     consistent σ → I σ → USERS σ !! ws = None →
     Py.is_empty (Py.strip name) = false → Py.strip name ∉ USERNAMES σ →
     I (logged_in ws (Py.strip name) σ)) →
  (∀ σ ws room_str,
     consistent σ → I σ → is_Some (USERS σ !! ws) →
     Py.is_empty (Py.strip (str room_str)) = false →
     I (ROOMS_add (Py.strip (str room_str)) ws σ)) →
  (∀ σ ws room subs,
     consistent σ → I σ → ROOMS σ !! room = Some subs → ws ∈ subs →
     I (final (remove_member ws room subs σ))) →
  (∀ σ ws username,
     consistent σ → I σ → USERS σ !! ws = Some username →
     I (logged_out ws username σ)) →
  ∀ d arrivals, I (initial d) → I (mem (reached d arrivals)).
Proof.
  intros Happended Hlogged_in Hsubscribed Hremoved Hlogged_out d arrivals Hinit.
  apply (kept_run I (λ _, True)) with (arrivals := arrivals) (s := boot d); auto.
  - by apply Forall_true.
  - split; [apply server_ok_boot | done].
Qed.

(** ** Stored names are trimmed *)

Lemma rstrip_idem s : Py.rstrip (Py.rstrip s) = Py.rstrip s.
Proof.
  induction s as [| c s IH]; simpl; [done |].
  destruct (Py.isspace c && Py.is_empty (Py.rstrip s)) eqn:Hc; [done |].
  simpl. by rewrite IH, Hc.
Qed.

Lemma lstrip_head s :
  Py.lstrip s = "" ∨ ∃ c t, Py.lstrip s = String c t ∧ Py.isspace c = false.
Proof.
  induction s as [| c s IH]; simpl; [by left |].
  destruct (Py.isspace c) eqn:Hc; [done |]. right. by exists c, s.
Qed.

Lemma strip_idem s : Py.strip (Py.strip s) = Py.strip s.
Proof.
  unfold Py.strip. destruct (lstrip_head s) as [-> | (c & t & -> & Hc)]; [done |].
  simpl. rewrite Hc. simpl. rewrite Hc. simpl. by rewrite rstrip_idem, Hc.
Qed.

Lemma trimmed_strip s : Py.is_empty (Py.strip s) = false → trimmed (Py.strip s).
Proof. intros Hne. split; [apply strip_idem | done]. Qed.

Lemma tidy_reached d arrivals : tidy (mem (reached d arrivals)).
Proof.
  apply reached_ind.
  - intros σ room username message ts _ Ht _. exact Ht.
  - intros σ ws name _ [Hu Hr] _ Hne _. split; [| exact Hr].
    intros x u Hx. simpl in Hx.
    apply lookup_insert_Some in Hx as [[_ <-] | [_ Hx]]; [by apply trimmed_strip | eauto].
  - intros σ ws room_str _ [Hu Hr] _ Hne. split; [exact Hu |].
    intros room subs Hroom. simpl in Hroom.
    apply lookup_insert_Some in Hroom as [[<- _] | [_ Hroom]];
      [by apply trimmed_strip | eauto].
  - intros σ ws room subs _ [Hu Hr] Hroom _. rewrite remove_member_run. cbn [final].
    split; [by case_decide |]. intros r subs'. case_decide; simpl.
    + intros [_ Hr']%lookup_delete_Some. eauto.
    + intros [[<- _] | [_ Hr']]%lookup_insert_Some; eauto.
  - intros σ ws username _ [Hu Hr] _. split.
    + intros x u Hx. simpl in Hx. apply lookup_delete_Some in Hx as [_ Hx]. eauto.
    + intros room subs Hroom. simpl in Hroom.
      apply prune_lookup_Some in Hroom as (old & Hold & _). eauto.
  - split; intros ? ?; simpl; by rewrite lookup_empty.
Qed.

(** X1. After any run, every username in the registry and in the username
    set, and every room name in the directory, is non-empty and has no
    whitespace at either end: both are stored as [strip] leaves them. *)
Theorem stored_names_are_trimmed (d : disk) (arrivals : list arrival) :
  let σ := mem (reached d arrivals) in
  (∀ ws u, USERS σ !! ws = Some u → Py.strip u = u ∧ Py.is_empty u = false) ∧
  (∀ u, u ∈ USERNAMES σ → Py.strip u = u ∧ Py.is_empty u = false) ∧
  (∀ room subs, ROOMS σ !! room = Some subs →
                Py.strip room = room ∧ Py.is_empty room = false).
Proof.
  intros σ. destruct (tidy_reached d arrivals) as [Hu Hr].
  destruct (server_ok_reached d arrivals) as [Hc _]. fold σ in Hu, Hr, Hc.
  split; [exact Hu |]. split; [| exact Hr].
  intros u [ws Hws]%(names_claimed _ Hc). exact (Hu ws u Hws).
Qed.

(** ** Subscribers are logged in *)

(** X2. After any run, every subscriber of every room has a username in the
    registry, and its handler is still running: a connection that has not
    logged in, or whose handler has returned, is in no room. *)
Theorem subscribers_are_logged_in (d : disk) (arrivals : list arrival) :
  let s := reached d arrivals in
  map_Forall
    (λ _ (subs : gset conn),
       ∀ ws, ws ∈ subs → is_Some (USERS (mem s) !! ws) ∧ ws ∉ returned s)
    (ROOMS (mem s)).
Proof.
  intros s room subs Hroom ws Hws.
  destruct (server_ok_reached d arrivals) as [Hc Hr]. fold s in Hc, Hr.
  pose proof (members_logged_in _ Hc room subs ws Hroom Hws) as [u Hu].
  split; [by exists u |]. intros Hgone. apply Hr in Hgone. congruence.
Qed.

(** ** The logs only grow *)




(** ** Messages that are answered with an error *)

(** X4. A message that [json.loads] rejects as not being JSON, or for which
    it returns a value that is not an object, is answered with exactly one
    invalid-format error, whether the connection is logged in or not;
    nothing changes and the handler goes on.  A message that makes the
    decoding raise another exception (bytes that are not UTF-8, an integer
    literal of too many digits, nesting that is too deep) is not answered:
    the exception is printed and the handler leaves through [disconnect]. *)
Theorem invalid_message_is_answered (s : server) (ws : conn) (raw : incoming) (now : Z) :
  ws ∉ returned s →
  (raw = Undecodable ∨ (∃ v, raw = Decoded v ∧ ∀ data, v ≠ JDict data) →
   step (Message ws raw now) s =
     (s, [Send ws (JDict [("type", JStr "error");
                          ("reason", JStr "Invalid JSON message format")])])) ∧
  (∀ e, raw = BadBytes ∧ e = UnicodeDecodeError ∨
        raw = Refused TooManyDigits ∧ e = ValueError ∨
        raw = Refused TooDeep ∧ e = RecursionError →
   step (Message ws raw now) s =
     (Server (final (disconnect ws (mem s))) ({[ws]} ∪ returned s),
      PrintUnexpected ws e :: sent (disconnect ws (mem s)))).
Proof.
  intros Hlive. split.
  - intros Hraw. rewrite <- (server_eta s) at 2.
    apply step_continue; [done |]. unfold handler_turn, handler_body.
    destruct Hraw as [-> | (v & -> & Hv)]; [done |].
    destruct v; try done. by destruct (Hv d).
  - intros e He.
    rewrite (step_raises ws raw now s e (mem s) []); [done | done |].
    by destruct He as [[-> ->] | [[-> ->] | [-> ->]]].
Qed.

Lemma invalid_message_is_answered_witness :
  step (Message 1 (Decoded (JList [JStr "login"])) 0) alice_online =
    (alice_online, [Send 1 (error_plain "Invalid JSON message format")]) ∧
  (step (Message 1 (Refused TooManyDigits) 0) alice_in_general).2 =
    [PrintUnexpected 1 ValueError] ∧
  ROOMS (mem (step (Message 1 (Refused TooManyDigits) 0) alice_in_general).1) = ∅.
Proof.
  split.
  - destruct (invalid_message_is_answered alice_online 1
                (Decoded (JList [JStr "login"])) 0) as [Hreply _].
    + vm_compute. set_solver.
    + apply Hreply. right. exists (JList [JStr "login"]).
      split; [reflexivity | discriminate].
  - destruct (invalid_message_is_answered alice_in_general 1
                (Refused TooManyDigits) 0) as [_ Hraise].
    + vm_compute. set_solver.
    + rewrite (Hraise ValueError) by auto. split; vm_compute; reflexivity.
Defined.

(** X5. A logged-in connection that sends an action which is none of login,
    subscribe, unsubscribe, publish and logout (a missing action counts, as
    [None]) is answered with exactly one error that names the action as
    [str] prints it; nothing changes and the handler goes on. *)
Theorem unknown_action_is_named (s : server) (ws : conn) (data : dict) (now : Z) :
  ws ∉ returned s →
  is_Some (USERS (mem s) !! ws) →
  (∀ name, name ∈ ["login"; "subscribe"; "unsubscribe"; "publish"; "logout"] →
           get "action" data ≠ JStr name) →
  step (Message ws (Decoded (JDict data)) now) s =
    (s, [Send ws (error_plain ("Unknown action: '" +:+ str (get "action" data) +:+ "'"))]).
Proof.
  intros Hlive Hlogged Hother. rewrite <- (server_eta s) at 2.
  apply step_continue; [done |]. unfold handler_turn, handler_body.
  rewrite run_bind_read, (gate_open ws (mem s) Hlogged), andb_false_r.
  assert (∀ name, name ∈ ["login"; "subscribe"; "unsubscribe"; "publish"; "logout"] →
                  is_action (get "action" data) name = false) as Hno.
  { intros name Hname. destruct (is_action (get "action" data) name) eqn:Hact; [| done].
    apply is_action_eq in Hact. by destruct (Hother name Hname). }
  rewrite !Hno by set_solver. done.
Qed.

Lemma unknown_action_is_named_witness :
  step (Message 1 (Decoded (JDict [("room", JStr "general")])) 0) alice_online =
    (alice_online, [Send 1 (error_plain "Unknown action: 'None'")]).
Proof.
  apply (unknown_action_is_named alice_online 1 [("room", JStr "general")] 0).
  - vm_compute. set_solver.
  - vm_compute. eauto.
  - intros name _. discriminate.
Defined.

(** X6. A connection that is logged in and sends login again, with any
    username, is answered with the already-logged-in error; its username and
    everything else stay as they are, and the handler goes on. *)
Theorem repeated_login_is_rejected (s : server) (ws : conn) (username : string)
    (data : dict) (now : Z) :
  ws ∉ returned s →
  USERS (mem s) !! ws = Some username →
  get "action" data = JStr "login" →
  step (Message ws (Decoded (JDict data)) now) s =
    (s, [Send ws (error_for "login" "You are already logged in")]).
Proof.
  intros Hlive Hu Hact. rewrite <- (server_eta s) at 2.
  apply step_continue; [done |]. unfold handler_turn.
  by rewrite (handler_body_login_again _ _ _ username).
Qed.

Lemma repeated_login_is_rejected_witness :
  step (Message 1 (login_as "carol") 0) alice_online =
    (alice_online, [Send 1 (error_for "login" "You are already logged in")]).
Proof.
  apply (repeated_login_is_rejected alice_online 1 "alice").
  - vm_compute. set_solver.
  - vm_compute. reflexivity.
  - reflexivity.
Defined.

(** X7. A publish whose room or whose message is blank after trimming (or
    missing) is answered with one error under the action publish: nothing is
    written to any log and nothing is sent to any subscriber. *)
Theorem blank_publish_is_rejected (s : server) (ws : conn) (data : dict) (now : Z) :
  ws ∉ returned s →
  is_Some (USERS (mem s) !! ws) →
  get "action" data = JStr "publish" →
  Py.is_empty (publish_room data) = true ∨ Py.is_empty (publish_message data) = true →
  step (Message ws (Decoded (JDict data)) now) s =
    (s, [Send ws (error_for "publish" "room and message required")]).
Proof.
  intros Hlive Hlogged Hact Hblank. rewrite <- (server_eta s) at 2.
  apply (step_handled (handle_publish ws data now)); [done | |].
  - by apply handler_body_publish.
  - unfold handle_publish. rewrite run_bind_read.
    fold (publish_room data) (publish_message data).
    destruct Hblank as [-> | ->]; [done |]. by rewrite orb_true_r.
Qed.

Lemma blank_publish_is_rejected_witness :
  step (Message 1 (publish_to "general" "   ") 0) alice_in_general =
    (alice_in_general, [Send 1 (error_for "publish" "room and message required")]).
Proof.
  apply blank_publish_is_rejected.
  - vm_compute. set_solver.
  - vm_compute. eauto.
  - reflexivity.
  - right. reflexivity.
Defined.

(** ** Requests that end the session *)

Lemma handler_body_login ws data now σ :
  USERS σ !! ws = None → get "action" data = JStr "login" →
  handler_body ws (Decoded (JDict data)) now σ = (handle_login ws data ;;; ret Continue) σ.
Proof.
  intros Hnone Hact. unfold handler_body.
  rewrite run_bind_read, Hact. cbn [is_action String.eqb Ascii.eqb Bool.eqb negb andb].
  by rewrite bool_decide_eq_true_2.
Qed.

(** X8. A login whose username is present but is not a string (a number,
    null, a list) gets no reply: the handler of the connection prints the
    exception and returns.  Registry, username set, rooms and logs are as
    before. *)
Theorem login_with_non_string_username (s : server) (ws : conn) (data : dict) (now : Z) :
  ws ∉ returned s →
  USERS (mem s) !! ws = None →
  get "action" data = JStr "login" →
  (∀ name, get_or "username" (JStr "") data ≠ JStr name) →
  step (Message ws (Decoded (JDict data)) now) s =
    (Server (mem s) ({[ws]} ∪ returned s), [PrintUnexpected ws AttributeError]).
Proof.
  intros Hlive Hnone Hact Hname.
  rewrite (step_raises ws _ now s AttributeError (mem s) []); [| done |].
  - by rewrite disconnect_anonymous.
  - rewrite handler_body_login by done. apply then_raise.
    by apply handle_login_other.
Qed.

Lemma login_with_non_string_username_witness :
  step (Message 2 (request "login" [("username", JInt 7)]) 0) alice_online =
    (Server (mem alice_online) ({[2]} ∪ returned alice_online),
     [PrintUnexpected 2 AttributeError]).
Proof.
  apply login_with_non_string_username.
  - vm_compute. set_solver.
  - vm_compute. reflexivity.
  - reflexivity.
  - intros name. discriminate.
Defined.

(** X9. An unsubscribe of a logged-in connection whose rooms value cannot
    be iterated (true, a number other than zero), or whose first room is a
    list or an object, which cannot be hashed, gets no reply: the exception
    is printed and the session ends through [disconnect], with the leave
    notice and the membership list of each room the connection was in, room
    after room in the order in which the rooms were created. *)
Theorem unsubscribe_with_bad_rooms (d : disk) (arrivals : list arrival) (ws : conn)
    (username : string) (data : dict) (now : Z) :
  let s := reached d arrivals in
  ws ∉ returned s →
  USERS (mem s) !! ws = Some username →
  get "action" data = JStr "unsubscribe" →
  (get "rooms" data = JBool true ∨
   (∃ z, z ≠ 0%Z ∧ get "rooms" data = JInt z) ∨
   (∃ l rest, get "rooms" data = JList (JList l :: rest)) ∨
   (∃ kv rest, get "rooms" data = JList (JDict kv :: rest))) →
  step (Message ws (Decoded (JDict data)) now) s =
    (Server (logged_out ws username (mem s)) ({[ws]} ∪ returned s),
     PrintUnexpected ws TypeError ::
     concat (notices username (logged_out ws username (mem s)) <$> rooms_of ws (mem s))).
Proof.
  intros s Hlive Hu Hact Hrooms.
  destruct (server_ok_run arrivals (boot d) (server_ok_boot d)) as [Hc _].
  fold (reached d arrivals) in Hc. fold s in Hc.
  pose proof (names_nonempty _ Hc _ _ Hu) as Hne.
  rewrite (step_raises ws _ now s TypeError (mem s) []); [| done |].
  - by rewrite (disconnect_logged_in ws username (mem s) (rooms_ordered _ Hc)).
  - rewrite handler_body_unsubscribe by (done || by rewrite Hu).
    apply then_raise. unfold handle_unsubscribe.
    rewrite run_bind_read, Hu, Hne.
    destruct Hrooms as [-> | [(z & Hz & ->) | [(l & rest & ->) | (kv & rest & ->)]]];
      try done.
    unfold or_else, truthy. by rewrite (proj2 (Z.eqb_neq z 0) Hz).
Qed.

(** Alice and Bob are in "sports" and in "general", created in this order;
    Alice sends an unsubscribe whose rooms value is 3. *)
Lemma unsubscribe_with_bad_rooms_witness :
  (step (Message 1 (request "unsubscribe" [("rooms", JInt 3)]) 0)
        (reached empty_disk two_rooms_arrivals)).2 =
    [PrintUnexpected 1 TypeError;
     Send 2 (JDict [("type", JStr "system"); ("event", JStr "leave");
                    ("username", JStr "alice"); ("room", JStr "sports")]);
     Send 2 (JDict [("type", JStr "room_update"); ("room", JStr "sports");
                    ("users", JList [JStr "bob"])]);
     Send 2 (JDict [("type", JStr "system"); ("event", JStr "leave");
                    ("username", JStr "alice"); ("room", JStr "general")]);
     Send 2 (JDict [("type", JStr "room_update"); ("room", JStr "general");
                    ("users", JList [JStr "bob"])])].
Proof.
  unfold request.
  rewrite (unsubscribe_with_bad_rooms empty_disk two_rooms_arrivals 1 "alice"
             [("action", JStr "unsubscribe"); ("rooms", JInt 3)] 0).
  - vm_compute. reflexivity.
  - vm_compute. set_solver.
  - vm_compute. reflexivity.
  - reflexivity.
  - right. left. exists 3%Z. split; [lia | reflexivity].
Defined.

(** ** A username is free again after its session *)

(** X10. While a connection is logged in under a username, a login of
    another connection under that username is refused as taken; once the
    stream of the first connection has ended, the same login succeeds and
    the username belongs to the second connection. *)
Theorem username_is_free_after_exit (d : disk) (arrivals : list arrival)
    (ws ws' : conn) (username : string) (data : dict) (now : Z) :
  let s := reached d arrivals in
  let login := Message ws' (Decoded (JDict data)) now in
  ws ∉ returned s → ws' ∉ returned s → ws' ≠ ws →
  USERS (mem s) !! ws = Some username →
  USERS (mem s) !! ws' = None →
  get "action" data = JStr "login" →
  get_or "username" (JStr "") data = JStr username →
  (step login s).2 = [Send ws' (error_for "login" "Username taken")] ∧
  (step login (step (Closed ws) s).1).2 = [Send ws' login_ok] ∧
  USERS (mem (step login (step (Closed ws) s).1).1) !! ws' = Some username ∧
  USERS (mem (step login (step (Closed ws) s).1).1) !! ws = None.
Proof.
  intros s login Hlive Hlive' Hne Hu Hnone Hact Hname.
  destruct (server_ok_reached d arrivals) as [Hc _]. fold s in Hc.
  destruct (tidy_reached d arrivals) as [Htidy _]. fold s in Htidy.
  destruct (Htidy ws username Hu) as [Hstrip Hnonempty].
  assert (username ∈ USERNAMES (mem s)) as Hused
    by (apply (names_claimed _ Hc); eauto).
  split.
  - subst login.
    rewrite (step_handled (handle_login ws' data) ws' _ now s (mem s)
               [Send ws' (error_for "login" "Username taken")]); try done.
    + by apply handler_body_login.
    + rewrite (handle_login_run _ _ username) by done.
      rewrite Hstrip, Hnonempty. by rewrite decide_True.
  - pose proof (step_leaves (Closed ws) s None Hlive eq_refl) as Hclose.
    cbn [arrival_conn before_exit] in Hclose.
    rewrite (disconnect_logged_in ws username) in Hclose
      by (done || apply (rooms_ordered _ Hc)).
    cbn [final sent] in Hclose. rewrite Hclose. cbn [fst].
    set (s1 := Server (logged_out ws username (mem s)) ({[ws]} ∪ returned s)).
    assert (step login s1 =
            (Server (logged_in ws' username (mem s1)) (returned s1), [Send ws' login_ok]))
      as Hstep.
    { apply (step_handled (handle_login ws' data)).
      - subst s1. simpl. set_solver.
      - apply handler_body_login; [| done]. subst s1. simpl.
        by rewrite lookup_delete_ne.
      - rewrite (handle_login_run _ _ username) by done.
        rewrite Hstrip, Hnonempty. rewrite decide_False; [done |].
        subst s1. simpl. set_solver. }
    rewrite Hstep. cbn [fst snd mem]. split; [done |]. split; simpl.
    + apply lookup_insert_eq.
    + rewrite lookup_insert_ne by done. apply lookup_delete_eq.
Qed.

Lemma username_is_free_after_exit_witness :
  (step (Message 2 (login_as "alice") 5)
        (step (Closed 1) (reached empty_disk [Message 1 (login_as "alice") 0])).1).2 =
    [Send 2 login_ok].
Proof.
  destruct (username_is_free_after_exit empty_disk [Message 1 (login_as "alice") 0]
              1 2 "alice" [("action", JStr "login"); ("username", JStr "alice")] 5)
    as (_ & Hfree & _).
  - vm_compute. set_solver.
  - vm_compute. set_solver.
  - lia.
  - vm_compute. reflexivity.
  - vm_compute. reflexivity.
  - reflexivity.
  - reflexivity.
  - exact Hfree.
Defined.

(** ** Unsubscribing *)

Lemma unsubscribe_rooms_absent ws username names acc σ :
  (∀ room, room ∈ names → ws ∉ members σ room) →
  unsubscribe_rooms ws username (JStr <$> names) acc σ = Outcome (inl acc) σ [].
Proof.
  revert acc. induction names as [| room names IH]; intros acc Hout; [done |].
  assert (ws ∉ members σ room) as Hroom by (apply Hout; by left).
  assert (∀ r, r ∈ names → ws ∉ members σ r) as Hrest
    by (intros r Hr; apply Hout; by right).
  rewrite fmap_cons. cbn [unsubscribe_rooms ROOMS_get].
  unfold bind at 1. rewrite run_bind_read. cbn [ret result final sent].
  unfold members in Hroom.
  destruct (ROOMS σ !! room) as [subs |]; cbn [fmap option_fmap option_map].
  - rewrite decide_False by (intros [_ Hin]; by apply Hroom).
    rewrite (IH acc Hrest). done.
  - rewrite (IH acc Hrest). done.
Qed.

Lemma handle_unsubscribe_absent ws data username names σ :
  USERS σ !! ws = Some username → Py.is_empty username = false →
  get "rooms" data = strs names →
  (∀ room, room ∈ names → ws ∉ members σ room) →
  handle_unsubscribe ws data σ = Outcome (inl tt) σ [].
Proof.
  intros Hu Hne Hrooms Hout. unfold handle_unsubscribe.
  rewrite run_bind_read, Hu, Hne, Hrooms.
  destruct names as [| room names]; [done |].
  unfold strs. rewrite fmap_cons. cbn [or_else truthy iterate].
  rewrite run_bind_ret, <- fmap_cons.
  unfold bind. by rewrite unsubscribe_rooms_absent.
Qed.

(** X11. An unsubscribe of a logged-in connection that lists only rooms the
    connection is not in (rooms never joined, rooms already left, rooms that
    do not exist) changes nothing and sends nothing, not even an empty
    confirmation. *)
Theorem unsubscribe_not_joined (s : server) (ws : conn) (username : string)
    (data : dict) (names : list string) (now : Z) :
  ws ∉ returned s →
  USERS (mem s) !! ws = Some username → Py.is_empty username = false →
  get "action" data = JStr "unsubscribe" →
  get "rooms" data = strs names →
  (∀ room, room ∈ names → ws ∉ members (mem s) room) →
  step (Message ws (Decoded (JDict data)) now) s = (s, []).
Proof.
  intros Hlive Hu Hne Hact Hrooms Hout. rewrite <- (server_eta s) at 2.
  apply (step_handled (handle_unsubscribe ws data)); [done | |].
  - apply handler_body_unsubscribe; [by rewrite Hu | done].
  - by apply (handle_unsubscribe_absent _ _ username names).
Qed.

Lemma unsubscribe_not_joined_witness :
  step (Message 1 (unsubscribe_from ["lobby"; "sports"]) 0) alice_in_general =
    (alice_in_general, []).
Proof.
  apply (unsubscribe_not_joined alice_in_general 1 "alice" _ ["lobby"; "sports"]).
  - vm_compute. set_solver.
  - vm_compute. reflexivity.
  - reflexivity.
  - reflexivity.
  - reflexivity.
  - intros room Hroom. vm_compute in Hroom.
    apply elem_of_cons in Hroom as [-> | Hroom];
      [| apply list_elem_of_singleton in Hroom as ->]; vm_compute; set_solver.
Defined.

(** X12. Subscribe trims the room names it is given and unsubscribe does
    not: after any run, an unsubscribe whose names all carry whitespace at
    an end changes nothing and sends nothing, also when the connection is in
    the rooms of the trimmed names. *)
Theorem unsubscribe_does_not_trim (d : disk) (arrivals : list arrival) (ws : conn)
    (username : string) (data : dict) (names : list string) (now : Z) :
  let s := reached d arrivals in
  ws ∉ returned s →
  USERS (mem s) !! ws = Some username →
  get "action" data = JStr "unsubscribe" →
  get "rooms" data = strs names →
  (∀ room, room ∈ names → Py.strip room ≠ room) →
  step (Message ws (Decoded (JDict data)) now) s = (s, []).
Proof.
  intros s Hlive Hu Hact Hrooms Hblank.
  destruct (server_ok_reached d arrivals) as [Hc _]. fold s in Hc.
  destruct (tidy_reached d arrivals) as [_ Htidy]. fold s in Htidy.
  rewrite <- (server_eta s) at 2.
  apply (step_handled (handle_unsubscribe ws data)); [done | |].
  - apply handler_body_unsubscribe; [by rewrite Hu | done].
  - apply (handle_unsubscribe_absent _ _ username names); try done.
    + by eapply names_nonempty.
    + intros room Hroom. unfold members.
      destruct (ROOMS (mem s) !! room) as [subs |] eqn:Hsubs; [| set_solver].
      destruct (Htidy room subs Hsubs) as [Hstrip _].
      by destruct (Hblank room Hroom).
Qed.

Lemma unsubscribe_does_not_trim_witness :
  let s := reached empty_disk
             [Message 1 (login_as "alice") 0; Message 1 (subscribe_to [" general "]) 0] in
  step (Message 1 (unsubscribe_from [" general "]) 1) s = (s, []) ∧
  1 ∈ members (mem s) "general".
Proof.
  split.
  - apply (unsubscribe_does_not_trim empty_disk
             [Message 1 (login_as "alice") 0; Message 1 (subscribe_to [" general "]) 0]
             1 "alice" _ [" general "]).
    + vm_compute. set_solver.
    + vm_compute. reflexivity.
    + reflexivity.
    + reflexivity.
    + intros room Hroom. apply list_elem_of_singleton in Hroom as ->. discriminate.
  - vm_compute. set_solver.
Defined.

Lemma members_after_remove ws room subs σ :
  members (final (remove_member ws room subs σ)) room = subs ∖ {[ws]}.
Proof.
  rewrite remove_member_run. cbn [final]. unfold members.
  case_decide as Hempty; simpl.
  - by rewrite lookup_delete_eq, Hempty.
  - by rewrite lookup_insert_eq.
Qed.

Lemma unsubscribe_rooms_member ws username room subs σ :
  ROOMS σ !! room = Some subs → ws ∈ subs →
  unsubscribe_rooms ws username [JStr room] [] σ =
    Outcome (inl [JStr room]) (final (remove_member ws room subs σ))
      (notices username (final (remove_member ws room subs σ)) room).
Proof.
  intros Hroom Hin. cbn [unsubscribe_rooms].
  rewrite (run_bind_outcome _ _ σ (Some (room, subs)) σ []);
    [| unfold ROOMS_get; by rewrite run_bind_read, Hroom].
  rewrite decide_True by (split; [set_solver | done]).
  rewrite (run_bind_outcome _ _ σ tt (final (remove_member ws room subs σ)) []);
    [| by rewrite remove_member_run].
  set (σ' := final (remove_member ws room subs σ)).
  destruct (quiet_run (leave_and_update username room) σ'
              (quiet_leave_and_update username room)) as [[] Hrun].
  rewrite (run_bind_outcome _ _ σ' tt σ' _ Hrun).
  cbn [ret result final sent app]. unfold notices. by rewrite app_nil_r.
Qed.

Lemma handle_unsubscribe_member ws data username room subs σ :
  USERS σ !! ws = Some username → Py.is_empty username = false →
  get "rooms" data = strs [room] →
  ROOMS σ !! room = Some subs → ws ∈ subs →
  handle_unsubscribe ws data σ =
    Outcome (inl tt) (final (remove_member ws room subs σ))
      (notices username (final (remove_member ws room subs σ)) room ++
       [Send ws (system_rooms "unsubscribed" (strs [room]))]).
Proof.
  intros Hu Hne Hrooms Hroom Hin. unfold handle_unsubscribe.
  rewrite run_bind_read, Hu, Hne, Hrooms.
  cbn [strs fmap list_fmap or_else truthy iterate]. rewrite run_bind_ret.
  by rewrite (run_bind_outcome _ _ _ _ _ _
                (unsubscribe_rooms_member ws username room subs σ Hroom Hin)).
Qed.

(** X13. A logged-in connection that unsubscribes from a room it is in is
    taken out of the room, and the room is deleted when nobody is left.  The
    remaining members, and not the leaver, are sent the leave notice and
    then the membership list; the leaver is sent the confirmation last.
    Registry, usernames and logs are as before: the connection stays logged
    in. *)
Theorem unsubscribe_leaves_room (s : server) (ws : conn) (username room : string)
    (subs : gset conn) (data : dict) (now : Z) :
  ws ∉ returned s →
  USERS (mem s) !! ws = Some username → Py.is_empty username = false →
  get "action" data = JStr "unsubscribe" →
  get "rooms" data = strs [room] →
  ROOMS (mem s) !! room = Some subs → ws ∈ subs →
  let s' := (step (Message ws (Decoded (JDict data)) now) s).1 in
  let out := (step (Message ws (Decoded (JDict data)) now) s).2 in
  let others := subs ∖ {[ws]} in
  (returned s' = returned s ∧ USERS (mem s') = USERS (mem s) ∧
   USERNAMES (mem s') = USERNAMES (mem s) ∧ LOG_DIR (mem s') = LOG_DIR (mem s)) ∧
  ROOMS (mem s') =
    (if decide (others = ∅) then delete room (ROOMS (mem s))
     else <[room := others]> (ROOMS (mem s))) ∧
  out = to_all others (leave_notice username room) ++
        to_all others (room_update room (user_list (mem s') room)) ++
        [Send ws (system_rooms "unsubscribed" (strs [room]))].
Proof.
  intros Hlive Hu Hne Hact Hrooms Hroom Hin s' out others.
  assert (step (Message ws (Decoded (JDict data)) now) s =
          (Server (final (remove_member ws room subs (mem s))) (returned s),
           notices username (final (remove_member ws room subs (mem s))) room ++
           [Send ws (system_rooms "unsubscribed" (strs [room]))])) as Hstep.
  { apply (step_handled (handle_unsubscribe ws data)); [done | |].
    - apply handler_body_unsubscribe; [by rewrite Hu | done].
    - by apply (handle_unsubscribe_member _ _ username room subs). }
  subst s' out. rewrite Hstep. cbn [fst snd mem returned].
  rewrite notices_eq, members_after_remove, <- app_assoc.
  rewrite remove_member_run. cbn [final]. fold others.
  by destruct (decide (others = ∅)).
Qed.

Lemma unsubscribe_leaves_room_witness :
  (step (Message 1 (unsubscribe_from ["general"]) 9)
        (reached empty_disk pair_arrivals)).2 =
    [Send 2 (leave_notice "alice" "general");
     Send 2 (room_update "general" ["bob"]);
     Send 1 (system_rooms "unsubscribed" (strs ["general"]))].
Proof.
  destruct (unsubscribe_leaves_room (reached empty_disk pair_arrivals) 1 "alice"
              "general" {[1; 2]} [("action", JStr "unsubscribe"); ("rooms", strs ["general"])] 9)
    as (_ & _ & Hout).
  - vm_compute. set_solver.
  - vm_compute. reflexivity.
  - reflexivity.
  - reflexivity.
  - reflexivity.
  - vm_compute. reflexivity.
  - set_solver.
  - unfold unsubscribe_from, request. rewrite Hout. vm_compute. reflexivity.
Defined.

(** ** Subscribing *)



(** ** The member list of a room update *)

Lemma str_le_total : Total Py.str_le.
Proof. intros a b. unfold Py.str_le. apply String.leb_total. Qed.

Lemma elem_of_omap_lookup (U : gmap conn string) (l : list conn) u :
  u ∈ omap (λ ws, U !! ws) l ↔ ∃ ws, ws ∈ l ∧ U !! ws = Some u.
Proof. apply list_elem_of_omap. Qed.

Lemma NoDup_omap_lookup (U : gmap conn string) (l : list conn) :
  NoDup l →
  (∀ ws1 ws2 u, U !! ws1 = Some u → U !! ws2 = Some u → ws1 = ws2) →
  NoDup (omap (λ ws, U !! ws) l).
Proof.
  intros Hnd Hinj. induction Hnd as [| ws l Hws Hnd IH]; simpl; [constructor |].
  destruct (U !! ws) as [u |] eqn:Hu; [| done].
  constructor; [| done].
  intros (ws' & Hws' & Hu')%elem_of_omap_lookup.
  by rewrite (Hinj ws ws' u Hu Hu') in Hws.
Qed.

Lemma length_omap_lookup (U : gmap conn string) (l : list conn) :
  (∀ ws, ws ∈ l → is_Some (U !! ws)) →
  length (omap (λ ws, U !! ws) l) = length l.
Proof.
  induction l as [| ws l IH]; intros Hall; simpl; [done |].
  destruct (Hall ws) as [u ->]; [by left |]. simpl. f_equal.
  apply IH. intros ws' Hws'. apply Hall. by right.
Qed.

Lemma members_logged_in_reached d arrivals room ws :
  ws ∈ members (mem (reached d arrivals)) room →
  is_Some (USERS (mem (reached d arrivals)) !! ws).
Proof.
  destruct (server_ok_reached d arrivals) as [Hc _].
  unfold members. destruct (ROOMS _ !! room) as [subs |] eqn:Hroom; simpl.
  - intros Hws. by apply (members_logged_in _ Hc room subs).
  - set_solver.
Qed.

(** X15. In every state the server reaches, the user list a room update
    carries is in ascending order, names nobody twice, has one entry per
    member of the room, and a name is on it exactly when it is the
    username of a member; the update goes to every member of the room. *)
Theorem room_update_lists_members d arrivals room :
  sent (broadcast_room_update room (mem (reached d arrivals))) =
    to_all (members (mem (reached d arrivals)) room)
      (room_update room (user_list (mem (reached d arrivals)) room)) ∧
  Sorted Py.str_le (user_list (mem (reached d arrivals)) room) ∧
  NoDup (user_list (mem (reached d arrivals)) room) ∧
  length (user_list (mem (reached d arrivals)) room) =
    size (members (mem (reached d arrivals)) room) ∧
  ∀ u, u ∈ user_list (mem (reached d arrivals)) room ↔
       ∃ ws, ws ∈ members (mem (reached d arrivals)) room ∧
             USERS (mem (reached d arrivals)) !! ws = Some u.
Proof.
  destruct (server_ok_reached d arrivals) as [Hc _].
  set (σ := mem (reached d arrivals)) in *.
  assert (user_list σ room ≡ₚ omap (λ ws, USERS σ !! ws) (elements (members σ room)))
    as Hperm by apply merge_sort_Permutation.
  split; [apply broadcast_room_update_sent |].
  split; [apply (@Sorted_merge_sort _ _ _ str_le_total) |].
  split; [| split].
  - rewrite Hperm. apply NoDup_omap_lookup; [apply NoDup_elements |].
    apply (names_unique _ Hc).
  - rewrite Hperm, length_omap_lookup; [done |].
    intros ws Hws%elem_of_elements. by apply members_logged_in_reached in Hws.
  - intros u. rewrite Hperm, elem_of_omap_lookup.
    by setoid_rewrite elem_of_elements.
Qed.

(** ** What the other connections cannot do *)

Lemma run_app s arrivals1 arrivals2 :
  (run s (arrivals1 ++ arrivals2)).1 = (run (run s arrivals1).1 arrivals2).1.
Proof.
  revert s. induction arrivals1 as [| a rest IH]; intros s; simpl; [done |].
  destruct (step a s) as [s' out]. specialize (IH s').
  destruct (run s' (rest ++ arrivals2)), (run s' rest). exact IH.
Qed.

Lemma same_for_run x s arrivals :
  server_ok s →
  Forall (λ a, arrival_conn a ≠ x) arrivals →
  same_for x (mem s) (mem (run s arrivals).1).
Proof.
  intros Hok Hothers.
  apply (kept_run (same_for x (mem s)) (λ ws, ws ≠ x)); [| | | | | done |].
  - intros σ room username message ts _ Hsame _. exact Hsame.
  - intros σ ws name Hws _ [Hu Hr] _ _ _. split; [| exact Hr].
    simpl. by rewrite lookup_insert_ne.
  - intros σ ws room_str Hws _ [Hu Hr] _ _. split; [exact Hu |].
    intros room. rewrite members_after_subscribe, <- Hr. naive_solver.
  - intros σ ws room subs Hws _ [Hu Hr] Hroom _. split.
    + rewrite remove_member_run. cbn [final]. by case_decide.
    + intros r. rewrite <- Hr. destruct (decide (r = room)) as [-> |].
      * rewrite members_after_remove. unfold members. rewrite Hroom; simpl. set_solver.
      * rewrite remove_member_run. cbn [final]. unfold members.
        case_decide; simpl; [by rewrite lookup_delete_ne | by rewrite lookup_insert_ne].
  - intros σ ws username Hws _ [Hu Hr] _. split.
    + simpl. by rewrite lookup_delete_ne.
    + intros room. rewrite (members_prune ws room σ) by done. rewrite <- Hr. set_solver.
  - split; [exact Hok |]. by split.
Qed.

(** X16. Whatever the other connections send, and however their handlers
    end, a connection stays logged in under the same username, or stays not
    logged in, and stays in exactly the rooms it was in: only what arrives
    on a connection itself changes its registry entry or its
    subscriptions. *)
Theorem others_leave_session_alone d before after x :
  Forall (λ a, arrival_conn a ≠ x) after →
  USERS (mem (reached d (before ++ after))) !! x = USERS (mem (reached d before)) !! x ∧
  ∀ room, x ∈ members (mem (reached d (before ++ after))) room ↔
          x ∈ members (mem (reached d before)) room.
Proof.
  intros Hothers. unfold reached. rewrite run_app.
  apply same_for_run; [apply server_ok_reached | done].
Qed.

Lemma others_leave_session_alone_witness :
  USERS (mem (reached empty_disk
                (pair_arrivals ++ [Message 2 (publish_to "general" "hi") 5;
                                   Message 2 (unsubscribe_from ["general"]) 6;
                                   Closed 2]))) !! 1 = Some "alice" ∧
  1 ∈ members (mem (reached empty_disk
                  (pair_arrivals ++ [Message 2 (publish_to "general" "hi") 5;
                                     Message 2 (unsubscribe_from ["general"]) 6;
                                     Closed 2]))) "general".
Proof.
  destruct (others_leave_session_alone empty_disk pair_arrivals
              [Message 2 (publish_to "general" "hi") 5;
               Message 2 (unsubscribe_from ["general"]) 6; Closed 2] 1) as [Hu Hr].
  - repeat constructor; simpl; lia.
  - split.
    + rewrite Hu. vm_compute. reflexivity.
    + apply Hr.
      assert (members (mem (reached empty_disk pair_arrivals)) "general" = {[1; 2]}) as ->
        by (vm_compute; reflexivity).
      clear. set_solver.
Defined.

(** ** Reading the end of a log *)

(** X17. For a positive [n], [tail_room_log] never changes the state and
    looks at no more than the last [n] lines of the file.  A room whose log
    name the file system refuses raises [OSError]; a room with no log file
    has no records, and nothing is printed; a file that cannot be read gives
    no records and one printed line; a file that can be read gives the
    records among its last [n] lines, so blank and malformed lines count
    towards [n], unless [json.loads] refuses one of these lines, whose
    exception then leaves [tail_room_log].  The records returned are at most
    [n], and they are the last records of the file, in file order. *)
Theorem tail_keeps_last_lines room n σ :
  (0 < n)%Z →
  final (tail_room_log room n σ) = σ ∧
  (if decide (log_path_for room ∈ name_error (LOG_DIR σ))
   then result (tail_room_log room n σ) = inr OSError ∧ sent (tail_room_log room n σ) = []
   else
     match files (LOG_DIR σ) !! log_path_for room with
     | None => result (tail_room_log room n σ) = inl [] ∧ sent (tail_room_log room n σ) = []
     | Some lines =>
         if decide (log_path_for room ∈ read_error (LOG_DIR σ))
         then result (tail_room_log room n σ) = inl [] ∧
              sent (tail_room_log room n σ) = [PrintReadFailure room]
         else
           sent (tail_room_log room n σ) = [] ∧
           result (tail_room_log room n σ) =
             match refused (drop (length lines - Z.to_nat n) lines) with
             | Some TooManyDigits => inr ValueError
             | Some TooDeep => inr RecursionError
             | None => inl (parse_lines (drop (length lines - Z.to_nat n) lines))
             end
     end) ∧
  (∀ records,
     result (tail_room_log room n σ) = inl records →
     (length records ≤ Z.to_nat n)%nat ∧
     ∃ earlier,
       parse_lines (default [] (files (LOG_DIR σ) !! log_path_for room)) =
         earlier ++ records).
Proof.
  intros Hn. split; [apply steady_tail_room_log |].
  rewrite tail_room_log_run.
  destruct (decide (log_path_for room ∈ name_error (LOG_DIR σ))) as [Hname | Hname];
    [by split |].
  destruct (files (LOG_DIR σ) !! log_path_for room) as [lines |] eqn:Hfile;
    cbn [default id].
  - destruct (decide (log_path_for room ∈ read_error (LOG_DIR σ))) as [Hbad | Hbad].
    + split; [done |]. intros records [= <-]. split; [simpl; lia |].
      exists (parse_lines lines). by rewrite app_nil_r.
    + rewrite slice_from_last by done.
      destruct (tail_positive n lines Hn) as [Hsuffix Hlen].
      rewrite slice_from_last in Hsuffix, Hlen by done.
      destruct (refused (drop (length lines - Z.to_nat n) lines)) as [[|] |];
        (split; [done |]); try done.
      intros records [= <-]. split; [exact Hlen | by eexists].
  - split; [done |]. intros records [= <-]. split; [simpl; lia | by exists []].
Qed.

Lemma tail_keeps_last_lines_witness :
  result (tail_room_log "general" 1
            (initial (Disk {["general.txt" :=
                               [Parsed (JInt 1); Parsed (JInt 2); Blank]]} ∅ ∅ ∅))) =
    inl [] ∧
  result (tail_room_log "general" 2
            (initial (Disk {["general.txt" :=
                               [Parsed (JInt 1); Parsed (JInt 2); Blank]]} ∅ ∅ ∅))) =
    inl [JInt 2] ∧
  result (tail_room_log "general" 2
            (initial (Disk {["general.txt" :=
                               [Parsed (JInt 1); Unloadable TooManyDigits; Blank]]}
                           ∅ ∅ ∅))) =
    inr ValueError.
Proof.
  split; [| split].
  - destruct (tail_keeps_last_lines "general" 1
                (initial (Disk {["general.txt" :=
                                   [Parsed (JInt 1); Parsed (JInt 2); Blank]]} ∅ ∅ ∅)))
      as (_ & Hcase & _); [lia |].
    vm_compute in Hcase. destruct Hcase as [_ Hres].
    etrans; [| exact Hres]. vm_compute. reflexivity.
  - destruct (tail_keeps_last_lines "general" 2
                (initial (Disk {["general.txt" :=
                                   [Parsed (JInt 1); Parsed (JInt 2); Blank]]} ∅ ∅ ∅)))
      as (_ & Hcase & _); [lia |].
    vm_compute in Hcase. destruct Hcase as [_ Hres].
    etrans; [| exact Hres]. vm_compute. reflexivity.
  - destruct (tail_keeps_last_lines "general" 2
                (initial (Disk {["general.txt" :=
                                   [Parsed (JInt 1); Unloadable TooManyDigits; Blank]]}
                               ∅ ∅ ∅)))
      as (_ & Hcase & _); [lia |].
    vm_compute in Hcase. destruct Hcase as [_ Hres].
    etrans; [| exact Hres]. vm_compute. reflexivity.
Defined.

(** ** Writing records and reading them back *)




(** ** The handler as a whole *)

Lemma not_member_when_logged_out σ ws room :
  consistent σ → USERS σ !! ws = None → ws ∉ members σ room.
Proof.
  intros Hc Hnone Hin. unfold members in Hin.
  destruct (ROOMS σ !! room) as [subs |] eqn:Hroom; simpl in Hin; [| set_solver].
  destruct (members_logged_in _ Hc room subs ws Hroom Hin) as [u Hu]. congruence.
Qed.

(** X19. The handler of a connection returns normally whatever messages
    arrive and whatever the loop body raises: no exception leaves it.  Its
    loop iterations and its exit are the turns the connection takes in a
    run of the server, and when it has returned the state is consistent,
    the connection has no registry entry and is in no room. *)
Theorem handler_always_cleans_up d arrivals ws msgs :
  ws ∉ returned (reached d arrivals) →
  result (handler ws msgs (mem (reached d arrivals))) = inl tt ∧
  run (reached d arrivals) (arrivals_of ws msgs) =
    (Server (final (handler ws msgs (mem (reached d arrivals))))
            ({[ws]} ∪ returned (reached d arrivals)),
     sent (handler ws msgs (mem (reached d arrivals)))) ∧
  consistent (final (handler ws msgs (mem (reached d arrivals)))) ∧
  USERS (final (handler ws msgs (mem (reached d arrivals)))) !! ws = None ∧
  ∀ room, ws ∉ members (final (handler ws msgs (mem (reached d arrivals)))) room.
Proof.
  intros Hlive.
  pose proof (handler_as_run ws msgs (reached d arrivals) Hlive) as Hrun.
  pose proof (server_ok_run (arrivals_of ws msgs) (reached d arrivals)
                (server_ok_reached d arrivals)) as Hok.
  rewrite Hrun in Hok. destruct Hok as [Hc Hr]. cbn [fst mem returned] in Hc, Hr.
  assert (USERS (final (handler ws msgs (mem (reached d arrivals)))) !! ws = None)
    as Hnone by (apply Hr; set_solver).
  split; [| split; [exact Hrun | split; [exact Hc | split; [exact Hnone |]]]].
  - unfold handler. cbn [result]. rewrite handler_exit_run. cbn [result].
    apply disconnect_result.
  - intros room. by apply not_member_when_logged_out.
Qed.

Lemma handler_always_cleans_up_witness :
  result (handler 1 [(publish_to "general" "hi", 1700%Z); (login_as "carol", 1701%Z)]
            (mem pair_on_broken_disk)) = inl tt ∧
  USERS (final (handler 1 [(publish_to "general" "hi", 1700%Z); (login_as "carol", 1701%Z)]
                  (mem pair_on_broken_disk))) !! 1 = None.
Proof.
  destruct (handler_always_cleans_up broken_disk pair_arrivals 1
              [(publish_to "general" "hi", 1700%Z); (login_as "carol", 1701%Z)])
    as (Hres & _ & _ & Hnone & _).
  - vm_compute. set_solver.
  - split; [exact Hres | exact Hnone].
Defined.

(** ** Unsubscribing from a list of rooms *)

Lemma members_removed ws room subs σ r x :
  ROOMS σ !! room = Some subs →
  x ∈ members (final (remove_member ws room subs σ)) r ↔
  x ∈ members σ r ∧ ¬ (x = ws ∧ r = room).
Proof.
  intros Hroom. destruct (decide (r = room)) as [-> | Hne].
  - rewrite members_after_remove. unfold members. rewrite Hroom; simpl.
    rewrite elem_of_difference, elem_of_singleton. naive_solver.
  - rewrite remove_member_run. cbn [final]. unfold members.
    case_decide; simpl;
      [rewrite lookup_delete_ne by done | rewrite lookup_insert_ne by done];
      naive_solver.
Qed.

Lemma leave_notice_in_notices username σ room x r :
  Send x (leave_notice username r) ∈ notices username σ room ↔
  r = room ∧ x ∈ members σ room.
Proof.
  rewrite notices_eq, elem_of_app. unfold to_all. rewrite !list_elem_of_fmap.
  setoid_rewrite elem_of_elements. split.
  - intros [(y & Heq & Hy) | (y & Heq & _)]; [| done].
    injection Heq as -> ->. done.
  - intros [-> Hx]. left. by exists x.
Qed.

Lemma unsubscribe_rooms_spec ws username names acc σ :
  ∃ left,
    result (unsubscribe_rooms ws username (JStr <$> names) acc σ) =
      inl (acc ++ (JStr <$> left)) ∧
    NoDup left ∧
    (∀ r, r ∈ left ↔ r ∈ names ∧ ws ∈ members σ r) ∧
    (USERS (final (unsubscribe_rooms ws username (JStr <$> names) acc σ)) = USERS σ ∧
     USERNAMES (final (unsubscribe_rooms ws username (JStr <$> names) acc σ)) =
       USERNAMES σ ∧
     LOG_DIR (final (unsubscribe_rooms ws username (JStr <$> names) acc σ)) =
       LOG_DIR σ) ∧
    (∀ room x,
       x ∈ members (final (unsubscribe_rooms ws username (JStr <$> names) acc σ)) room ↔
       x ∈ members σ room ∧ ¬ (x = ws ∧ room ∈ names)) ∧
    (∀ x r,
       Send x (leave_notice username r)
         ∈ sent (unsubscribe_rooms ws username (JStr <$> names) acc σ) ↔
       r ∈ left ∧ x ∈ members σ r ∧ x ≠ ws).
Proof.
  revert acc σ. induction names as [| name names IH]; intros acc σ.
  - exists []. cbn [fmap list_fmap unsubscribe_rooms ret result final sent].
    rewrite app_nil_r. split; [done |]. split; [constructor |].
    split; [intros r; split; [by intros ?%elem_of_nil | by intros [?%elem_of_nil _]] |].
    split; [done |]. split.
    + intros room x. split; [| by intros [? _]].
      intros Hx. split; [done |]. by intros [_ ?%elem_of_nil].
    + intros x r. split; [by intros ?%elem_of_nil | by intros [?%elem_of_nil _]].
  - rewrite fmap_cons. cbn [unsubscribe_rooms].
    assert (ROOMS_get (JStr name) σ =
            Outcome (inl ((λ subs, (name, subs)) <$> ROOMS σ !! name)) σ []) as Hget
      by (unfold ROOMS_get; by rewrite run_bind_read).
    rewrite (run_bind_outcome _ _ σ _ σ [] Hget). rewrite !app_nil_l.
    rewrite <- outcome_eta.
    assert (ws ∉ members σ name →
            ∃ left,
              result (unsubscribe_rooms ws username (JStr <$> names) acc σ) =
                inl (acc ++ (JStr <$> left)) ∧
              NoDup left ∧
              (∀ r, r ∈ left ↔ r ∈ name :: names ∧ ws ∈ members σ r) ∧
              (USERS (final (unsubscribe_rooms ws username (JStr <$> names) acc σ)) =
                 USERS σ ∧
               USERNAMES (final (unsubscribe_rooms ws username (JStr <$> names) acc σ)) =
                 USERNAMES σ ∧
               LOG_DIR (final (unsubscribe_rooms ws username (JStr <$> names) acc σ)) =
                 LOG_DIR σ) ∧
              (∀ room x,
                 x ∈ members (final (unsubscribe_rooms ws username (JStr <$> names) acc σ))
                       room ↔
                 x ∈ members σ room ∧ ¬ (x = ws ∧ room ∈ name :: names)) ∧
              (∀ x r,
                 Send x (leave_notice username r)
                   ∈ sent (unsubscribe_rooms ws username (JStr <$> names) acc σ) ↔
                 r ∈ left ∧ x ∈ members σ r ∧ x ≠ ws)) as Hskip.
    { intros Hout. destruct (IH acc σ) as (left & Hres & Hnd & Hleft & Hframe & Hmem & Hsent).
      exists left. split; [done |]. split; [done |]. split; [| split; [done | split; [| done]]].
      - intros r. rewrite Hleft, elem_of_cons. naive_solver.
      - intros room x. rewrite Hmem, elem_of_cons. naive_solver. }
    destruct (ROOMS σ !! name) as [subs |] eqn:Hroom; cbn [fmap option_fmap option_map];
      [| apply Hskip; unfold members; rewrite Hroom; set_solver].
    case_decide as Hin;
      [| apply Hskip; unfold members; rewrite Hroom; simpl; set_solver].
    destruct Hin as [_ Hin].
    set (σ1 := final (remove_member ws name subs σ)).
    assert (remove_member ws name subs σ = Outcome (inl tt) σ1 []) as Hrm
      by (subst σ1; by rewrite remove_member_run).
    rewrite (run_bind_outcome _ _ σ tt σ1 [] Hrm). rewrite !app_nil_l.
    rewrite <- outcome_eta.
    destruct (quiet_run (leave_and_update username name) σ1
                (quiet_leave_and_update username name)) as [[] Hleave].
    rewrite (run_bind_outcome _ _ σ1 tt σ1 _ Hleave). cbn [result final sent].
    fold (notices username σ1 name).
    assert (∀ r x, x ∈ members σ1 r ↔ x ∈ members σ r ∧ ¬ (x = ws ∧ r = name)) as Hm1
      by (intros r x; by apply members_removed).
    assert (ws ∈ members σ name) as Hwas
      by (unfold members; by rewrite Hroom).
    destruct (IH (acc ++ [JStr name]) σ1) as (left & Hres & Hnd & Hleft & Hframe & Hmem & Hsent).
    exists (name :: left).
    split; [by rewrite Hres, fmap_cons, <- app_assoc |].
    split.
    { constructor; [| done]. rewrite Hleft, Hm1. naive_solver. }
    split.
    { intros r. rewrite !elem_of_cons, Hleft, Hm1.
      destruct (decide (r = name)) as [-> |]; naive_solver. }
    split.
    { destruct Hframe as (-> & -> & ->). subst σ1. rewrite remove_member_run.
      cbn [final]. by case_decide. }
    split.
    { intros room x. rewrite Hmem, Hm1, elem_of_cons. naive_solver. }
    intros x r. rewrite elem_of_app, Hsent, leave_notice_in_notices, elem_of_cons.
    rewrite !Hm1. destruct (decide (r = name)) as [-> |]; [| naive_solver].
    split.
    + intros [[_ [Hx Hne]] | [Hl _]]; [| by rewrite Hleft, Hm1 in Hl; naive_solver].
      split; [by left |]. split; [done |]. intros ->. naive_solver.
    + intros (_ & Hx & Hne). left. naive_solver.
Qed.

Lemma handle_unsubscribe_run ws data username names left σ :
  USERS σ !! ws = Some username → Py.is_empty username = false →
  get "rooms" data = strs names →
  result (unsubscribe_rooms ws username (JStr <$> names) [] σ) = inl (JStr <$> left) →
  handle_unsubscribe ws data σ =
    Outcome (inl tt)
      (final (unsubscribe_rooms ws username (JStr <$> names) [] σ))
      (sent (unsubscribe_rooms ws username (JStr <$> names) [] σ) ++ farewell ws left).
Proof.
  intros Hu Hne Hrooms Hres.
  unfold handle_unsubscribe. rewrite run_bind_read, Hu, Hne, Hrooms.
  assert (or_else (strs names) (JList []) = JList (JStr <$> names)) as ->
    by (unfold strs; by destruct names).
  cbn [iterate]. rewrite run_bind_ret.
  rewrite (run_bind_outcome _ _ σ (JStr <$> left)
             (final (unsubscribe_rooms ws username (JStr <$> names) [] σ))
             (sent (unsubscribe_rooms ws username (JStr <$> names) [] σ)))
    by (rewrite <- Hres; apply outcome_eta).
  unfold farewell, strs. by destruct left.
Qed.

(** X20. An unsubscribe request of a logged-in connection with a list of
    room names takes the connection out of the named rooms it is in and
    changes no other membership and nothing else.  The rooms left are
    confirmed to the requester in one message, each once, unless there is
    none; and a leave notice for a room reaches exactly the members that
    remain in it. *)
Theorem unsubscribe_leaves_rooms s ws username data names now :
  ws ∉ returned s →
  USERS (mem s) !! ws = Some username → Py.is_empty username = false →
  get "action" data = JStr "unsubscribe" →
  get "rooms" data = strs names →
  ∃ σ' left out,
    step (Message ws (Decoded (JDict data)) now) s =
      (Server σ' (returned s), out ++ farewell ws left) ∧
    NoDup left ∧
    (∀ r, r ∈ left ↔ r ∈ names ∧ ws ∈ members (mem s) r) ∧
    (USERS σ' = USERS (mem s) ∧ USERNAMES σ' = USERNAMES (mem s) ∧
     LOG_DIR σ' = LOG_DIR (mem s)) ∧
    (∀ room x, x ∈ members σ' room ↔
               x ∈ members (mem s) room ∧ ¬ (x = ws ∧ room ∈ names)) ∧
    (∀ x r, Send x (leave_notice username r) ∈ out ↔
            r ∈ left ∧ x ∈ members (mem s) r ∧ x ≠ ws).
Proof.
  intros Hlive Hu Hne Hact Hrooms.
  destruct (unsubscribe_rooms_spec ws username names [] (mem s))
    as (left & Hres & Hnd & Hleft & Hframe & Hmem & Hsent).
  rewrite app_nil_l in Hres.
  eexists _, left, _. split; [| done].
  eapply step_handled; [done | |].
  - apply handler_body_unsubscribe; [by rewrite Hu | done].
  - by apply (handle_unsubscribe_run ws data username names left).
Qed.

Lemma unsubscribe_leaves_rooms_witness :
  ∃ σ' left out,
    step (Message 1 (unsubscribe_from ["lobby"; "general"; "general"]) 9)
         (reached empty_disk pair_arrivals) =
      (Server σ' (returned (reached empty_disk pair_arrivals)), out ++ farewell 1 left) ∧
    (∀ x, x ∈ members σ' "general" ↔ x = 2) ∧
    Send 2 (leave_notice "alice" "general") ∈ out.
Proof.
  destruct (unsubscribe_leaves_rooms (reached empty_disk pair_arrivals) 1 "alice"
              [("action", JStr "unsubscribe");
               ("rooms", strs ["lobby"; "general"; "general"])]
              ["lobby"; "general"; "general"] 9)
    as (σ' & left & out & Hstep & _ & Hleft & _ & Hmem & Hsent).
  - vm_compute. set_solver.
  - vm_compute. reflexivity.
  - reflexivity.
  - reflexivity.
  - reflexivity.
  - assert (members (mem (reached empty_disk pair_arrivals)) "general" = {[1; 2]})
      as Hgeneral by (vm_compute; reflexivity).
    exists σ', left, out. split; [exact Hstep |]. split.
    + intros x. rewrite Hmem, Hgeneral. clear. split.
      * intros [Hx Hnot]. apply elem_of_union in Hx as [Hx | Hx];
          apply elem_of_singleton in Hx; [| done].
        exfalso. apply Hnot. split; [done |].
        apply list_elem_of_further, list_elem_of_here.
      * intros ->. split; [set_solver |]. intros [? _]. lia.
    + apply Hsent. rewrite Hleft, Hgeneral. clear.
      split; [split; [apply list_elem_of_further, list_elem_of_here | set_solver] |].
      split; [set_solver | lia].
Defined.

(** * Properties of the client *)

(** ** Splitting and trimming *)

Lemma contains_lstrip c s : Py.contains c (Py.lstrip s) = true → Py.contains c s = true.
Proof.
  induction s as [| d s IH]; simpl; [done |].
  destruct (Py.isspace d); [| done].
  intros H. rewrite (IH H). by destruct (Ascii.eqb c d).
Qed.

Lemma contains_rstrip c s : Py.contains c (Py.rstrip s) = true → Py.contains c s = true.
Proof.
  induction s as [| d s IH]; simpl; [done |].
  destruct (Py.isspace d && Py.is_empty (Py.rstrip s)); simpl; [done |].
  destruct (Ascii.eqb c d); [done | exact IH].
Qed.

Lemma contains_strip c s : Py.contains c (Py.strip s) = true → Py.contains c s = true.
Proof. intros H. by apply contains_lstrip, contains_rstrip. Qed.

Lemma split_max_pieces sep maxsplit s piece :
  (String.length s ≤ maxsplit)%nat →
  piece ∈ Py.split_max sep maxsplit s → Py.contains sep piece = false.
Proof.
  revert maxsplit piece. induction s as [| c s IH]; intros maxsplit piece Hlen; simpl.
  - by intros ->%list_elem_of_singleton.
  - simpl in Hlen. destruct (Ascii.eqb c sep) eqn:Hc.
    + destruct maxsplit as [| m]; [lia |].
      intros [-> | Hin]%elem_of_cons; [done |].
      apply (IH m); [lia | done].
    + pose proof (IH maxsplit) as IH'.
      destruct (Py.split_max sep maxsplit s) as [| first pieces].
      * intros ->%list_elem_of_singleton. simpl.
        by rewrite Ascii.eqb_sym, Hc.
      * intros [-> | Hin]%elem_of_cons.
        -- simpl. rewrite Ascii.eqb_sym, Hc. apply IH'; [lia | by left].
        -- apply IH'; [lia | by right].
Qed.

Lemma room_names_clean arg r :
  r ∈ Client.room_names arg → trimmed r ∧ Py.contains "," r = false.
Proof.
  unfold Client.room_names. intros (piece & Hpiece & Hr)%list_elem_of_omap.
  destruct (Py.is_empty (Py.strip piece)) eqn:Hne; [done |].
  injection Hr as <-. split; [by apply trimmed_strip |].
  destruct (Py.contains "," (Py.strip piece)) eqn:Hc; [| done].
  apply contains_strip in Hc.
  by rewrite (split_max_pieces "," (String.length arg) arg piece (le_n _) Hpiece) in Hc.
Qed.

Lemma lower_char_slash c : Py.lower_char c = "/"%char → c = "/"%char.
Proof.
  destruct c as [[] [] [] [] [] [] [] []]; vm_compute; congruence.
Qed.

Lemma startswith_lower s :
  Py.startswith "/" (Py.lower s) = true → Py.startswith "/" s = true.
Proof.
  destruct s as [| c s]; [done |].
  cbn [Py.lower Py.startswith].
  intros Hc%Ascii.eqb_eq. symmetry in Hc. apply lower_char_slash in Hc as ->.
  apply Ascii.eqb_refl.
Qed.

Lemma split_max_head maxsplit s first pieces :
  Py.split_max " " maxsplit s = first :: pieces →
  Py.startswith "/" first = true → Py.startswith "/" s = true.
Proof.
  destruct s as [| c s]; simpl.
  - intros [= <- _]. done.
  - destruct (Ascii.eqb c " ") eqn:Hc.
    + destruct maxsplit; intros [= <- _]; [| done]. simpl. auto.
    + destruct (Py.split_max " " maxsplit s); intros [= <- _]; simpl; auto.
Qed.

(** A line whose first word is a command gets past the tests of
    [input_loop] that come before the commands. *)
Lemma input_line_command raw cmd pieces :
  Py.split_max " " 2 (Py.strip raw) = cmd :: pieces →
  Py.startswith "/" (Py.lower cmd) = true →
  Py.is_empty raw = false ∧ Py.is_empty (Py.strip raw) = false ∧
  Py.startswith "/" (Py.strip raw) = true.
Proof.
  intros Hparts Hcmd.
  pose proof (split_max_head _ _ _ _ Hparts (startswith_lower _ Hcmd)) as Hline.
  split; [| split; [| done]].
  - by destruct raw.
  - by destruct (Py.strip raw).
Qed.

(** ** The room list of the client *)

Lemma sorted_set_spec l :
  Sorted Py.str_le (Py.sorted_set l) ∧ NoDup (Py.sorted_set l) ∧
  ∀ r, r ∈ Py.sorted_set l ↔ r ∈ l.
Proof.
  unfold Py.sorted_set, Py.sorted.
  pose proof (merge_sort_Permutation Py.str_le (remove_dups l)) as Hperm.
  split; [apply (@Sorted_merge_sort _ _ _ str_le_total) |]. split.
  - rewrite Hperm. apply NoDup_remove_dups.
  - intros r. rewrite Hperm. apply elem_of_remove_dups.
Qed.

Lemma input_line_sub c raw cmd arg rest :
  Py.split_max " " 2 (Py.strip raw) = cmd :: arg :: rest →
  Py.lower cmd = "/sub" →
  Client.input_line c raw =
    (Client.Make (Client.username c)
       (Py.sorted_set (Client.rooms c ++ Client.room_names arg)),
     [Client.WsSend (obj [("action", JStr "subscribe");
                          ("rooms", strs (Client.room_names arg))])],
     Continue).
Proof.
  intros Hparts Hcmd.
  destruct (input_line_command raw cmd (arg :: rest) Hparts) as (Hraw & Hline & Hslash);
    [by rewrite Hcmd |].
  unfold Client.input_line. rewrite Hraw, Hline, Hslash, Hparts.
  cbn [lookup list_lookup default id]. rewrite Hcmd. reflexivity.
Qed.

(** X21. A line of the client whose first word is /sub, in any case, and
    that has a second word sends one subscribe request with the names of
    that word: its pieces between commas, trimmed, the blank ones left out,
    so none is blank or holds a comma.  The room list of the client becomes
    the old list and these names together, in ascending order and each
    once; the loop goes on. *)
Theorem client_sub_updates_rooms c raw cmd arg rest :
  Py.split_max " " 2 (Py.strip raw) = cmd :: arg :: rest →
  Py.lower cmd = "/sub" →
  ∃ rooms',
    Client.input_line c raw =
      (Client.Make (Client.username c) rooms',
       [Client.WsSend (obj [("action", JStr "subscribe");
                            ("rooms", strs (Client.room_names arg))])],
       Continue) ∧
    Sorted Py.str_le rooms' ∧ NoDup rooms' ∧
    (∀ r, r ∈ rooms' ↔ r ∈ Client.rooms c ∨ r ∈ Client.room_names arg) ∧
    (∀ r, r ∈ Client.room_names arg → trimmed r ∧ Py.contains "," r = false).
Proof.
  intros Hparts Hcmd. eexists. split; [by apply (input_line_sub c raw cmd arg rest) |].
  destruct (sorted_set_spec (Client.rooms c ++ Client.room_names arg))
    as (Hsorted & Hnd & Hin).
  split; [done |]. split; [done |]. split.
  - intros r. by rewrite Hin, elem_of_app.
  - apply room_names_clean.
Qed.

Lemma client_sub_updates_rooms_witness :
  ∃ rooms',
    Client.input_line (Client.Make (Some "alice") ["lobby"]) "/SUB general, ,lobby,dev" =
      (Client.Make (Some "alice") rooms',
       [Client.WsSend (obj [("action", JStr "subscribe");
                            ("rooms", strs (Client.room_names "general,"))])],
       Continue) ∧
    NoDup rooms'.
Proof.
  destruct (client_sub_updates_rooms (Client.Make (Some "alice") ["lobby"])
              "/SUB general, ,lobby,dev" "/SUB" "general," [",lobby,dev"])
    as (rooms' & Hline & _ & Hnd & _).
  - reflexivity.
  - reflexivity.
  - exists rooms'. split; [exact Hline | exact Hnd].
Defined.

(** ** The client and the server together *)

Lemma step_subscribe_state s ws username data names now :
  ws ∉ returned s →
  USERS (mem s) !! ws = Some username → Py.is_empty username = false →
  get "action" data = JStr "subscribe" →
  get "rooms" data = strs names →
  (∀ room, room ∈ wanted (JStr <$> names) → replayable (mem s) room) →
  returned (step (Message ws (Decoded (JDict data)) now) s).1 = returned s ∧
  USERS (mem (step (Message ws (Decoded (JDict data)) now) s).1) = USERS (mem s) ∧
  ∀ room x,
    x ∈ members (mem (step (Message ws (Decoded (JDict data)) now) s).1) room ↔
    x ∈ members (mem s) room ∨ (x = ws ∧ room ∈ wanted (JStr <$> names)).
Proof.
  intros Hlive Hu Hne Hact Hrooms Hall.
  assert (handler_body ws (Decoded (JDict data)) now (mem s) =
          (handle_subscribe ws data ;;; ret Continue) (mem s)) as Hbody
    by (apply handler_body_subscribe; [by rewrite Hu | done]).
  destruct names as [| name names].
  - rewrite (step_handled (handle_subscribe ws data) ws _ now s (mem s)
               [Send ws (error_for "subscribe" "rooms list required")] Hlive Hbody)
      by (unfold handle_subscribe; by rewrite Hrooms).
    cbn [fst mem returned]. split; [done |]. split; [done |].
    intros room x. split; [by left |]. intros [? | [_ ?%elem_of_nil]]; done.
  - unfold strs in Hrooms. rewrite fmap_cons in Hrooms.
    rewrite (step_handled (handle_subscribe ws data) ws _ now s _ _ Hlive Hbody
               (handle_subscribe_run ws data (JStr name) (JStr <$> names) username
                  (mem s) Hu Hne Hrooms Hall)).
    cbn [fst mem returned]. rewrite fmap_cons.
    destruct (subscribe_rooms_spec ws username (JStr name :: (JStr <$> names)) [] (mem s))
      as (_ & (HU & _) & Hmem & _).
    done.
Qed.

Lemma step_unsubscribe_state s ws username data names now :
  ws ∉ returned s →
  USERS (mem s) !! ws = Some username → Py.is_empty username = false →
  get "action" data = JStr "unsubscribe" →
  get "rooms" data = strs names →
  returned (step (Message ws (Decoded (JDict data)) now) s).1 = returned s ∧
  USERS (mem (step (Message ws (Decoded (JDict data)) now) s).1) = USERS (mem s) ∧
  ∀ room x,
    x ∈ members (mem (step (Message ws (Decoded (JDict data)) now) s).1) room ↔
    x ∈ members (mem s) room ∧ ¬ (x = ws ∧ room ∈ names).
Proof.
  intros Hlive Hu Hne Hact Hrooms.
  destruct (unsubscribe_rooms_spec ws username names [] (mem s))
    as (left & Hres & _ & _ & (HU & _) & Hmem & _).
  rewrite app_nil_l in Hres.
  rewrite (step_handled (handle_unsubscribe ws data) ws _ now s _ _ Hlive
             (handler_body_unsubscribe ws data now (mem s)
                (ex_intro _ username Hu) Hact)
             (handle_unsubscribe_run ws data username names left (mem s)
                Hu Hne Hrooms Hres)).
  done.
Qed.

Lemma input_line_unsub c raw cmd arg rest :
  Py.split_max " " 2 (Py.strip raw) = cmd :: arg :: rest →
  Py.lower cmd = "/unsub" →
  Client.input_line c raw =
    (Client.Make (Client.username c)
       (filter (λ r, r ∉ Client.room_names arg) (Client.rooms c)),
     [Client.WsSend (obj [("action", JStr "unsubscribe");
                          ("rooms", strs (Client.room_names arg))])],
     Continue).
Proof.
  intros Hparts Hcmd.
  destruct (input_line_command raw cmd (arg :: rest) Hparts) as (Hraw & Hline & Hslash);
    [by rewrite Hcmd |].
  unfold Client.input_line. rewrite Hraw, Hline, Hslash, Hparts.
  cbn [lookup list_lookup default id]. rewrite Hcmd. reflexivity.
Qed.

Lemma run_one a s : (run s [a]).1 = (step a s).1.
Proof. simpl. by destruct (step a s). Qed.

(** X22. When the room list of the client is the set of rooms the server
    has its connection in, and the connection is logged in, a /unsub line
    with a second word keeps it so, and so does a /sub line with a second
    word when the history of each room it names can be replayed: once the
    server has handled the request the line sends, the client lists exactly
    the rooms the server has the connection in, and the connection is still
    logged in under the same username. *)
Theorem client_rooms_follow_server s ws username c raw cmd arg rest now :
  ws ∉ returned s →
  USERS (mem s) !! ws = Some username → Py.is_empty username = false →
  Py.split_max " " 2 (Py.strip raw) = cmd :: arg :: rest →
  Py.lower cmd = "/sub" ∧
    (∀ room, room ∈ Client.room_names arg → replayable (mem s) room) ∨
  Py.lower cmd = "/unsub" →
  rooms_agree c ws (mem s) →
  rooms_agree (Client.input_line c raw).1.1 ws
    (mem (run s (delivered ws now (Client.input_line c raw).1.2)).1) ∧
  USERS (mem (run s (delivered ws now (Client.input_line c raw).1.2)).1) !! ws =
    Some username.
Proof.
  intros Hlive Hu Hne Hparts [[Hcmd Hall] | Hcmd] Hagree.
  - rewrite (input_line_sub c raw cmd arg rest Hparts Hcmd).
    cbn [fst snd delivered Client.frames omap list_omap fmap list_fmap].
    unfold obj. rewrite run_one.
    assert (wanted (JStr <$> Client.room_names arg) = Client.room_names arg) as Hwanted
      by (apply wanted_trimmed; intros r Hr; by apply (room_names_clean arg)).
    destruct (step_subscribe_state s ws username
                [("action", JStr "subscribe"); ("rooms", strs (Client.room_names arg))]
                (Client.room_names arg) now Hlive Hu Hne eq_refl eq_refl)
      as (_ & HU & Hmem); [by rewrite Hwanted |].
    rewrite Hwanted in Hmem.
    split; [| by rewrite HU].
    intros room. cbn [Client.rooms]. rewrite Hmem.
    destruct (sorted_set_spec (Client.rooms c ++ Client.room_names arg)) as (_ & _ & ->).
    rewrite elem_of_app, (Hagree room). naive_solver.
  - rewrite (input_line_unsub c raw cmd arg rest Hparts Hcmd).
    cbn [fst snd delivered Client.frames omap list_omap fmap list_fmap].
    unfold obj. rewrite run_one.
    destruct (step_unsubscribe_state s ws username
                [("action", JStr "unsubscribe"); ("rooms", strs (Client.room_names arg))]
                (Client.room_names arg) now Hlive Hu Hne eq_refl eq_refl)
      as (_ & HU & Hmem).
    split; [| by rewrite HU].
    intros room. cbn [Client.rooms]. rewrite Hmem, list_elem_of_filter, (Hagree room).
    naive_solver.
Qed.

Lemma client_rooms_follow_server_witness :
  rooms_agree (Client.input_line (Client.Make (Some "alice") []) "/sub general,dev").1.1 1
    (mem (run alice_online
            (delivered 1 5
               (Client.input_line (Client.Make (Some "alice") [])
                  "/sub general,dev").1.2)).1).
Proof.
  destruct (client_rooms_follow_server alice_online 1 "alice"
              (Client.Make (Some "alice") []) "/sub general,dev"
              "/sub" "general,dev" [] 5) as [Hagree _].
  - vm_compute. set_solver.
  - vm_compute. reflexivity.
  - reflexivity.
  - reflexivity.
  - left. split; [reflexivity |]. intros room _.
    split; [vm_compute; set_solver | intros _; vm_compute; reflexivity].
  - intros room. unfold members.
    assert (ROOMS (mem alice_online) = ∅) as -> by (vm_compute; reflexivity).
    rewrite lookup_empty. simpl. clear. set_solver.
  - exact Hagree.
Defined.

Lemma input_line_login c raw cmd arg rest :
  Py.split_max " " 2 (Py.strip raw) = cmd :: arg :: rest →
  Py.lower cmd = "/login" →
  Client.input_line c raw =
    (Client.Make (Some (Py.strip arg)) (Client.rooms c),
     [Client.WsSend (obj [("action", JStr "login"); ("username", JStr (Py.strip arg))])],
     Continue).
Proof.
  intros Hparts Hcmd.
  destruct (input_line_command raw cmd (arg :: rest) Hparts) as (Hraw & Hline & Hslash);
    [by rewrite Hcmd |].
  unfold Client.input_line. rewrite Hraw, Hline, Hslash, Hparts.
  cbn [lookup list_lookup default id]. rewrite Hcmd. reflexivity.
Qed.

(** X23. A /login line with a second word sends one login request, and the
    client takes the trimmed word as its username at once.  On a connection
    that is not logged in the server registers that same name when the name
    is not blank and not in use, and answers with the login confirmation;
    when the name is blank or in use the server registers nothing, so the
    client then holds a username the server does not have for it. *)
Theorem client_login_reaches_server s ws c raw cmd arg rest now :
  ws ∉ returned s →
  USERS (mem s) !! ws = None →
  Py.split_max " " 2 (Py.strip raw) = cmd :: arg :: rest →
  Py.lower cmd = "/login" →
  Client.username (Client.input_line c raw).1.1 = Some (Py.strip arg) ∧
  Client.rooms (Client.input_line c raw).1.1 = Client.rooms c ∧
  (Py.is_empty (Py.strip arg) = false → Py.strip arg ∉ USERNAMES (mem s) →
   run s (delivered ws now (Client.input_line c raw).1.2) =
     (Server (logged_in ws (Py.strip arg) (mem s)) (returned s), [Send ws login_ok]) ∧
   USERS (mem (run s (delivered ws now (Client.input_line c raw).1.2)).1) !! ws =
     Client.username (Client.input_line c raw).1.1) ∧
  (Py.is_empty (Py.strip arg) = true ∨ Py.strip arg ∈ USERNAMES (mem s) →
   (run s (delivered ws now (Client.input_line c raw).1.2)).1 = s).
Proof.
  intros Hlive Hnone Hparts Hcmd.
  rewrite (input_line_login c raw cmd arg rest Hparts Hcmd).
  cbn [fst snd delivered Client.frames omap list_omap fmap list_fmap Client.username
       Client.rooms].
  unfold obj. split; [done |]. split; [done |].
  set (data := [("action", JStr "login"); ("username", JStr (Py.strip arg))]).
  assert (handler_body ws (Decoded (JDict data)) now (mem s) =
          (handle_login ws data ;;; ret Continue) (mem s)) as Hbody
    by (by apply handler_body_login).
  pose proof (handle_login_run ws data (Py.strip arg) (mem s) eq_refl) as Hrun.
  rewrite strip_idem in Hrun.
  split.
  - intros Hne Hfree. rewrite Hne, decide_False in Hrun by done.
    cbn [run]. rewrite (step_handled _ ws _ now s _ _ Hlive Hbody Hrun).
    split; [done |]. cbn [fst mem]. simpl. by rewrite lookup_insert_eq.
  - intros Hbad. rewrite run_one.
    destruct (Py.is_empty (Py.strip arg)) eqn:Hne.
    + rewrite (step_handled _ ws _ now s _ _ Hlive Hbody Hrun). by destruct s.
    + destruct Hbad as [? | Htaken]; [done |].
      rewrite decide_True in Hrun by done.
      rewrite (step_handled _ ws _ now s _ _ Hlive Hbody Hrun). by destruct s.
Qed.

Lemma client_login_reaches_server_witness :
  USERS (mem (run (boot empty_disk)
                (delivered 1 0 (Client.input_line Client.init "/Login  alice ").1.2)).1)
    !! 1 = None ∧
  Client.username (Client.input_line Client.init "/Login  alice ").1.1 = Some "".
Proof.
  destruct (client_login_reaches_server (boot empty_disk) 1 Client.init
              "/Login  alice " "/Login" "" ["alice"] 0)
    as (Hname & _ & _ & Hrefused).
  - vm_compute. set_solver.
  - reflexivity.
  - reflexivity.
  - reflexivity.
  - split; [| exact Hname]. rewrite Hrefused; [reflexivity | by left].
Defined.

(** * The name of a log file *)

Lemma contains_filter_chars p c s :
  Py.contains c (Py.filter_chars p s) = true → p c = true ∧ Py.contains c s = true.
Proof.
  induction s as [| d s IH]; simpl; [done |].
  destruct (p d) eqn:Hd; simpl.
  - destruct (Ascii.eqb c d) eqn:Hc; [| exact IH].
    apply Ascii.eqb_eq in Hc as ->. done.
  - intros H. destruct (IH H) as [Hp Hs]. split; [done |].
    by destruct (Ascii.eqb c d).
Qed.

Lemma contains_append c s t :
  Py.contains c (s +:+ t) = Py.contains c s || Py.contains c t.
Proof.
  induction s as [| d s IH]; simpl; [done |]. by destruct (Ascii.eqb c d).
Qed.

Lemma filter_chars_idem p s :
  Py.filter_chars p (Py.filter_chars p s) = Py.filter_chars p s.
Proof.
  induction s as [| d s IH]; simpl; [done |].
  destruct (p d) eqn:Hd; [| exact IH]. simpl. by rewrite Hd, IH.
Qed.

(** X24. Whatever the room name, the name of its log file is a stem and
    the ending .txt, where every character of the stem is a character of
    the room name that is alphanumeric, a hyphen or an underscore: the file
    name holds no slash, no backslash and no dot but the one of the ending,
    so no room name leads out of the log directory.  The stem, taken as a
    room name, has the same file. *)
Theorem log_file_name_is_plain room :
  ∃ stem,
    log_path_for room = stem +:+ ".txt" ∧
    (∀ c, Py.contains c stem = true → safe_char c = true ∧ Py.contains c room = true) ∧
    Py.contains "/" (log_path_for room) = false ∧
    Py.contains "\" (log_path_for room) = false ∧
    Py.contains "." stem = false ∧
    log_path_for stem = log_path_for room.
Proof.
  exists (Py.filter_chars safe_char room). unfold log_path_for.
  assert (∀ c, safe_char c = false →
               Py.contains c (Py.filter_chars safe_char room) = false) as Hnot.
  { intros c Hc. destruct (Py.contains c _) eqn:Hin; [| done].
    apply contains_filter_chars in Hin as [Hsafe _]. congruence. }
  split; [done |]. split; [intros c; apply contains_filter_chars |].
  rewrite !contains_append, !Hnot by done.
  by rewrite filter_chars_idem.
Qed.
